(** * cytrade: a shallow embedding of the trading bot's signal engine and
    of its streaming-connection manager.

    Sources embedded here:
    - [src/services/technicalAnalysis.js]  (class TechnicalAnalysis)
    - [src/services/tradingBot.js]         (class TradingBot)
    - [src/services/webSocketManager.js]   (class WebSocketManager)
    - [src/services/binanceApi.js]         (class BinanceApi: the account
      and position readers)
    - [src/config.js]                      (the configured values)

    JavaScript numbers that carry prices and moving averages are modelled as
    exact rationals ([Q]); counters, delays and timestamps as integers ([Z]);
    array lengths and configured window sizes as [nat].  [null] and
    [undefined] are both [None]. *)

From Stdlib Require Import QArith Qabs Qround ZArith Lia.
From stdpp Require Import base option list sorting gmap strings.

Close Scope Q_scope.
Local Open Scope nat_scope.

(** ** JavaScript number helpers *)

(** [a < b] on numbers, as a boolean test. *)
Definition Qltb (a b : Q) : bool := negb (Qle_bool b a).

(** [a > b] on numbers. *)
Definition Qgtb (a b : Q) : bool := Qltb b a.

(** Truthiness of a number-or-null: [null], [undefined] and [0] are falsy. *)
Definition truthy (o : option Q) : bool :=
  match o with
  | Some q => negb (Qeq_bool q 0)
  | None => false
  end.

(** [arr.slice(-n)]: the last [n] elements, or the whole array if shorter. *)
Definition slice_last {A : Type} (n : nat) (l : list A) : list A :=
  drop (length l - n) l.

(** [arr[arr.length - 1]]: [undefined] on the empty array. *)
Definition last_elem {A : Type} (l : list A) : option A := last l.

(** [arr.shift()] as used for its effect on the array only. *)
Definition shift {A : Type} (l : list A) : list A := tail l.

(** [arr.push(x)]. *)
Definition push {A : Type} (l : list A) (x : A) : list A := l ++ [x].

(** ** Configuration

    The values the handlers of the three classes above read from
    [config.js] are the fields of this record. *)
Record config : Type := Config {
  ema5Period : nat;             (* config.indicators.ema5Period *)
  ema50Period : nat;            (* config.indicators.ema50Period *)
  maxClosingPrices : nat;       (* config.indicators.maxClosingPrices *)
  maxEma5History : nat;         (* config.indicators.maxEma5History *)
  minEmaDiff : Q;               (* config.trading.minEmaDiff *)
  maxPriceDiff : Q;             (* config.trading.maxPriceDiff *)
  maxExtremeDiff : Q;           (* config.trading.maxExtremeDiff *)
  maxReconnectAttempts : Z;     (* config.websocket.maxReconnectAttempts *)
  reconnectDelay : Z;           (* config.websocket.reconnectDelay *)
  pingIntervalMs : Z;           (* config.websocket.pingInterval *)
  pongTimeoutMs : Z             (* config.websocket.pongTimeout *)
}.

(** A configuration for concrete evaluations: the periods 5 and 50, the
    EMA history window 20 and the closing-price window 200 are the
    documented defaults; the other values are samples. *)
Definition default_config : config :=
  {| ema5Period := 5; ema50Period := 50;
     maxClosingPrices := 200; maxEma5History := 20;
     minEmaDiff := 1%Q; maxPriceDiff := 1%Q; maxExtremeDiff := 1%Q;
     maxReconnectAttempts := 5%Z; reconnectDelay := 1000%Z;
     pingIntervalMs := 30000%Z; pongTimeoutMs := 5000%Z |}.

(** ** The EMA indicator of the [technicalindicators] package *)
Module Indicator.

(** Simple average of a list of values. *)
Definition sma (l : list Q) : Q :=
  (foldl Qplus 0 l / inject_Z (Z.of_nat (length l)))%Q.

(** Smoothing factor [2 / (period + 1)]. *)
Definition alpha (period : nat) : Q :=
  (2 / (inject_Z (Z.of_nat period) + 1))%Q.

(** One step of the recurrence
    [EMA_t = price * k + EMA_(t-1) * (1 - k)]. *)
Definition ema_step (k prev price : Q) : Q :=
  (price * k + prev * (1 - k))%Q.

(** The successive EMA values after the seed. *)
Fixpoint ema_run (k prev : Q) (rest : list Q) : list Q :=
  match rest with
  | [] => []
  | p :: rest' => let e := ema_step k prev p in e :: ema_run k e rest'
  end.

(** Modelled from the spec: [EMA.calculate] belongs to the third-party
    package [technicalindicators], which is not among the sources.  The
    recurrence is seeded with the simple average of the first [period]
    values, and nothing is produced while fewer than [period] values
    exist. *)
Definition EMA_calculate (period : nat) (values : list Q) : list Q :=
  if length values <? period then []
  else
    let seed := sma (take period values) in
    seed :: ema_run (alpha period) seed (drop period values).

End Indicator.

(** ** class TechnicalAnalysis *)
Module TechnicalAnalysis.

Inductive pattern : Type := TOP | BOTTOM.

Record state : Type := State {
  closingPrices : list Q;
  ema5History : list Q;
  ema50History : list Q;
  previousEma5 : option Q;
  previousEma50 : option Q;
  volumeHistory : list Q
}.

(** [constructor()]. *)
Definition init : state :=
  {| closingPrices := []; ema5History := []; ema50History := [];
     previousEma5 := None; previousEma50 := None; volumeHistory := [] |}.

(** Push onto a window and drop the oldest entry when over capacity. *)
Definition push_capped (cap : nat) (l : list Q) (x : Q) : list Q :=
  let l' := push l x in
  if cap <? length l' then shift l' else l'.

(** [addPrice(price, volume = null)]. *)
Definition addPrice (cfg : config) (s : state) (price : Q)
    (volume : option Q) : state :=
  {| closingPrices := push_capped (maxClosingPrices cfg) (closingPrices s) price;
     ema5History := ema5History s;
     ema50History := ema50History s;
     previousEma5 := previousEma5 s;
     previousEma50 := previousEma50 s;
     volumeHistory :=
       match volume with
       | Some v => push_capped (maxClosingPrices cfg) (volumeHistory s) v
       | None => volumeHistory s
       end |}.

(** [calculateEMAs(currentPrice)]: the pair [{ ema5, ema50 }]. *)
Definition calculateEMAs (cfg : config) (s : state) (currentPrice : Q)
    : option Q * option Q :=
  let prices := closingPrices s ++ [currentPrice] in
  if length prices <? ema50Period cfg then (None, None)
  else
    let ema5Array := Indicator.EMA_calculate (ema5Period cfg) prices in
    let ema50Array := Indicator.EMA_calculate (ema50Period cfg) prices in
    (last_elem ema5Array, last_elem ema50Array).

(** The two consecutive pushes followed by one conditional shift that
    [updateEmaHistory] performs on each history. *)
Definition push_twice_shift (cap : nat) (l : list Q) (x : Q) : list Q :=
  let l' := push (push l x) x in
  if cap <? length l' then shift l' else l'.

(** [updateEmaHistory(ema5, ema50)].  Both histories are compared with
    [config.indicators.maxEma5History]. *)
Definition updateEmaHistory (cfg : config) (s : state) (ema5 ema50 : Q)
    : state :=
  {| closingPrices := closingPrices s;
     ema5History := push_twice_shift (maxEma5History cfg) (ema5History s) ema5;
     ema50History := push_twice_shift (maxEma5History cfg) (ema50History s) ema50;
     previousEma5 := Some ema5;
     previousEma50 := Some ema50;
     volumeHistory := volumeHistory s |}.

(** [arr[arr.length - 1] = x] on a non-empty array. *)
Definition set_last (l : list Q) (x : Q) : list Q :=
  <[length l - 1 := x]> l.

(** [updateLastEma(ema5, ema50)]. *)
Definition updateLastEma (s : state) (ema5 ema50 : Q) : state :=
  if (0 <? length (ema5History s)) && (0 <? length (ema50History s)) then
    {| closingPrices := closingPrices s;
       ema5History := set_last (ema5History s) ema5;
       ema50History := set_last (ema50History s) ema50;
       previousEma5 := previousEma5 s;
       previousEma50 := previousEma50 s;
       volumeHistory := volumeHistory s |}
  else s.

(** [arr[i]] on an array of numbers known to be long enough. *)
Definition at_index (l : list Q) (i : nat) : Q := nth i l 0%Q.

(** [checkArcPattern(currentEma5, currentEma50)]. *)
Definition checkArcPattern (cfg : config) (s : state)
    (currentEma5 currentEma50 : Q) : option pattern :=
  if (length (ema5History s) <? 5) || (length (ema50History s) <? 5) then None
  else
    let lastFiveEma5 := slice_last 5 (ema5History s) in
    let lastFiveEma50 := slice_last 5 (ema50History s) in
    let middleEma5 := at_index lastFiveEma5 2 in
    let middleEma50 := at_index lastFiveEma50 2 in
    if Qgtb middleEma5 (at_index lastFiveEma5 0) &&
       Qgtb middleEma5 (at_index lastFiveEma5 1) &&
       Qgtb middleEma5 (at_index lastFiveEma5 3) &&
       Qgtb middleEma5 (at_index lastFiveEma5 4) &&
       Qgtb currentEma5 currentEma50
    then
      let arcEmaDiff := Qabs (middleEma5 - middleEma50) in
      if Qltb arcEmaDiff (minEmaDiff cfg) then None else Some TOP
    else if Qltb middleEma5 (at_index lastFiveEma5 0) &&
            Qltb middleEma5 (at_index lastFiveEma5 1) &&
            Qltb middleEma5 (at_index lastFiveEma5 3) &&
            Qltb middleEma5 (at_index lastFiveEma5 4) &&
            Qltb currentEma5 currentEma50
    then
      let arcEmaDiff := Qabs (middleEma5 - middleEma50) in
      if Qltb arcEmaDiff (minEmaDiff cfg) then None else Some BOTTOM
    else None.

(** [reset()]. *)
Definition reset (s : state) : state := init.

End TechnicalAnalysis.

(** ** class TradingBot *)
Module TradingBot.
Import TechnicalAnalysis.

(** [position.type]: ['long'] or ['short']; [null] is [None]. *)
Inductive side : Type := long | short.

(** Values of [lastCrossSignal]. *)
Inductive cross : Type := DOWN_CROSS | UP_CROSS.

#[global] Instance side_eq_dec : EqDecision side.
Proof. solve_decision. Defined.
#[global] Instance cross_eq_dec : EqDecision cross.
Proof. solve_decision. Defined.
#[global] Instance pattern_eq_dec : EqDecision pattern.
Proof. solve_decision. Defined.

(** The awaited calls a handler makes on the exchange side, in order. *)
Inductive call : Type :=
| GetCurrentPosition
| ClosePosition (currentPrice : Q)
| OpenPosition (direction : side) (currentPrice : Q).

(** What the exchange answers during one handler run: the position that
    [getCurrentPosition] resolves to ([None] when the promise rejects),
    and whether [closePosition] / [openPosition] resolve or reject. *)
Record exchange : Type := Exchange {
  positionReply : option (option side);
  closeResolves : bool;
  openResolves : bool
}.

(** The fields of the bot that the signal handlers read or write.
    [allowAddOrder] is written by the handlers but read nowhere, and is
    left out. *)
Record bot : Type := Bot {
  technicalAnalysis : TechnicalAnalysis.state;
  lastArcPattern : option pattern;
  lastCrossSignal : option cross;
  crossPrice : option Q
}.

(** [constructor()]. *)
Definition init : bot :=
  {| technicalAnalysis := TechnicalAnalysis.init;
     lastArcPattern := None; lastCrossSignal := None; crossPrice := None |}.

Definition set_ta (b : bot) (t : TechnicalAnalysis.state) : bot :=
  {| technicalAnalysis := t; lastArcPattern := lastArcPattern b;
     lastCrossSignal := lastCrossSignal b; crossPrice := crossPrice b |}.

Definition set_lastArcPattern (b : bot) (p : option pattern) : bot :=
  {| technicalAnalysis := technicalAnalysis b; lastArcPattern := p;
     lastCrossSignal := lastCrossSignal b; crossPrice := crossPrice b |}.

Definition set_lastCrossSignal (b : bot) (c : option cross) : bot :=
  {| technicalAnalysis := technicalAnalysis b;
     lastArcPattern := lastArcPattern b;
     lastCrossSignal := c; crossPrice := crossPrice b |}.

Definition set_crossPrice (b : bot) (p : option Q) : bot :=
  {| technicalAnalysis := technicalAnalysis b;
     lastArcPattern := lastArcPattern b;
     lastCrossSignal := lastCrossSignal b; crossPrice := p |}.

Definition set_previous (b : bot) (ema5 ema50 : Q) : bot :=
  let t := technicalAnalysis b in
  set_ta b
    {| closingPrices := closingPrices t;
       ema5History := ema5History t;
       ema50History := ema50History t;
       previousEma5 := Some ema5;
       previousEma50 := Some ema50;
       volumeHistory := volumeHistory t |}.

(** The value of a number-or-null once it is known to be truthy. *)
Definition num (o : option Q) : Q := default 0%Q o.

(** [(prevEma5 > prevEma50 && ema5 < ema50)]. *)
Definition crossedDown (prevEma5 prevEma50 ema5 ema50 : Q) : bool :=
  Qgtb prevEma5 prevEma50 && Qltb ema5 ema50.

(** [(prevEma5 < prevEma50 && ema5 > ema50)]. *)
Definition crossedUp (prevEma5 prevEma50 ema5 ema50 : Q) : bool :=
  Qltb prevEma5 prevEma50 && Qgtb ema5 ema50.

(** The position a crossover signal opens. *)
Definition newPositionType (currentSignal : cross) : side :=
  match currentSignal with DOWN_CROSS => short | UP_CROSS => long end.

(** [checkTradeSignals(ema5, ema50, currentPrice)]: the new bot state and
    the calls made, when no other run is resumed during its awaits (the
    run split at its awaits is [beginSignals] and [resume] below).  A
    rejected promise is caught by the handler's own [try]/[catch], which
    ends the run where it stands. *)
Definition checkTradeSignals (b : bot) (ex : exchange)
    (ema5 ema50 currentPrice : Q) : bot * list call :=
  let prevEma5 := previousEma5 (technicalAnalysis b) in
  let prevEma50 := previousEma50 (technicalAnalysis b) in
  if negb (truthy prevEma5) || negb (truthy prevEma50) then
    (set_previous b ema5 ema50, [])
  else
    let p5 := num prevEma5 in
    let p50 := num prevEma50 in
    let priceAboveEmas := Qgtb currentPrice ema5 && Qgtb currentPrice ema50 in
    let priceBelowEmas := Qltb currentPrice ema5 && Qltb currentPrice ema50 in
    let hasEmaCross :=
      crossedDown p5 p50 ema5 ema50 || crossedUp p5 p50 ema5 ema50 in
    if priceAboveEmas || priceBelowEmas || hasEmaCross then
      match positionReply ex with
      | None => (b, [GetCurrentPosition])
      | Some position =>
        if bool_decide (position = Some short) && priceAboveEmas then
          if closeResolves ex
          then (set_lastCrossSignal b None,
                [GetCurrentPosition; ClosePosition currentPrice])
          else (b, [GetCurrentPosition; ClosePosition currentPrice])
        else if bool_decide (position = Some long) && priceBelowEmas then
          if closeResolves ex
          then (set_lastCrossSignal b None,
                [GetCurrentPosition; ClosePosition currentPrice])
          else (b, [GetCurrentPosition; ClosePosition currentPrice])
        else if bool_decide (position = None) && hasEmaCross then
          let '(currentSignal, b1) :=
            if crossedDown p5 p50 ema5 ema50
            then (Some DOWN_CROSS, set_crossPrice b (Some currentPrice))
            else if crossedUp p5 p50 ema5 ema50
            then (Some UP_CROSS, set_crossPrice b (Some currentPrice))
            else (None, b) in
          match currentSignal with
          | Some sig =>
            if bool_decide (Some sig <> lastCrossSignal b1) then
              if openResolves ex
              then (set_lastCrossSignal b1 (Some sig),
                    [GetCurrentPosition;
                     OpenPosition (newPositionType sig) currentPrice])
              else (b1, [GetCurrentPosition;
                         OpenPosition (newPositionType sig) currentPrice])
            else (b1, [GetCurrentPosition])
          | None => (b1, [GetCurrentPosition])
          end
        else (b, [GetCurrentPosition])
      end
    else (b, []).

(** The order the comparator of [handleArcPattern] sorts by:
    [(a, b) => pattern === 'TOP' ? b - a : a - b], that is, descending
    for a top and ascending for a bottom. *)
Definition before (p : pattern) (a b : Q) : Prop :=
  match p with
  | TOP => (b <= a)%Q
  | BOTTOM => (a <= b)%Q
  end.

#[global] Instance before_dec (p : pattern) : RelDecision (before p).
Proof.
  intros a b. destruct p; unfold before, Qle; apply Z.le_dec.
Defined.

(** [[...emaValues].sort(comparator)]. *)
Definition sortedEmaValues (p : pattern) (emaValues : list Q) : list Q :=
  merge_sort (before p) emaValues.

(** [sortedEmaValues[1]]: [undefined] when fewer than two values. *)
Definition secondExtreme (p : pattern) (emaValues : list Q) : option Q :=
  sortedEmaValues p emaValues !! 1.

(** The guard of [handleArcPattern] that is entered when [hasBreakout]
    holds; [true] when one of its three [return] statements is reached.
    With an [undefined] second extreme the difference is [NaN], and
    [NaN > maxExtremeDiff] is false. *)
Definition breakoutRejects (cfg : config) (b : bot) (p : pattern)
    (currentPrice : Q) : bool :=
  let emaValues := ema5History (technicalAnalysis b) in
  if negb (truthy (crossPrice b)) then true
  else
    let priceDiff := Qabs (currentPrice - num (crossPrice b)) in
    if Qgtb priceDiff (maxPriceDiff cfg) then true
    else
      match secondExtreme p emaValues with
      | Some se =>
        let extremeDiff := Qabs (currentPrice - se) in
        Qgtb extremeDiff (maxExtremeDiff cfg)
      | None => false
      end.

(** The body shared by the two pattern branches of [handleArcPattern]:
    close a position held in direction [held], then open [target] unless
    the position fetched at the start was already [target]. *)
Definition reversePosition (ex : exchange) (held target : side)
    (currentPrice : Q) : list call :=
  match positionReply ex with
  | None => [GetCurrentPosition]
  | Some position =>
    let closing :=
      if bool_decide (position = Some held)
      then [ClosePosition currentPrice] else [] in
    let closed :=
      if bool_decide (position = Some held) then closeResolves ex else true in
    let opening :=
      if closed && bool_decide (position <> Some target)
      then [OpenPosition target currentPrice] else [] in
    GetCurrentPosition :: closing ++ opening
  end.

(** [handleArcPattern(pattern, currentPrice, ema5, ema50)]: the calls
    made ([beginArc] and [resume] below split the run at its awaits).
    No field of the modelled state is written. *)
Definition handleArcPattern (cfg : config) (b : bot) (ex : exchange)
    (p : pattern) (currentPrice ema5 ema50 : Q) : list call :=
  let hasBreakout :=
    match p with
    | TOP => Qltb ema5 ema50
    | BOTTOM => Qgtb ema5 ema50
    end in
  if hasBreakout && breakoutRejects cfg b p currentPrice then []
  else if bool_decide (Some p <> lastArcPattern b) then
    match p with
    | TOP => reversePosition ex long short currentPrice
    | BOTTOM => reversePosition ex short long currentPrice
    end
  else [].

(** The stream message as [handleKline] reads it: [message.e],
    [parseFloat(message.k.c)] and [message.k.x]. *)
Record message : Type := Message {
  msg_e : string;
  msg_close : Q;
  msg_closed : bool
}.

(** [handleKline(message)], run from its first line to its last with no
    other run resumed during its awaits.  [exS] answers the calls made
    inside [checkTradeSignals], [exA] those made inside
    [handleArcPattern].  The closed-candle branch and the early returns
    have no await; for the open candle the runs that overlap are those
    of [arrive], [resume] and [play] below. *)
Definition handleKline (cfg : config) (b : bot) (exS exA : exchange)
    (m : message) : bot * list call :=
  if bool_decide (msg_e m <> "kline"%string) then (b, [])
  else
    let currentPrice := msg_close m in
    let '(ema5, ema50) :=
      calculateEMAs cfg (technicalAnalysis b) currentPrice in
    if negb (truthy ema5) || negb (truthy ema50) then (b, [])
    else
      let e5 := num ema5 in
      let e50 := num ema50 in
      if msg_closed m then
        let t1 := addPrice cfg (technicalAnalysis b) currentPrice None in
        (set_ta b (updateEmaHistory cfg t1 e5 e50), [])
      else
        let b1 := set_ta b (updateLastEma (technicalAnalysis b) e5 e50) in
        let '(b2, calls) := checkTradeSignals b1 exS e5 e50 currentPrice in
        match checkArcPattern cfg (technicalAnalysis b2) e5 e50 with
        | Some arcPattern =>
          if bool_decide (Some arcPattern <> lastArcPattern b2) then
            (set_lastArcPattern b2 (Some arcPattern),
             calls ++ handleArcPattern cfg b2 exA arcPattern currentPrice e5 e50)
          else (b2, calls)
        | None => (b2, calls)
        end.

(** *** The runs of [handleKline], split at their awaits

    The stream does not await [onMessage], so while a run of
    [handleKline] waits at an [await] the next message starts a run of
    its own on the same bot.  A run is the code up to its first [await]
    ([arrive]) and then, each time the awaited promise settles, the code
    up to the next one ([resume]).  Every field is read where the code
    reads it: the stored previous averages before the first await,
    [lastCrossSignal] once the position has arrived, the EMA5 history,
    [crossPrice] and [lastArcPattern] once [checkTradeSignals] has
    returned.  [checkTradeSignals], [handleArcPattern] and [handleKline]
    above are the runs during whose awaits no other run is resumed. *)

(** The handler a call is made from. *)
Inductive origin : Type := Crossover | Arc.

(** Where a run waits, with the local variables it uses afterwards.
    In [checkTradeSignals]: for the position, for [closePosition], for
    [openPosition], and in [handleKline] for [checkTradeSignals] itself.
    In [handleArcPattern]: for the position, for [closePosition], for
    [openPosition], and in [handleKline] for [handleArcPattern]. *)
Inductive task : Type :=
| SignalsPosition (ema5 ema50 currentPrice prevEma5 prevEma50 : Q)
| SignalsClose (ema5 ema50 currentPrice : Q)
| SignalsOpen (currentSignal : cross) (ema5 ema50 currentPrice : Q)
| SignalsDone (ema5 ema50 currentPrice : Q)
| ArcPosition (arcPattern : pattern) (currentPrice : Q)
| ArcClose (arcPattern : pattern) (position : option side) (currentPrice : Q)
| ArcOpen (arcPattern : pattern)
| ArcDone (arcPattern : pattern).

(** The bot a piece of a run leaves, the calls it starts, and where the
    run waits next ([None] when it has returned). *)
Definition progress : Type := (bot * list (origin * call) * option task)%type.

(** [checkTradeSignals] up to its first [await]. *)
Definition beginSignals (b : bot) (ema5 ema50 currentPrice : Q) : progress :=
  let prevEma5 := previousEma5 (technicalAnalysis b) in
  let prevEma50 := previousEma50 (technicalAnalysis b) in
  if negb (truthy prevEma5) || negb (truthy prevEma50) then
    (set_previous b ema5 ema50, [], Some (SignalsDone ema5 ema50 currentPrice))
  else
    let p5 := num prevEma5 in
    let p50 := num prevEma50 in
    let priceAboveEmas := Qgtb currentPrice ema5 && Qgtb currentPrice ema50 in
    let priceBelowEmas := Qltb currentPrice ema5 && Qltb currentPrice ema50 in
    let hasEmaCross :=
      crossedDown p5 p50 ema5 ema50 || crossedUp p5 p50 ema5 ema50 in
    if priceAboveEmas || priceBelowEmas || hasEmaCross then
      (b, [(Crossover, GetCurrentPosition)],
       Some (SignalsPosition ema5 ema50 currentPrice p5 p50))
    else (b, [], Some (SignalsDone ema5 ema50 currentPrice)).

(** The position an arc pattern closes, and the one it opens. *)
Definition heldAgainst (p : pattern) : side :=
  match p with TOP => long | BOTTOM => short end.

Definition turnsTo (p : pattern) : side :=
  match p with TOP => short | BOTTOM => long end.

(** [handleArcPattern] up to its first [await]. *)
Definition beginArc (cfg : config) (b : bot) (p : pattern)
    (currentPrice ema5 ema50 : Q) : progress :=
  let hasBreakout :=
    match p with
    | TOP => Qltb ema5 ema50
    | BOTTOM => Qgtb ema5 ema50
    end in
  if hasBreakout && breakoutRejects cfg b p currentPrice
  then (b, [], Some (ArcDone p))
  else if bool_decide (Some p <> lastArcPattern b)
  then (b, [(Arc, GetCurrentPosition)], Some (ArcPosition p currentPrice))
  else (b, [], Some (ArcDone p)).

(** [handleKline(message)] up to its first [await]. *)
Definition arrive (cfg : config) (b : bot) (m : message) : progress :=
  if bool_decide (msg_e m <> "kline"%string) then (b, [], None)
  else
    let currentPrice := msg_close m in
    let '(ema5, ema50) :=
      calculateEMAs cfg (technicalAnalysis b) currentPrice in
    if negb (truthy ema5) || negb (truthy ema50) then (b, [], None)
    else
      let e5 := num ema5 in
      let e50 := num ema50 in
      if msg_closed m then
        let t1 := addPrice cfg (technicalAnalysis b) currentPrice None in
        (set_ta b (updateEmaHistory cfg t1 e5 e50), [], None)
      else
        let b1 := set_ta b (updateLastEma (technicalAnalysis b) e5 e50) in
        beginSignals b1 e5 e50 currentPrice.

(** The run that waits at [t] goes on, on the bot as it is by then, when
    the awaited promise settles as [ex] says. *)
Definition resume (cfg : config) (b : bot) (t : task) (ex : exchange)
    : progress :=
  match t with
  | SignalsPosition ema5 ema50 currentPrice p5 p50 =>
    let priceAboveEmas := Qgtb currentPrice ema5 && Qgtb currentPrice ema50 in
    let priceBelowEmas := Qltb currentPrice ema5 && Qltb currentPrice ema50 in
    let hasEmaCross :=
      crossedDown p5 p50 ema5 ema50 || crossedUp p5 p50 ema5 ema50 in
    match positionReply ex with
    | None => (b, [], Some (SignalsDone ema5 ema50 currentPrice))
    | Some position =>
      if bool_decide (position = Some short) && priceAboveEmas then
        (b, [(Crossover, ClosePosition currentPrice)],
         Some (SignalsClose ema5 ema50 currentPrice))
      else if bool_decide (position = Some long) && priceBelowEmas then
        (b, [(Crossover, ClosePosition currentPrice)],
         Some (SignalsClose ema5 ema50 currentPrice))
      else if bool_decide (position = None) && hasEmaCross then
        let '(currentSignal, b1) :=
          if crossedDown p5 p50 ema5 ema50
          then (Some DOWN_CROSS, set_crossPrice b (Some currentPrice))
          else if crossedUp p5 p50 ema5 ema50
          then (Some UP_CROSS, set_crossPrice b (Some currentPrice))
          else (None, b) in
        match currentSignal with
        | Some sig =>
          if bool_decide (Some sig <> lastCrossSignal b1) then
            (b1, [(Crossover, OpenPosition (newPositionType sig) currentPrice)],
             Some (SignalsOpen sig ema5 ema50 currentPrice))
          else (b1, [], Some (SignalsDone ema5 ema50 currentPrice))
        | None => (b1, [], Some (SignalsDone ema5 ema50 currentPrice))
        end
      else (b, [], Some (SignalsDone ema5 ema50 currentPrice))
    end
  | SignalsClose ema5 ema50 currentPrice =>
    if closeResolves ex
    then (set_lastCrossSignal b None, [],
          Some (SignalsDone ema5 ema50 currentPrice))
    else (b, [], Some (SignalsDone ema5 ema50 currentPrice))
  | SignalsOpen sig ema5 ema50 currentPrice =>
    if openResolves ex
    then (set_lastCrossSignal b (Some sig), [],
          Some (SignalsDone ema5 ema50 currentPrice))
    else (b, [], Some (SignalsDone ema5 ema50 currentPrice))
  | SignalsDone ema5 ema50 currentPrice =>
    match checkArcPattern cfg (technicalAnalysis b) ema5 ema50 with
    | Some arcPattern =>
      if bool_decide (Some arcPattern <> lastArcPattern b)
      then beginArc cfg b arcPattern currentPrice ema5 ema50
      else (b, [], None)
    | None => (b, [], None)
    end
  | ArcPosition p currentPrice =>
    match positionReply ex with
    | None => (b, [], Some (ArcDone p))
    | Some position =>
      if bool_decide (position = Some (heldAgainst p)) then
        (b, [(Arc, ClosePosition currentPrice)],
         Some (ArcClose p position currentPrice))
      else if bool_decide (position <> Some (turnsTo p)) then
        (b, [(Arc, OpenPosition (turnsTo p) currentPrice)], Some (ArcOpen p))
      else (b, [], Some (ArcDone p))
    end
  | ArcClose p position currentPrice =>
    if closeResolves ex && bool_decide (position <> Some (turnsTo p)) then
      (b, [(Arc, OpenPosition (turnsTo p) currentPrice)], Some (ArcOpen p))
    else (b, [], Some (ArcDone p))
  | ArcOpen p => (b, [], Some (ArcDone p))
  | ArcDone p => (set_lastArcPattern b (Some p), [], None)
  end.





End TradingBot.

(** ** class WebSocketManager *)
Module WebSocketManager.

(** [ws.readyState]. *)
Inductive readyState : Type := CONNECTING | OPEN | CLOSING | CLOSED.

#[global] Instance readyState_eq_dec : EqDecision readyState.
Proof. solve_decision. Defined.

(** One row of the array [getHistoricalKlines] resolves to; the fields
    are the indices [0..6] the code reads. *)
Record kline : Type := Kline {
  kline_0 : Z;   (* open time *)
  kline_1 : Q;   (* open *)
  kline_2 : Q;   (* high *)
  kline_3 : Q;   (* low *)
  kline_4 : Q;   (* close *)
  kline_5 : Q;   (* volume *)
  kline_6 : Z    (* close time *)
}.

(** The object handed to [onMessage]: [{ e, k: { t, T, o, h, l, c, v, x } }];
    [k.s] and [k.i] repeat the configured symbol and interval. *)
Record klineEvent : Type := KlineEvent {
  ev_e : string;
  ev_t : Z; ev_T : Z;
  ev_o : Q; ev_h : Q; ev_l : Q; ev_c : Q; ev_v : Q;
  ev_x : bool
}.

(** The control frames sent on the socket. *)
Inductive frame : Type :=
| SUBSCRIBE (params : list string) (id : Z)
| UNSUBSCRIBE (params : list string) (id : Z).

(** A payload arriving in a [message] event, after [JSON.parse]. *)
Inductive incoming : Type :=
| PingText                       (* the text "ping" *)
| Malformed                      (* JSON.parse throws *)
| PongMessage                    (* message.pong is truthy *)
| SubscribeResult                (* message.result !== undefined *)
| Business (m : klineEvent).

(** Timers registered with the runtime through [setInterval] and
    [setTimeout]. *)
Inductive timer : Type :=
| PingTimer (every : Z)          (* setupHeartbeat: setInterval *)
| PongTimer (after : Z)          (* setupHeartbeat: setTimeout *)
| MonitorTimer (every : Z)       (* setupConnectionMonitor: setInterval *)
| ReconnectTimer (after : Z).    (* handleReconnect: setTimeout *)

Inductive level : Type := debug | info | warn | error.

(** What a method does to the outside world, in order. *)
Inductive effect : Type :=
| GetHistoricalKlines (limit : Z)
| OnMessage (m : klineEvent)
| NewWebSocket
| WsSend (f : frame)
| WsClose
| WsTerminate
| WsPing
| WsPong
| Log (l : level)
| ProcessExit (code : Z).

(** The manager's fields, together with the part of the runtime its
    methods act on: the table of live timers, the next timer handle and
    the clock read by [Date.now()].  [ws] is [None] for [null] and
    otherwise holds the ready state of the socket stored in [this.ws].
    The [Set] of subscriptions keeps insertion order and no duplicates. *)
Record manager : Type := Manager {
  ws : option readyState;
  pingInterval : option nat;
  pongTimeout : option nat;
  reconnectAttempts : Z;
  isReconnecting : bool;
  lastMessageTime : Z;
  subscriptions : list string;
  timers : gmap nat timer;
  nextTimer : nat;
  clock : Z
}.

(** [constructor(onMessage)] at time [now], on a runtime without timers. *)
Definition init (now : Z) : manager :=
  {| ws := None; pingInterval := None; pongTimeout := None;
     reconnectAttempts := 0; isReconnecting := false;
     lastMessageTime := now; subscriptions := [];
     timers := ∅; nextTimer := 0; clock := now |}.

Definition set_ws (v : option readyState) (m : manager) : manager :=
  {| ws := v; pingInterval := pingInterval m; pongTimeout := pongTimeout m;
     reconnectAttempts := reconnectAttempts m;
     isReconnecting := isReconnecting m;
     lastMessageTime := lastMessageTime m;
     subscriptions := subscriptions m; timers := timers m;
     nextTimer := nextTimer m; clock := clock m |}.

Definition set_pingInterval (v : option nat) (m : manager) : manager :=
  {| ws := ws m; pingInterval := v; pongTimeout := pongTimeout m;
     reconnectAttempts := reconnectAttempts m;
     isReconnecting := isReconnecting m;
     lastMessageTime := lastMessageTime m;
     subscriptions := subscriptions m; timers := timers m;
     nextTimer := nextTimer m; clock := clock m |}.

Definition set_pongTimeout (v : option nat) (m : manager) : manager :=
  {| ws := ws m; pingInterval := pingInterval m; pongTimeout := v;
     reconnectAttempts := reconnectAttempts m;
     isReconnecting := isReconnecting m;
     lastMessageTime := lastMessageTime m;
     subscriptions := subscriptions m; timers := timers m;
     nextTimer := nextTimer m; clock := clock m |}.

Definition set_reconnectAttempts (v : Z) (m : manager) : manager :=
  {| ws := ws m; pingInterval := pingInterval m;
     pongTimeout := pongTimeout m; reconnectAttempts := v;
     isReconnecting := isReconnecting m;
     lastMessageTime := lastMessageTime m;
     subscriptions := subscriptions m; timers := timers m;
     nextTimer := nextTimer m; clock := clock m |}.

Definition set_isReconnecting (v : bool) (m : manager) : manager :=
  {| ws := ws m; pingInterval := pingInterval m;
     pongTimeout := pongTimeout m;
     reconnectAttempts := reconnectAttempts m; isReconnecting := v;
     lastMessageTime := lastMessageTime m;
     subscriptions := subscriptions m; timers := timers m;
     nextTimer := nextTimer m; clock := clock m |}.

Definition set_lastMessageTime (v : Z) (m : manager) : manager :=
  {| ws := ws m; pingInterval := pingInterval m;
     pongTimeout := pongTimeout m;
     reconnectAttempts := reconnectAttempts m;
     isReconnecting := isReconnecting m; lastMessageTime := v;
     subscriptions := subscriptions m; timers := timers m;
     nextTimer := nextTimer m; clock := clock m |}.

Definition set_subscriptions (v : list string) (m : manager) : manager :=
  {| ws := ws m; pingInterval := pingInterval m;
     pongTimeout := pongTimeout m;
     reconnectAttempts := reconnectAttempts m;
     isReconnecting := isReconnecting m;
     lastMessageTime := lastMessageTime m;
     subscriptions := v; timers := timers m;
     nextTimer := nextTimer m; clock := clock m |}.

Definition set_timers (v : gmap nat timer) (m : manager) : manager :=
  {| ws := ws m; pingInterval := pingInterval m;
     pongTimeout := pongTimeout m;
     reconnectAttempts := reconnectAttempts m;
     isReconnecting := isReconnecting m;
     lastMessageTime := lastMessageTime m;
     subscriptions := subscriptions m; timers := v;
     nextTimer := nextTimer m; clock := clock m |}.

Definition set_nextTimer (v : nat) (m : manager) : manager :=
  {| ws := ws m; pingInterval := pingInterval m;
     pongTimeout := pongTimeout m;
     reconnectAttempts := reconnectAttempts m;
     isReconnecting := isReconnecting m;
     lastMessageTime := lastMessageTime m;
     subscriptions := subscriptions m; timers := timers m;
     nextTimer := v; clock := clock m |}.

Definition set_clock (v : Z) (m : manager) : manager :=
  {| ws := ws m; pingInterval := pingInterval m;
     pongTimeout := pongTimeout m;
     reconnectAttempts := reconnectAttempts m;
     isReconnecting := isReconnecting m;
     lastMessageTime := lastMessageTime m;
     subscriptions := subscriptions m; timers := timers m;
     nextTimer := nextTimer m; clock := v |}.

(** *** Methods as computations over the manager

    A method either returns or throws (a [TypeError] on [this.ws.x] with
    [this.ws === null]); either way it leaves a manager and the effects
    performed so far. *)
Inductive result (A : Type) : Type :=
| Returns (a : A) (m : manager) (tr : list effect)
| Throws (m : manager) (tr : list effect).
Arguments Returns {A} a m tr.
Arguments Throws {A} m tr.

Definition M (A : Type) : Type := manager -> result A.

Definition ret {A : Type} (a : A) : M A := fun m => Returns a m [].

Definition bind {A B : Type} (c : M A) (k : A -> M B) : M B :=
  fun m =>
    match c m with
    | Returns a m1 t1 =>
      match k a m1 with
      | Returns b m2 t2 => Returns b m2 (t1 ++ t2)
      | Throws m2 t2 => Throws m2 (t1 ++ t2)
      end
    | Throws m1 t1 => Throws m1 t1
    end.

Definition throw {A : Type} : M A := fun m => Throws m [].

(** [try { c } catch (error) { h }]. *)
Definition try_catch {A : Type} (c h : M A) : M A :=
  fun m =>
    match c m with
    | Returns a m1 t1 => Returns a m1 t1
    | Throws m1 t1 =>
      match h m1 with
      | Returns a m2 t2 => Returns a m2 (t1 ++ t2)
      | Throws m2 t2 => Throws m2 (t1 ++ t2)
      end
    end.

Definition get : M manager := fun m => Returns m m [].
Definition modify (f : manager -> manager) : M unit :=
  fun m => Returns tt (f m) [].
Definition emit (e : effect) : M unit := fun m => Returns tt m [e].

Notation "'let*' x := c 'in' k" := (bind c (fun x => k))
  (at level 10, x name, c at level 100, k at level 200).
Notation "c >> k" := (bind c (fun _ => k))
  (at level 65, right associativity).

(** The manager and the effects a run ends with. *)
Definition final {A : Type} (r : result A) : manager :=
  match r with Returns _ m _ => m | Throws m _ => m end.
Definition trace {A : Type} (r : result A) : list effect :=
  match r with Returns _ _ t => t | Throws _ t => t end.
Definition returned {A : Type} (r : result A) : bool :=
  match r with Returns _ _ _ => true | Throws _ _ => false end.

(** *** Runtime and transport primitives *)

(** [Date.now()]. *)
Definition Date_now : M Z := let* m := get in ret (clock m).

(** [setInterval] / [setTimeout]: registers the timer and returns its
    handle. *)
Definition setTimer (t : timer) : M nat :=
  let* m := get in
  let id := nextTimer m in
  modify (fun m => set_nextTimer (S id) (set_timers (<[id := t]> (timers m)) m)) >>
  ret id.

(** [clearInterval] / [clearTimeout]. *)
Definition clearTimer (id : nat) : M unit :=
  modify (fun m => set_timers (delete id (timers m)) m).

(** Reading [this.ws] in order to use a member of it: a [TypeError] when
    it is [null]. *)
Definition the_ws : M readyState :=
  let* m := get in
  match ws m with
  | Some rs => ret rs
  | None => throw
  end.

(** The ready state a socket is left in by [close()] or [terminate()]. *)
Definition closing (rs : readyState) : readyState :=
  if bool_decide (rs = CLOSED) then CLOSED else CLOSING.

Definition ws_close : M unit :=
  let* rs := the_ws in
  emit WsClose >> modify (set_ws (Some (closing rs))).

Definition ws_terminate : M unit :=
  let* rs := the_ws in
  emit WsTerminate >> modify (set_ws (Some (closing rs))).

Definition ws_send (f : frame) : M unit := the_ws >> emit (WsSend f).

(** [arr.forEach(f)]. *)
Fixpoint forEach {A : Type} (l : list A) (f : A -> M unit) : M unit :=
  match l with
  | [] => ret tt
  | x :: l' => f x >> forEach l' f
  end.

(** [set.add(x)] and [set.delete(x)] on an insertion-ordered [Set]. *)
Definition Set_add (x : string) (l : list string) : list string :=
  if bool_decide (x ∈ l) then l else l ++ [x].
Definition Set_delete (x : string) (l : list string) : list string :=
  filter (fun y => y <> x) l.

(** *** Methods *)

(** [cleanup()]. *)
Definition cleanup : M unit :=
  (let* m := get in
   match pingInterval m with
   | Some id => clearTimer id >> modify (set_pingInterval None)
   | None => ret tt
   end) >>
  (let* m := get in
   match pongTimeout m with
   | Some id => clearTimer id >> modify (set_pongTimeout None)
   | None => ret tt
   end).

(** [handlePong()]. *)
Definition handlePong : M unit :=
  (let* m := get in
   match pongTimeout m with
   | Some id => clearTimer id >> modify (set_pongTimeout None)
   | None => ret tt
   end) >>
  emit (Log debug).

(** [handlePing()]. *)
Definition handlePing : M unit :=
  let* rs := the_ws in
  if bool_decide (rs = OPEN) then emit WsPong >> emit (Log debug)
  else ret tt.

(** [resubscribe()]. *)
Definition resubscribe : M unit :=
  let* m := get in
  if (0 <? length (subscriptions m))%nat then
    let* now := Date_now in
    ws_send (SUBSCRIBE (subscriptions m) now) >> emit (Log info)
  else ret tt.

(** [handleOpen()]. *)
Definition handleOpen : M unit :=
  emit (Log info) >>
  modify (set_reconnectAttempts 0) >>
  modify (set_isReconnecting false) >>
  (let* now := Date_now in modify (set_lastMessageTime now)) >>
  resubscribe.

(** [handleMessage(data)]. *)
Definition handleMessage (data : incoming) : M unit :=
  try_catch
    (match data with
     | PingText | Malformed => throw
     | PongMessage =>
       (let* now := Date_now in modify (set_lastMessageTime now)) >>
       handlePong
     | SubscribeResult =>
       (let* now := Date_now in modify (set_lastMessageTime now)) >>
       emit (Log debug)
     | Business msg =>
       (let* now := Date_now in modify (set_lastMessageTime now)) >>
       emit (OnMessage msg)
     end)
    (emit (Log error)).

(** [setupHeartbeat()]. *)
Definition setupHeartbeat (cfg : config) : M unit :=
  cleanup >>
  let* id := setTimer (PingTimer (pingIntervalMs cfg)) in
  modify (set_pingInterval (Some id)).

(** [setupConnectionMonitor()]: the handle [setInterval] returns is not
    kept. *)
Definition setupConnectionMonitor : M unit :=
  setTimer (MonitorTimer 30000) >> ret tt.

(** The delay [handleReconnect] computes for the attempt numbered
    [attempt >= 1]:
    [Math.min(reconnectDelay * Math.pow(2, attempt - 1), 30000)]. *)
Definition backoffDelay (cfg : config) (attempt : Z) : Z :=
  Z.min (reconnectDelay cfg * 2 ^ (attempt - 1)) 30000.

(** [handleReconnect()], up to its [await]: the timer it registers runs
    [connect()] when it expires. *)
Definition handleReconnect (cfg : config) : M unit :=
  let* m := get in
  if isReconnecting m then ret tt
  else
    modify (set_isReconnecting true) >>
    if (reconnectAttempts m <? maxReconnectAttempts cfg)%Z then
      let attempt := (reconnectAttempts m + 1)%Z in
      modify (set_reconnectAttempts attempt) >>
      let delay := backoffDelay cfg attempt in
      emit (Log info) >>
      setTimer (ReconnectTimer delay) >> ret tt
    else
      emit (Log error) >>
      modify (set_isReconnecting false) >>
      emit (ProcessExit 1).

(** [handleClose(code, reason)]. *)
Definition handleClose (cfg : config) : M unit :=
  emit (Log warn) >>
  cleanup >>
  let* m := get in
  if negb (isReconnecting m) then handleReconnect cfg else ret tt.

(** [handleError(error)]. *)
Definition handleError : M unit :=
  emit (Log error) >> cleanup >> ws_close.

(** The object [connect()] builds from one historical row. *)
Definition formattedKline (k : kline) : klineEvent :=
  {| ev_e := "kline";
     ev_t := kline_0 k; ev_T := kline_6 k;
     ev_o := kline_1 k; ev_h := kline_2 k; ev_l := kline_3 k;
     ev_c := kline_4 k; ev_v := kline_5 k;
     ev_x := true |}.

(** [connect()].  [reply] is what the awaited [getHistoricalKlines]
    resolves to, [None] when it rejects. *)
Definition connect (cfg : config) (reply : option (list kline)) : M unit :=
  try_catch
    (emit (GetHistoricalKlines 100) >>
     let* klines := match reply with Some ks => ret ks | None => throw end in
     let closedKlines := removelast klines in
     forEach closedKlines (fun k => emit (OnMessage (formattedKline k))) >>
     modify (set_ws (Some CONNECTING)) >>
     emit NewWebSocket >>
     setupHeartbeat cfg >>
     setupConnectionMonitor >>
     emit (Log info))
    (emit (Log error) >> handleReconnect cfg).

(** [subscribe(channel)]. *)
Definition subscribe (channel : string) : M unit :=
  let* rs := the_ws in
  if bool_decide (rs = OPEN) then
    let* now := Date_now in
    ws_send (SUBSCRIBE [channel] now) >>
    modify (fun m => set_subscriptions (Set_add channel (subscriptions m)) m) >>
    emit (Log info)
  else ret tt.

(** [unsubscribe(channel)]. *)
Definition unsubscribe (channel : string) : M unit :=
  let* rs := the_ws in
  if bool_decide (rs = OPEN) then
    let* now := Date_now in
    ws_send (UNSUBSCRIBE [channel] now) >>
    modify (fun m => set_subscriptions (Set_delete channel (subscriptions m)) m) >>
    emit (Log info)
  else ret tt.

(** [close()]. *)
Definition close : M unit :=
  cleanup >>
  (let* m := get in
   match ws m with
   | Some _ => ws_close >> modify (set_ws None)
   | None => ret tt
   end) >>
  emit (Log info).

(** *** Timer callbacks *)

(** The closure [setupHeartbeat] passes to [setInterval]. *)
Definition pingCallback (cfg : config) : M unit :=
  let* rs := the_ws in
  if bool_decide (rs = OPEN) then
    emit WsPing >> emit (Log debug) >>
    let* id := setTimer (PongTimer (pongTimeoutMs cfg)) in
    modify (set_pongTimeout (Some id))
  else ret tt.

(** The closure [setupHeartbeat] passes to [setTimeout]. *)
Definition pongTimeoutCallback : M unit :=
  emit (Log warn) >> ws_terminate.

(** The closure [setupConnectionMonitor] passes to [setInterval].  The
    [&&] reads [this.ws] only once the message age exceeds two minutes. *)
Definition monitorCallback : M unit :=
  let* now := Date_now in
  let* m := get in
  let messageAge := (now - lastMessageTime m)%Z in
  if (120000 <? messageAge)%Z then
    let* rs := the_ws in
    if bool_decide (rs = OPEN) then emit (Log warn) >> ws_terminate
    else ret tt
  else ret tt.

(** The runtime running the callback of timer [id], if that timer is
    still registered; a timeout is removed as it expires.  [reply]
    answers the [getHistoricalKlines] of a [connect()] resumed by an
    expired reconnect delay. *)
Definition fire (cfg : config) (id : nat) (reply : option (list kline))
    : M unit :=
  let* m := get in
  match timers m !! id with
  | None => ret tt
  | Some (PingTimer _) => pingCallback cfg
  | Some (PongTimer _) => clearTimer id >> pongTimeoutCallback
  | Some (MonitorTimer _) => monitorCallback
  | Some (ReconnectTimer _) => clearTimer id >> connect cfg reply
  end.

(** *** Transport events, as wired by [setupWebSocketHandlers] *)
Inductive event : Type :=
| on_open
| on_message (data : incoming)
| on_close
| on_error
| on_ping
| on_pong.

(** The ready state the transport reports once the event is emitted. *)
Definition transport (ev : event) (m : manager) : manager :=
  match ws m, ev with
  | Some _, on_open => set_ws (Some OPEN) m
  | Some _, on_close => set_ws (Some CLOSED) m
  | _, _ => m
  end.

Definition dispatch (cfg : config) (ev : event) : M unit :=
  modify (transport ev) >>
  match ev with
  | on_open => handleOpen
  | on_message PingText => handlePing
  | on_message data => handleMessage data
  | on_close => handleClose cfg
  | on_error => handleError
  | on_ping => handlePing
  | on_pong => handlePong
  end.

(** Time passing on the runtime clock. *)
Definition elapse (ms : Z) : M unit :=
  modify (fun m => set_clock (clock m + ms) m).

End WebSocketManager.

(** ** JavaScript numbers and objects

    The order code divides by values that can be zero or missing, so its
    numbers include the infinities and [NaN]; negative zero is not
    distinguished from zero.  A finite number is the rational value of a
    double.  The arithmetic operators return the exact result rounded to
    a double; that rounding is the parameter [fl] of the operators below,
    so whatever is proved of them holds for the binary64 rounding of the
    runtime (an instance, [binary64], is given with the scenarios). *)
Module JS.

Inductive number : Type := Finite (q : Q) | PosInfinity | NegInfinity | NaN.

Inductive value : Type :=
| Undefined
| Null
| Num (n : number)
| Str (s : string).

(** An object literal: its own properties. *)
Definition object : Type := gmap string value.

(** [o.k]: [undefined] when [o] has no property [k]. *)
Definition prop (o : object) (k : string) : value := default Undefined (o !! k).

(** [!!v]. *)
Definition truthy (v : value) : bool :=
  match v with
  | Undefined | Null | Num NaN => false
  | Num (Finite q) => negb (Qeq_bool q 0)
  | Num PosInfinity | Num NegInfinity => true
  | Str s => negb (String.eqb s "")
  end.

(** [a || b]. *)
Definition or (a b : value) : value := if truthy a then a else b.

(** The number an operand of [/] or [*] is converted to.  No string is
    used as an operand in the modelled code. *)
Definition toNumber (v : value) : number :=
  match v with
  | Undefined => NaN
  | Null => Finite 0
  | Num n => n
  | Str _ => NaN
  end.

(** The sign of a finite number: [Lt], [Eq] or [Gt] against zero. *)
Definition sign (q : Q) : comparison := (q ?= 0)%Q.

(** The rounding of an exact result to a double, which overflows to an
    infinity. *)
Definition rounding : Type := Q -> number.

(** [a / b]. *)
Definition div (fl : rounding) (a b : number) : number :=
  match a, b with
  | NaN, _ | _, NaN => NaN
  | Finite x, Finite y =>
    match sign y with
    | Eq => match sign x with Gt => PosInfinity | Lt => NegInfinity | Eq => NaN end
    | _ => fl (x / y)%Q
    end
  | Finite _, (PosInfinity | NegInfinity) => Finite 0
  | PosInfinity, Finite y =>
    match sign y with Lt => NegInfinity | _ => PosInfinity end
  | NegInfinity, Finite y =>
    match sign y with Lt => PosInfinity | _ => NegInfinity end
  | (PosInfinity | NegInfinity), (PosInfinity | NegInfinity) => NaN
  end.

(** [a * b]. *)
Definition mul (fl : rounding) (a b : number) : number :=
  match a, b with
  | NaN, _ | _, NaN => NaN
  | Finite x, Finite y => fl (x * y)%Q
  | Finite x, PosInfinity | PosInfinity, Finite x =>
    match sign x with Gt => PosInfinity | Lt => NegInfinity | Eq => NaN end
  | Finite x, NegInfinity | NegInfinity, Finite x =>
    match sign x with Gt => NegInfinity | Lt => PosInfinity | Eq => NaN end
  | PosInfinity, PosInfinity | NegInfinity, NegInfinity => PosInfinity
  | PosInfinity, NegInfinity | NegInfinity, PosInfinity => NegInfinity
  end.

(** [a - b]. *)
Definition sub (fl : rounding) (a b : number) : number :=
  match a, b with
  | NaN, _ | _, NaN => NaN
  | Finite x, Finite y => fl (x - y)%Q
  | Finite _, PosInfinity => NegInfinity
  | Finite _, NegInfinity => PosInfinity
  | PosInfinity, (Finite _ | NegInfinity) => PosInfinity
  | NegInfinity, (Finite _ | PosInfinity) => NegInfinity
  | PosInfinity, PosInfinity | NegInfinity, NegInfinity => NaN
  end.

(** The power [2^e] for an integer exponent. *)
Definition pow2 (e : Z) : Q :=
  if (0 <=? e)%Z then inject_Z (2 ^ e) else (1 / inject_Z (2 ^ (- e)))%Q.

(** [floor (log2 a)] for a positive [a]. *)
Definition floorLog2 (a : Q) : Z :=
  let l := (Z.log2 (Qnum a) - Z.log2 (Zpos (Qden a)))%Z in
  if Qle_bool (pow2 l) a then l else (l - 1)%Z.

(** The integer nearest to [m], the even one of two that are equally near. *)
Definition roundHalfEven (m : Q) : Z :=
  let f := Qfloor m in
  match ((m - inject_Z f) ?= 1 # 2)%Q with
  | Lt => f
  | Gt => (f + 1)%Z
  | Eq => if Z.even f then f else (f + 1)%Z
  end.

(** The rounding of the runtime: to the nearest double (53 significant
    bits, exponents down to the subnormal [2^-1074]), ties to the even
    significand, and an infinity from [2^1024] on. *)
Definition binary64 : rounding := fun q =>
  if Qeq_bool q 0 then Finite 0
  else
    let a := Qabs q in
    let e := Z.max (floorLog2 a - 52) (-1074) in
    let v := (inject_Z (roundHalfEven (a / pow2 e)) * pow2 e)%Q in
    if Qle_bool (pow2 1024) v
    then (if Qle_bool 0 q then PosInfinity else NegInfinity)
    else Finite (if Qle_bool 0 q then v else - v)%Q.

(** The double a decimal literal or [parseFloat] of a decimal string
    denotes: the one nearest to it. *)
Definition double (q : Q) : Q :=
  match binary64 q with
  | Finite d => d
  | _ => q
  end.

(** [Math.floor(a)]: the floor of a double is a double. *)
Definition floor (a : number) : number :=
  match a with
  | Finite x => Finite (inject_Z (Qfloor x))
  | _ => a
  end.

(** [a < b]: false as soon as an operand is [NaN]. *)
Definition lt (a b : number) : bool :=
  match a, b with
  | NaN, _ | _, NaN => false
  | Finite x, Finite y => Qltb x y
  | NegInfinity, (Finite _ | PosInfinity) => true
  | Finite _, PosInfinity => true
  | _, _ => false
  end.

(** [a <= b]. *)
Definition le (a b : number) : bool :=
  match a, b with
  | NaN, _ | _, NaN => false
  | Finite x, Finite y => Qle_bool x y
  | NegInfinity, _ | _, PosInfinity => true
  | _, _ => false
  end.

(** [a >= b]. *)
Definition ge (a b : number) : bool := le b a.

(** [Math.pow(10, p)] for a non-negative integer [p]: the power itself,
    which is a double for every [p] up to 22. *)
Definition pow10 (p : nat) : number := Finite (inject_Z (10 ^ Z.of_nat p)).

End JS.

(** ** class BinanceApi: what its methods make of the exchange's replies *)
Module BinanceApi.
Import TradingBot.

(** One element of [assets] in the account reply, its fields parsed. *)
Record asset : Type := Asset {
  asset_name : string;
  walletBalance : Q;
  asset_availableBalance : Q;
  asset_unrealizedProfit : Q;
  asset_marginBalance : Q;
  asset_maintMargin : Q;
  asset_initialMargin : Q
}.

(** One element of [positions] in the account reply, its fields parsed. *)
Record positionEntry : Type := PositionEntry {
  entry_symbol : string;
  positionAmt : Q;
  entry_leverage : Z;
  entry_entryPrice : Q;
  entry_markPrice : Q;
  entry_unrealizedProfit : Q
}.

(** [response.data] of the account request. *)
Record accountData : Type := AccountData {
  assets : list asset;
  positions : list positionEntry
}.

(** The object [getAccountInfo] returns. *)
Record accountInfo : Type := AccountInfo {
  totalWalletBalance : Q;
  availableBalance : Q;
  unrealizedProfit : Q;
  marginBalance : Q;
  maintMargin : Q;
  initialMargin : Q;
  info_positions : list positionEntry
}.

(** [getAccountInfo()], given the reply to its request ([None] when the
    request fails); [None] when it throws. *)
Definition getAccountInfo (reply : option accountData) : option accountInfo :=
  match reply with
  | None => None
  | Some data =>
    match List.find (fun a => String.eqb (asset_name a) "USDT") (assets data) with
    | None => None
    | Some usdtAsset =>
      Some {| totalWalletBalance := walletBalance usdtAsset;
              availableBalance := asset_availableBalance usdtAsset;
              unrealizedProfit := asset_unrealizedProfit usdtAsset;
              marginBalance := asset_marginBalance usdtAsset;
              maintMargin := asset_maintMargin usdtAsset;
              initialMargin := asset_initialMargin usdtAsset;
              info_positions := positions data |}
    end
  end.

(** [{ type: null, qty: 0 }]. *)
Definition flatPosition : JS.object :=
  {[ "type"%string := JS.Null; "qty"%string := JS.Num (JS.Finite 0) ]}.

(** The object [getCurrentPosition] builds for a non-zero amount. *)
Definition heldPosition (p : positionEntry) : JS.object :=
  {[ "type"%string :=
       JS.Str (if Qgtb (positionAmt p) 0 then "long" else "short");
     "qty"%string := JS.Num (JS.Finite (Qabs (positionAmt p)));
     "leverage"%string := JS.Num (JS.Finite (inject_Z (entry_leverage p)));
     "entryPrice"%string := JS.Num (JS.Finite (entry_entryPrice p));
     "markPrice"%string := JS.Num (JS.Finite (entry_markPrice p));
     "unrealizedProfit"%string := JS.Num (JS.Finite (entry_unrealizedProfit p)) ]}.

(** [getCurrentPosition(symbol)]; [None] when it throws. *)
Definition getCurrentPosition (reply : option accountData) (symbol : string)
    : option JS.object :=
  match getAccountInfo reply with
  | None => None
  | Some accountInfo =>
    match List.find (fun p => String.eqb (entry_symbol p) symbol)
            (info_positions accountInfo) with
    | None => Some flatPosition
    | Some position =>
      if Qeq_bool (positionAmt position) 0 then Some flatPosition
      else Some (heldPosition position)
    end
  end.

(** [position.type] as the handlers of [TradingBot] compare it. *)
Definition typeOf (position : JS.object) : option side :=
  match JS.prop position "type" with
  | JS.Str s =>
    if String.eqb s "long" then Some long
    else if String.eqb s "short" then Some short
    else None
  | _ => None
  end.

(** One element of [filters] and of [symbols] in the exchange
    information, with [minQty] parsed. *)
Record filter : Type := Filter {
  filterType : string;
  minQty : Q
}.

Record symbolInfo : Type := SymbolInfo {
  info_symbol : string;
  quantityPrecision : option nat;
  filters : list filter
}.

End BinanceApi.

(** ** class TradingBot: orders and start-up *)
Module Orders.
Import TechnicalAnalysis TradingBot BinanceApi.

(** The values of [config.trading] the order code reads. *)
Record trading : Type := Trading {
  symbol : string;
  leverage : Q;
  positionSize : Q;
  stopLoss : Q;
  takeProfit : Q
}.

Inductive orderSide : Type := BUY | SELL.

(** The text handed to [sendSignal], by its parts. *)
Inductive signal : Type :=
| Opened (direction : side) (price : Q) (quantity : JS.number)
| Closed (positionType : JS.value) (price : Q) (quantity pnl : JS.number).

(** The awaited calls of the order code, in order. *)
Inductive request : Type :=
| GetAccountInfo
| GetCurrentPosition
| GetLatestPrice
| SetLeverage (leverage : Q)
| GetExchangeInfo
| PlaceOrder (side : orderSide) (quantity : JS.number) (reduceOnly : bool)
| SendSignal (text : signal).

(** How an [async] method ends, with the requests it made. *)
Record outcome : Type := Outcome {
  resolved : bool;
  requests : list request
}.

(** [symbolInfo.quantityPrecision || 3]. *)
Definition precisionOf (info : symbolInfo) : nat :=
  match quantityPrecision info with
  | Some (S n) => S n
  | _ => 3
  end.

(** [Math.floor(q * Math.pow(10, p)) / Math.pow(10, p)], the product and
    the quotient rounded as the runtime rounds them. *)
Definition roundDown (fl : JS.rounding) (p : nat) (q : JS.number) : JS.number :=
  JS.div fl (JS.floor (JS.mul fl q (JS.pow10 p))) (JS.pow10 p).

(** What the exchange answers while [openPosition] runs. *)
Record openReplies : Type := OpenReplies {
  open_account : option accountData;
  open_leverageOk : bool;
  open_exchangeInfo : option (list symbolInfo);
  open_orderOk : bool
}.

(** [openPosition(direction, currentPrice)]. *)
Definition openPosition (fl : JS.rounding) (tc : trading) (testMode : bool)
    (ex : openReplies) (direction : side) (currentPrice : Q) : outcome :=
  match getAccountInfo (open_account ex) with
  | None => Outcome false [GetAccountInfo]
  | Some accountInfo =>
    let leverage := if testMode then 5%Q else leverage tc in
    let positionSize :=
      if testMode then fl (5 # 100)%Q else JS.Finite (positionSize tc) in
    if negb (open_leverageOk ex)
    then Outcome false [GetAccountInfo; SetLeverage leverage]
    else
      let orderValue :=
        JS.mul fl (JS.Finite (availableBalance accountInfo)) positionSize in
      let quantity :=
        JS.div fl (JS.mul fl orderValue (JS.Finite leverage))
          (JS.Finite currentPrice) in
      let made := [GetAccountInfo; SetLeverage leverage; GetExchangeInfo] in
      match open_exchangeInfo ex with
      | None => Outcome false made
      | Some symbols =>
        match List.find (fun s => String.eqb (info_symbol s) (symbol tc)) symbols with
        | None => Outcome false made
        | Some symbolInfo =>
          let roundedQuantity :=
            roundDown fl (precisionOf symbolInfo) quantity in
          match List.find (fun f => String.eqb (filterType f) "LOT_SIZE")
                  (filters symbolInfo) with
          | None => Outcome false made
          | Some lotSizeFilter =>
            if JS.lt roundedQuantity (JS.Finite (minQty lotSizeFilter))
            then Outcome false made
            else
              let order :=
                PlaceOrder (match direction with long => BUY | short => SELL end)
                  roundedQuantity false in
              if open_orderOk ex
              then Outcome true
                     (made ++ [order;
                               SendSignal (Opened direction currentPrice roundedQuantity)])
              else Outcome false (made ++ [order])
          end
        end
      end
  end.

(** What the exchange answers while [closePosition] runs. *)
Record closeReplies : Type := CloseReplies {
  close_account : option accountData;
  close_exchangeInfo : option (list symbolInfo);
  close_orderOk : bool;
  close_accountAfter : option accountData
}.

(** [closePosition(currentPrice)]. *)
Definition closePosition (fl : JS.rounding) (tc : trading)
    (ex : closeReplies) (currentPrice : Q) : outcome :=
  match getCurrentPosition (close_account ex) (symbol tc) with
  | None => Outcome false [GetCurrentPosition]
  | Some position =>
    if negb (JS.truthy (JS.prop position "type"))
    then Outcome true [GetCurrentPosition]
    else
      let made := [GetCurrentPosition; GetExchangeInfo] in
      match close_exchangeInfo ex with
      | None => Outcome false made
      | Some symbols =>
        match List.find (fun s => String.eqb (info_symbol s) (symbol tc)) symbols with
        | None => Outcome false made
        | Some symbolInfo =>
          let roundedQuantity :=
            roundDown fl (precisionOf symbolInfo)
              (JS.toNumber (JS.prop position "qty")) in
          match List.find (fun f => String.eqb (filterType f) "LOT_SIZE")
                  (filters symbolInfo) with
          | None => Outcome false made
          | Some lotSizeFilter =>
            if JS.lt roundedQuantity (JS.Finite (minQty lotSizeFilter))
            then Outcome false made
            else
              let isLong := bool_decide (typeOf position = Some long) in
              let entryPrice := JS.toNumber (JS.prop position "entryPrice") in
              let pnl :=
                if isLong
                then JS.mul fl (JS.sub fl (JS.Finite currentPrice) entryPrice)
                       roundedQuantity
                else JS.mul fl (JS.sub fl entryPrice (JS.Finite currentPrice))
                       roundedQuantity in
              let order :=
                PlaceOrder (if isLong then SELL else BUY) roundedQuantity true in
              if close_orderOk ex
              then
                let sent :=
                  made ++ [order;
                           SendSignal (Closed (JS.prop position "type") currentPrice
                                         roundedQuantity pnl);
                           GetAccountInfo] in
                match getAccountInfo (close_accountAfter ex) with
                | Some _ => Outcome true sent
                | None => Outcome false sent
                end
              else Outcome false (made ++ [order])
          end
        end
      end
  end.

(** What [checkPositionStatus] returns when it resolves. *)
Inductive status : Type :=
| NoPosition                                    (* return null *)
| ClosedIt                                      (* return after closePosition *)
| Report (pnlPercent : JS.number).              (* the status object *)

(** [checkPositionStatus()]: its result ([None] when it rejects) and the
    requests made.  [latestPrice] is what [getLatestPrice] resolves to. *)
Definition checkPositionStatus (fl : JS.rounding) (tc : trading)
    (account : option accountData) (latestPrice : option Q)
    (ex : closeReplies) : option status * list request :=
  match getCurrentPosition account (symbol tc) with
  | None => (None, [GetCurrentPosition])
  | Some position =>
    match latestPrice with
    | None => (None, [GetCurrentPosition; GetLatestPrice])
    | Some currentPrice =>
      let made := [GetCurrentPosition; GetLatestPrice] in
      if negb (JS.truthy (JS.prop position "type")) then (Some NoPosition, made)
      else
        let pnlPercent :=
          JS.mul fl
            (JS.div fl
               (JS.toNumber (JS.or (JS.prop position "unrealizedProfit")
                               (JS.Num (JS.Finite 0))))
               (JS.toNumber (JS.prop position "initialMargin")))
            (JS.Finite 100) in
        let closeIt :=
          let r := closePosition fl tc ex currentPrice in
          (if resolved r then Some ClosedIt else None, made ++ requests r) in
        if JS.le pnlPercent (JS.mul fl (JS.Finite (- stopLoss tc)) (JS.Finite 100))
        then closeIt
        else if JS.ge pnlPercent (JS.mul fl (JS.Finite (takeProfit tc)) (JS.Finite 100))
        then closeIt
        else (Some (Report pnlPercent), made)
    end
  end.

(** [initializeHistoricalData()], given the closing prices
    [parseFloat(kline[4])] of the rows fetched ([None] when the fetch
    fails); [None] when it throws, which happens before any field is
    written. *)
Definition initializeHistoricalData (cfg : config) (b : bot)
    (klines : option (list Q)) : option bot :=
  match klines with
  | None => None
  | Some closes =>
    match last closes with
    | None => None
    | Some lastPrice =>
      let t := foldl (fun s price => addPrice cfg s price None)
                 (technicalAnalysis b) closes in
      let '(ema5, ema50) := calculateEMAs cfg t lastPrice in
      if truthy ema5 && truthy ema50
      then Some (set_ta b (updateEmaHistory cfg t (num ema5) (num ema50)))
      else Some (set_ta b t)
    end
  end.

End Orders.

(** The values of [config.js]. *)
Definition repo_config : config :=
  {| ema5Period := 5; ema50Period := 50;
     maxClosingPrices := 200; maxEma5History := 20;
     minEmaDiff := 1000%Q; maxPriceDiff := 100%Q; maxExtremeDiff := 50%Q;
     maxReconnectAttempts := 5%Z; reconnectDelay := 5000%Z;
     pingIntervalMs := 30000%Z; pongTimeoutMs := 5000%Z |}.

Definition repo_trading : Orders.trading :=
  {| Orders.symbol := "BTCUSDT";
     Orders.leverage := 50%Q;
     Orders.positionSize := JS.double (5 # 100);
     Orders.stopLoss := JS.double (2 # 100);
     Orders.takeProfit := JS.double (5 # 100) |}.

(** * Scenarios

    Concrete states and runs used to evaluate the code. *)

(** [n] closed-candle updates with the same pair of averages, from a fresh
    [TechnicalAnalysis]. *)
Definition updates (cfg : config) (n : nat) : TechnicalAnalysis.state :=
  Nat.iter n (fun s => TechnicalAnalysis.updateEmaHistory cfg s 1%Q 1%Q)
    TechnicalAnalysis.init.

(** A closed candle with averages [(e, e50)], whose update stores them,
    followed by the last tick of the next candle with averages
    [(x, e50)], which overwrites the last stored entry. *)
Definition candle (s : TechnicalAnalysis.state) (e x e50 : Q)
    : TechnicalAnalysis.state :=
  TechnicalAnalysis.updateLastEma
    (TechnicalAnalysis.updateEmaHistory default_config s e e50) x e50.

(** Three candles on a fresh analysis, the last tick carrying the
    averages [(1, e50)]: the EMA5 history is [9, 1, 2, 5, 2, 1], its last
    five points [1, 2, 5, 2, 1], over a flat EMA50 of [e50]. *)
Definition arc_state (e50 : Q) : TechnicalAnalysis.state :=
  candle (candle (candle TechnicalAnalysis.init 9 1 e50) 2 5 e50) 2 1 e50.

(** A state holding [n] closing prices, all equal to [1]. *)
Definition priced_state (n : nat) : TechnicalAnalysis.state :=
  {| TechnicalAnalysis.closingPrices := replicate n 1%Q;
     TechnicalAnalysis.ema5History := [];
     TechnicalAnalysis.ema50History := [];
     TechnicalAnalysis.previousEma5 := None;
     TechnicalAnalysis.previousEma50 := None;
     TechnicalAnalysis.volumeHistory := [] |}.

(** An exchange that reports [position] and lets every order through. *)
Definition reports (position : option TradingBot.side) : TradingBot.exchange :=
  {| TradingBot.positionReply := Some position;
     TradingBot.closeResolves := true;
     TradingBot.openResolves := true |}.









(** A manager on which six reconnect attempts are counted and no
    reconnect is in progress. *)
Definition exhausted : WebSocketManager.manager :=
  WebSocketManager.set_reconnectAttempts 6 (WebSocketManager.init 0).

(** The configuration that allows no reconnect attempt at all. *)
Definition no_retry_config : config :=
  {| ema5Period := 5; ema50Period := 50;
     maxClosingPrices := 200; maxEma5History := 20;
     minEmaDiff := 1%Q; maxPriceDiff := 1%Q; maxExtremeDiff := 1%Q;
     maxReconnectAttempts := 0%Z; reconnectDelay := 1000%Z;
     pingIntervalMs := 30000%Z; pongTimeoutMs := 5000%Z |}.

(** A manager whose socket has the given ready state and which holds the
    given subscriptions. *)
Definition with_socket (rs : WebSocketManager.readyState)
    (subs : list string) : WebSocketManager.manager :=
  WebSocketManager.set_subscriptions subs
    (WebSocketManager.set_ws (Some rs) (WebSocketManager.init 0)).

(** A session that connects, sees the socket open and then close, up to
    the point where the reconnect delay is armed. *)
Definition drop_run (cfg : config) (ks : list WebSocketManager.kline)
    : WebSocketManager.M unit :=
  WebSocketManager.bind (WebSocketManager.connect cfg (Some ks)) (fun _ =>
  WebSocketManager.bind (WebSocketManager.dispatch cfg WebSocketManager.on_open) (fun _ =>
  WebSocketManager.dispatch cfg WebSocketManager.on_close)).

(** The same session continued until the reconnect delay expires and the
    resumed [connect()] has fetched [ks2]. *)
Definition reconnect_run (cfg : config) (ks1 ks2 : list WebSocketManager.kline)
    (m : WebSocketManager.manager) : WebSocketManager.result unit :=
  WebSocketManager.bind (drop_run cfg ks1) (fun _ =>
  WebSocketManager.fire cfg (S (S (WebSocketManager.nextTimer m))) (Some ks2)) m.

(** A session that connects and is then closed by [close()]. *)
Definition closed_run (cfg : config) (ks : list WebSocketManager.kline)
    : WebSocketManager.M unit :=
  WebSocketManager.bind (WebSocketManager.connect cfg (Some ks)) (fun _ =>
  WebSocketManager.close).

(** The message [handleKline] reads out of a delivered event. *)
Definition toMessage (ev : WebSocketManager.klineEvent) : TradingBot.message :=
  {| TradingBot.msg_e := WebSocketManager.ev_e ev;
     TradingBot.msg_close := WebSocketManager.ev_c ev;
     TradingBot.msg_closed := WebSocketManager.ev_x ev |}.

(** The bot after [handleKline] has consumed the delivered events. *)
Definition consume (cfg : config) (b : TradingBot.bot)
    (evs : list WebSocketManager.klineEvent) : TradingBot.bot :=
  foldl (fun b ev =>
           (TradingBot.handleKline cfg b (reports None) (reports None)
              (toMessage ev)).1) b evs.

(** Three historical rows, closing at 11, 12 and 13, and a bot that
    already holds 49 closing prices. *)
Definition three_klines : list WebSocketManager.kline :=
  [ WebSocketManager.Kline 1 10 12 9 11 5 2;
    WebSocketManager.Kline 2 11 13 10 12 6 3;
    WebSocketManager.Kline 3 12 14 11 13 7 4 ].

Definition warmed_bot : TradingBot.bot :=
  TradingBot.set_ta TradingBot.init (priced_state 49).

(** A configuration with the periods 1 and 2, on which the averages of
    two prices are small fractions. *)
Definition quick_config : config :=
  {| ema5Period := 1; ema50Period := 2;
     maxClosingPrices := 200; maxEma5History := 20;
     minEmaDiff := 1%Q; maxPriceDiff := 1%Q; maxExtremeDiff := 1%Q;
     maxReconnectAttempts := 5%Z; reconnectDelay := 1000%Z;
     pingIntervalMs := 30000%Z; pongTimeoutMs := 5000%Z |}.

(** A bot that holds one closing price, the histories of [arc_state] and
    the previous averages [(2, 3/2)], and remembers no pattern. *)
Definition arc_bot : TradingBot.bot :=
  TradingBot.set_ta TradingBot.init
    {| TechnicalAnalysis.closingPrices := [1%Q];
       TechnicalAnalysis.ema5History :=
         TechnicalAnalysis.ema5History (arc_state (3 # 2));
       TechnicalAnalysis.ema50History :=
         TechnicalAnalysis.ema50History (arc_state (3 # 2));
       TechnicalAnalysis.previousEma5 := Some 2%Q;
       TechnicalAnalysis.previousEma50 := Some (3 # 2)%Q;
       TechnicalAnalysis.volumeHistory := [] |}.

(** An account holding [balance] USDT, all of it available, with the
    positions [held]. *)
Definition usdt_account (balance : Q) (held : list BinanceApi.positionEntry)
    : BinanceApi.accountData :=
  {| BinanceApi.assets := [BinanceApi.Asset "USDT" balance balance 0 balance 0 0];
     BinanceApi.positions := held |}.

(** Exchange rules for BTCUSDT: three decimals of quantity, at least
    0.001. *)
Definition btc_rules : list BinanceApi.symbolInfo :=
  [ BinanceApi.SymbolInfo "BTCUSDT" (Some 3)
      [ BinanceApi.Filter "PRICE_FILTER" 0;
        BinanceApi.Filter "LOT_SIZE" (1 # 1000) ] ].


(** A long of 1.005 BTC entered at 50000, marked at 51000. *)
Definition long_entry : BinanceApi.positionEntry :=
  BinanceApi.PositionEntry "BTCUSDT" (JS.double (1005 # 1000)) 50 50000 51000 1005.

(** An exchange that holds [long_entry] and accepts the closing order;
    [after] answers the account request that follows it. *)
Definition close_ok (after : option BinanceApi.accountData) : Orders.closeReplies :=
  {| Orders.close_account := Some (usdt_account 1000 [long_entry]);
     Orders.close_exchangeInfo := Some btc_rules;
     Orders.close_orderOk := true;
     Orders.close_accountAfter := after |}.

(** * Predicates used in the statements *)




(** The value the recurrence reaches on [prices]: seeded with the simple
    average of the first [period] values and stepped once per later
    value. *)
Definition emaValue (period : nat) (prices : list Q) : Q :=
  foldl (Indicator.ema_step (Indicator.alpha period))
    (Indicator.sma (take period prices)) (drop period prices).







(** The run waits inside the [handleArcPattern] call it made for
    pattern [p], or for that call to return. *)
Definition handling (p : TechnicalAnalysis.pattern) (t : TradingBot.task)
    : Prop :=
  match t with
  | TradingBot.ArcPosition p' _
  | TradingBot.ArcClose p' _ _
  | TradingBot.ArcOpen p'
  | TradingBot.ArcDone p' => p' = p
  | _ => False
  end.

(** The exchange that answers the await a run waits at, when [exS]
    answers those of [checkTradeSignals] and [exA] those of
    [handleArcPattern]. *)
Definition answers (exS exA : TradingBot.exchange) (t : TradingBot.task)
    : TradingBot.exchange :=
  match t with
  | TradingBot.SignalsPosition _ _ _ _ _
  | TradingBot.SignalsClose _ _ _
  | TradingBot.SignalsOpen _ _ _ _
  | TradingBot.SignalsDone _ _ _ => exS
  | _ => exA
  end.

(** A run resumed [fuel] times in a row, nothing else in between. *)
Fixpoint finish (cfg : config) (fuel : nat) (b : TradingBot.bot)
    (t : option TradingBot.task) (exS exA : TradingBot.exchange)
    : TradingBot.bot * list (TradingBot.origin * TradingBot.call) :=
  match fuel, t with
  | S n, Some t' =>
    let '(b1, calls, t1) := TradingBot.resume cfg b t' (answers exS exA t') in
    let '(b2, calls') := finish cfg n b1 t1 exS exA in
    (b2, calls ++ calls')
  | _, _ => (b, [])
  end.

(** The awaits a run still has before it, at most. *)
Definition rank (t : TradingBot.task) : nat :=
  match t with
  | TradingBot.SignalsPosition _ _ _ _ _ => 7
  | TradingBot.SignalsClose _ _ _ => 6
  | TradingBot.SignalsOpen _ _ _ _ => 6
  | TradingBot.SignalsDone _ _ _ => 5
  | TradingBot.ArcPosition _ _ => 4
  | TradingBot.ArcClose _ _ _ => 3
  | TradingBot.ArcOpen _ => 2
  | TradingBot.ArcDone _ => 1
  end.

(** The run of [handleKline] on one message from its first line to its
    return, no other run resumed in between: seven settled promises are
    as many as a run awaits. *)
Definition uninterrupted (cfg : config) (b : TradingBot.bot)
    (exS exA : TradingBot.exchange) (m : TradingBot.message)
    : TradingBot.bot * list (TradingBot.origin * TradingBot.call) :=
  let '(b1, calls, t) := TradingBot.arrive cfg b m in
  let '(b2, calls') := finish cfg 7 b1 t exS exA in
  (b2, calls ++ calls').


(** The previous and the current pair of averages are strictly ordered in
    opposite ways, in the direction of [sig]. *)
Definition crossing (sig : TradingBot.cross) (p5 p50 ema5 ema50 : Q) : Prop :=
  match sig with
  | TradingBot.UP_CROSS => (p5 < p50)%Q /\ (ema50 < ema5)%Q
  | TradingBot.DOWN_CROSS => (p50 < p5)%Q /\ (ema5 < ema50)%Q
  end.

(** [hasBreakout] of [handleArcPattern]: the averages have already flipped
    past the pattern. *)
Definition hasBreakout (p : TechnicalAnalysis.pattern) (ema5 ema50 : Q) : Prop :=
  match p with
  | TechnicalAnalysis.TOP => (ema5 < ema50)%Q
  | TechnicalAnalysis.BOTTOM => (ema50 < ema5)%Q
  end.

(** The timer table once the timer behind handle [h], if any, is cleared. *)
Definition cancel (h : option nat)
    (t : gmap nat WebSocketManager.timer) : gmap nat WebSocketManager.timer :=
  match h with
  | Some id => delete id t
  | None => t
  end.

(** The messages handed to [onMessage] among the effects [tr], in order. *)
Definition deliveries (tr : list WebSocketManager.effect)
    : list WebSocketManager.klineEvent :=
  omap (fun e => match e with
                 | WebSocketManager.OnMessage m => Some m
                 | _ => None
                 end) tr.

(** What one resolved [connect()] does, given the rows [ks] it fetched:
    the fetch of 100 rows, one closed-candle delivery per row but the
    last, then the new socket. *)
Definition connectTrace (ks : list WebSocketManager.kline)
    : list WebSocketManager.effect :=
  WebSocketManager.GetHistoricalKlines 100
  :: map (fun k => WebSocketManager.OnMessage (WebSocketManager.formattedKline k))
       (removelast ks)
  ++ [WebSocketManager.NewWebSocket; WebSocketManager.Log WebSocketManager.info].

(** The ways the manager is driven from outside: its public methods, the
    transport's events, expiring timers, and time passing. *)
Inductive command : Type :=
| DoConnect (reply : option (list WebSocketManager.kline))
| DoEvent (ev : WebSocketManager.event)
| DoFire (id : nat) (reply : option (list WebSocketManager.kline))
| DoSubscribe (channel : string)
| DoUnsubscribe (channel : string)
| DoClose
| DoElapse (ms : Z).

Definition exec (cfg : config) (c : command) : WebSocketManager.M unit :=
  match c with
  | DoConnect reply => WebSocketManager.connect cfg reply
  | DoEvent ev => WebSocketManager.dispatch cfg ev
  | DoFire id reply => WebSocketManager.fire cfg id reply
  | DoSubscribe channel => WebSocketManager.subscribe channel
  | DoUnsubscribe channel => WebSocketManager.unsubscribe channel
  | DoClose => WebSocketManager.close
  | DoElapse ms => WebSocketManager.elapse ms
  end.

(** The managers a session can be in, starting from the constructor. *)
Inductive reachable (cfg : config) : WebSocketManager.manager -> Prop :=
| reachable_init (now : Z) : reachable cfg (WebSocketManager.init now)
| reachable_exec (m : WebSocketManager.manager) (c : command) :
    reachable cfg m ->
    reachable cfg (WebSocketManager.final (exec cfg c m)).

(** While no reconnect is in progress the attempt counter is zero. *)
Definition idleAtZero (m : WebSocketManager.manager) : Prop :=
  WebSocketManager.isReconnecting m = false ->
  WebSocketManager.reconnectAttempts m = 0%Z.

(** No [process.exit] among the effects. *)
Definition noExit (tr : list WebSocketManager.effect) : Prop :=
  forall code, WebSocketManager.ProcessExit code ∉ tr.

(** A computation that keeps [idleAtZero] and does not exit the process. *)
Definition steady {A : Type} (c : WebSocketManager.M A) : Prop :=
  forall m,
    idleAtZero m ->
    idleAtZero (WebSocketManager.final (c m)) /\
    noExit (WebSocketManager.trace (c m)).

(** [addPrice] once per price, in order, without volumes. *)
Definition feed (cfg : config) (s : TechnicalAnalysis.state) (prices : list Q)
    : TechnicalAnalysis.state :=
  foldl (fun s price => TechnicalAnalysis.addPrice cfg s price None) s prices.

(** The states of a [TechnicalAnalysis] object driven through its own
    methods. *)
Inductive ta_reachable (cfg : config) : TechnicalAnalysis.state -> Prop :=
| ta_init : ta_reachable cfg TechnicalAnalysis.init
| ta_addPrice s price volume :
    ta_reachable cfg s ->
    ta_reachable cfg (TechnicalAnalysis.addPrice cfg s price volume)
| ta_updateEmaHistory s ema5 ema50 :
    ta_reachable cfg s ->
    ta_reachable cfg (TechnicalAnalysis.updateEmaHistory cfg s ema5 ema50)
| ta_updateLastEma s ema5 ema50 :
    ta_reachable cfg s ->
    ta_reachable cfg (TechnicalAnalysis.updateLastEma s ema5 ema50)
| ta_reset s :
    ta_reachable cfg s -> ta_reachable cfg (TechnicalAnalysis.reset s).

(** A stream of messages, each with the exchange's answers for the two
    handlers, run through [handleKline]; the final bot and all calls. *)
Definition handleAll (cfg : config) (b : TradingBot.bot)
    (stream : list (TradingBot.exchange * TradingBot.exchange * TradingBot.message))
    : TradingBot.bot * list TradingBot.call :=
  foldl (fun acc item =>
           let '(exS, exA, m) := item in
           let r := TradingBot.handleKline cfg acc.1 exS exA m in
           (r.1, acc.2 ++ r.2))
    (b, []) stream.

(** Commands run one after the other, each on the manager the previous
    one left, also past a command that throws or exits: the final
    manager and all effects of the manager's own code, in order.  The
    program stops where a callback throws (see [session]), so these runs
    contain every session of the program as an initial part, and what
    holds at the end of each of them holds throughout every session. *)
Definition runCommands (cfg : config) (cmds : list command)
    (m : WebSocketManager.manager)
    : WebSocketManager.manager * list WebSocketManager.effect :=
  foldl (fun acc c =>
           let r := exec cfg c acc.1 in
           (WebSocketManager.final r, acc.2 ++ WebSocketManager.trace r))
    (m, []) cmds.

(** The commands the runtime itself calls, a socket event or a timer
    callback: what they throw, nobody catches.  An exception of a public
    method goes to its caller, which is outside the manager. *)
Definition fromRuntime (c : command) : bool :=
  match c with
  | DoEvent _ | DoFire _ _ => true
  | _ => false
  end.

(** The [uncaughtException] handler registered by [logger.js]:
    [logger.error(...)], then [process.exit(1)]. *)
Definition uncaughtException : list WebSocketManager.effect :=
  [WebSocketManager.Log WebSocketManager.error; WebSocketManager.ProcessExit 1].

Definition exits (e : WebSocketManager.effect) : bool :=
  match e with
  | WebSocketManager.ProcessExit _ => true
  | _ => false
  end.

(** A session of the program: the commands run one after the other until
    the process exits, through a [process.exit] of the manager or
    through the [uncaughtException] handler when a socket event handler
    or a timer callback throws.  The result is the manager, all effects
    in order, and whether the process has exited. *)
Fixpoint session (cfg : config) (cmds : list command)
    (m : WebSocketManager.manager)
    : WebSocketManager.manager * list WebSocketManager.effect * bool :=
  match cmds with
  | [] => (m, [], false)
  | c :: rest =>
    let r := exec cfg c m in
    if existsb exits (WebSocketManager.trace r)
    then (WebSocketManager.final r, WebSocketManager.trace r, true)
    else if fromRuntime c && negb (WebSocketManager.returned r)
    then (WebSocketManager.final r,
          WebSocketManager.trace r ++ uncaughtException, true)
    else
      let s := session cfg rest (WebSocketManager.final r) in
      (s.1.1, WebSocketManager.trace r ++ s.1.2, s.2)
  end.

(** A field update that leaves the reconnect flag and counter alone and
    registers no reconnect timer. *)
Definition calm (f : WebSocketManager.manager -> WebSocketManager.manager) : Prop :=
  forall m,
    WebSocketManager.isReconnecting (f m) = WebSocketManager.isReconnecting m /\
    WebSocketManager.reconnectAttempts (f m) = WebSocketManager.reconnectAttempts m /\
    forall id d,
      WebSocketManager.timers (f m) !! id = Some (WebSocketManager.ReconnectTimer d) ->
      WebSocketManager.timers m !! id = Some (WebSocketManager.ReconnectTimer d).

(** A computation that keeps the invariant [I] and performs only effects
    that satisfy [ok]. *)
Definition respects (I : WebSocketManager.manager -> Prop)
    (ok : WebSocketManager.effect -> Prop) {A : Type}
    (c : WebSocketManager.M A) : Prop :=
  forall m,
    I m ->
    I (WebSocketManager.final (c m)) /\
    Forall ok (WebSocketManager.trace (c m)).

(** The attempt counter is in step with the reconnect flag, and every
    registered reconnect timer carries the delay of a first attempt. *)
Definition inStep (cfg : config) (m : WebSocketManager.manager) : Prop :=
  WebSocketManager.reconnectAttempts m =
    (if WebSocketManager.isReconnecting m then 1 else 0)%Z /\
  forall id d,
    WebSocketManager.timers m !! id = Some (WebSocketManager.ReconnectTimer d) ->
    d = WebSocketManager.backoffDelay cfg 1.

(** A reconnect is marked as in progress although no reconnect timer is
    registered. *)
Definition stalled (m : WebSocketManager.manager) : Prop :=
  WebSocketManager.isReconnecting m = true /\
  forall id d,
    WebSocketManager.timers m !! id <> Some (WebSocketManager.ReconnectTimer d).

(** The effects of a connection attempt: the history fetch and the new
    socket. *)
Definition connects (e : WebSocketManager.effect) : Prop :=
  match e with
  | WebSocketManager.GetHistoricalKlines _ | WebSocketManager.NewWebSocket => True
  | _ => False
  end.

(** Every command but an explicit [connect()] and the socket's open
    event. *)
Definition passive (c : command) : Prop :=
  match c with
  | DoConnect _ | DoEvent WebSocketManager.on_open => False
  | _ => True
  end.

(** Keep-alive traffic and waiting: the socket's [ping] and [pong]
    events, the text message "ping", and time passing. *)
Definition keepAlive (c : command) : Prop :=
  match c with
  | DoEvent WebSocketManager.on_ping
  | DoEvent WebSocketManager.on_pong
  | DoEvent (WebSocketManager.on_message WebSocketManager.PingText)
  | DoElapse _ => True
  | _ => False
  end.

(** * Properties *)

(** ** Numbers *)

Lemma Qltb_lt (a b : Q) : Qltb a b = true <-> (a < b)%Q.
Proof.
  unfold Qltb. rewrite negb_true_iff, <- not_true_iff_false, Qle_bool_iff.
  split; [apply Qnot_le_lt | apply Qlt_not_le].
Qed.


Lemma Qgtb_gt (a b : Q) : Qgtb a b = true <-> (b < a)%Q.
Proof. apply Qltb_lt. Qed.


(** ** TechnicalAnalysis *)
Section TechnicalAnalysisFacts.
Import TechnicalAnalysis.
Variable cfg : config.

Lemma push_twice_shift_length (cap : nat) (l : list Q) (x : Q) :
  length (push_twice_shift cap l x) =
  length l + (if cap <? length l + 2 then 1 else 2).
Proof.
  unfold push_twice_shift, push, shift.
  replace (length ((l ++ [x]) ++ [x])) with (length l + 2)
    by (rewrite !length_app; simpl; lia).
  destruct (cap <? length l + 2).
  - destruct l as [|y l]; simpl; [reflexivity|].
    rewrite !length_app. simpl. lia.
  - rewrite !length_app. simpl. lia.
Qed.

Lemma push_twice_shift_grows (cap : nat) (l : list Q) (x : Q) :
  length l < length (push_twice_shift cap l x).
Proof.
  rewrite push_twice_shift_length. destruct (cap <? length l + 2); lia.
Qed.

End TechnicalAnalysisFacts.

Lemma updates_length_ge (cfg : config) (n : nat) :
  n <= length (TechnicalAnalysis.ema5History (updates cfg n)).
Proof.
  induction n as [|n IH]; [simpl; lia|].
  unfold updates in *. rewrite Nat.iter_succ. simpl TechnicalAnalysis.ema5History.
  pose proof (push_twice_shift_grows (maxEma5History cfg)
                (TechnicalAnalysis.ema5History
                   (Nat.iter n
                      (fun s => TechnicalAnalysis.updateEmaHistory cfg s 1%Q 1%Q)
                      TechnicalAnalysis.init)) 1%Q).
  lia.
Qed.

(** C2 (the code departs from the claim): [updateEmaHistory] pushes each
    value twice and shifts at most once, so each history grows by two
    entries while it fits the configured maximum and by one entry on every
    later update; whatever the maximum, one update more than the maximum
    overflows it.  With a maximum of 20, the first update on a fresh
    analysis leaves 2 entries rather than 1, and after 11 updates both
    histories hold 21 entries. *)
Theorem C2_updateEmaHistory_growth :
  (forall cfg s ema5 ema50,
     let s' := TechnicalAnalysis.updateEmaHistory cfg s ema5 ema50 in
     let grow (n : nat) := if maxEma5History cfg <? n + 2 then 1 else 2 in
     length (TechnicalAnalysis.ema5History s') =
       length (TechnicalAnalysis.ema5History s)
       + grow (length (TechnicalAnalysis.ema5History s)) /\
     length (TechnicalAnalysis.ema50History s') =
       length (TechnicalAnalysis.ema50History s)
       + grow (length (TechnicalAnalysis.ema50History s))) /\
  (forall cfg,
     maxEma5History cfg <
     length (TechnicalAnalysis.ema5History
               (updates cfg (S (maxEma5History cfg))))) /\
  maxEma5History default_config = 20 /\
  length (TechnicalAnalysis.ema5History (updates default_config 1)) = 2 /\
  length (TechnicalAnalysis.ema5History (updates default_config 11)) = 21 /\
  length (TechnicalAnalysis.ema50History (updates default_config 11)) = 21.
Proof.
  split; [|split].
  - intros cfg s ema5 ema50. simpl. split; apply push_twice_shift_length.
  - intros cfg. apply updates_length_ge.
  - repeat split; vm_compute; reflexivity.
Qed.

(** ** Arc patterns *)
Section ArcPattern.
Import TechnicalAnalysis.









End ArcPattern.

(** ** Moving averages *)
Section MovingAverages.
Import TechnicalAnalysis.

Lemma last_ema_run (k seed : Q) (rest : list Q) :
  last (seed :: Indicator.ema_run k seed rest) =
  Some (foldl (Indicator.ema_step k) seed rest).
Proof.
  revert seed. induction rest as [|p rest IH]; intros seed.
  - reflexivity.
  - simpl Indicator.ema_run. rewrite last_cons, IH. reflexivity.
Qed.

Lemma EMA_calculate_short (period : nat) (values : list Q) :
  length values < period -> Indicator.EMA_calculate period values = [].
Proof.
  intros H. unfold Indicator.EMA_calculate.
  apply Nat.ltb_lt in H. rewrite H. reflexivity.
Qed.

Lemma EMA_calculate_last (period : nat) (values : list Q) :
  period <= length values ->
  last_elem (Indicator.EMA_calculate period values) =
  Some (emaValue period values).
Proof.
  intros H. unfold Indicator.EMA_calculate, last_elem.
  apply Nat.ltb_ge in H. rewrite H. cbv zeta. apply last_ema_run.
Qed.

(** [emaValue] is the recurrence: the simple average on exactly [period]
    values, and one [ema_step] per value after that. *)
Lemma emaValue_seed (period : nat) (prices : list Q) :
  length prices = period -> emaValue period prices = Indicator.sma prices.
Proof.
  intros H. unfold emaValue.
  rewrite take_ge, drop_ge by lia. reflexivity.
Qed.

Lemma emaValue_step (period : nat) (prices : list Q) (x : Q) :
  period <= length prices ->
  emaValue period (prices ++ [x]) =
  Indicator.ema_step (Indicator.alpha period) (emaValue period prices) x.
Proof.
  intros H. unfold emaValue.
  rewrite take_app_le, drop_app_le by lia.
  rewrite foldl_app. reflexivity.
Qed.

(** C8, as amended: [calculateEMAs] gates BOTH averages on the EMA50
    period.  Counting the closing prices held plus the current price,
    both averages are null while fewer than [ema50Period] values exist
    (EMA5 included, even with [ema5Period] or more values), and from
    [ema50Period] values on both are defined and follow the recurrence
    seeded by the simple average of the first [period] values. *)
Theorem C8_calculateEMAs_defined (cfg : config) (s : state) (currentPrice : Q) :
  ema5Period cfg <= ema50Period cfg ->
  let prices := closingPrices s ++ [currentPrice] in
  (length prices < ema50Period cfg ->
     calculateEMAs cfg s currentPrice = (None, None)) /\
  (ema50Period cfg <= length prices ->
     calculateEMAs cfg s currentPrice =
     (Some (emaValue (ema5Period cfg) prices),
      Some (emaValue (ema50Period cfg) prices))).
Proof.
  intros Hp prices. unfold calculateEMAs. fold prices. split; intros H.
  - apply Nat.ltb_lt in H. rewrite H. reflexivity.
  - assert (H' := H). apply Nat.ltb_ge in H'. rewrite H'. cbv zeta.
    rewrite !EMA_calculate_last by lia. reflexivity.
Qed.

(** The amended statement on 49 and on 50 values with periods 5 and 50:
    EMA50 (and EMA5) null on 49, both defined on the 50th. *)
Lemma C8_calculateEMAs_defined_witness :
  calculateEMAs default_config (priced_state 48) 1 = (None, None) /\
  calculateEMAs default_config (priced_state 49) 1 =
    (Some (emaValue 5 (closingPrices (priced_state 49) ++ [1%Q])),
     Some (emaValue 50 (closingPrices (priced_state 49) ++ [1%Q]))).
Proof.
  split.
  - apply (C8_calculateEMAs_defined default_config (priced_state 48) 1);
      simpl; rewrite ?length_app, ?length_replicate; simpl; lia.
  - apply (C8_calculateEMAs_defined default_config (priced_state 49) 1);
      simpl; rewrite ?length_app, ?length_replicate; simpl; lia.
Defined.

(** C8, as stated, fails for period 5: with 9 closing prices and the
    current price there are 10 values, at least 5, and EMA5 is null. *)
Lemma C8_counterexample :
  ~ (is_Some (fst (calculateEMAs default_config (priced_state 9) 1)) <->
     ema5Period default_config
       <= length (closingPrices (priced_state 9) ++ [1%Q])).
Proof.
  intros [_ H].
  assert (E : fst (calculateEMAs default_config (priced_state 9) 1) = None)
    by (vm_compute; reflexivity).
  rewrite E in H. destruct H as [x Hx]; [|discriminate Hx].
  vm_compute. lia.
Qed.

End MovingAverages.

(** ** Crossover signals *)
Section Crossover.
Import TechnicalAnalysis TradingBot.

Lemma crossedDown_iff (p5 p50 ema5 ema50 : Q) :
  crossedDown p5 p50 ema5 ema50 = true <-> crossing DOWN_CROSS p5 p50 ema5 ema50.
Proof.
  unfold crossedDown. rewrite andb_true_iff, Qgtb_gt, Qltb_lt. reflexivity.
Qed.

Lemma crossedUp_iff (p5 p50 ema5 ema50 : Q) :
  crossedUp p5 p50 ema5 ema50 = true <-> crossing UP_CROSS p5 p50 ema5 ema50.
Proof.
  unfold crossedUp. rewrite andb_true_iff, Qgtb_gt, Qltb_lt. reflexivity.
Qed.



(** Once both stored previous averages are truthy, a tick never replaces
    them: they stay those of the last closed candle. *)
Lemma checkTradeSignals_keeps_previous (b : bot) (ex : exchange)
    (ema5 ema50 currentPrice : Q) :
  truthy (previousEma5 (technicalAnalysis b)) = true ->
  truthy (previousEma50 (technicalAnalysis b)) = true ->
  technicalAnalysis (checkTradeSignals b ex ema5 ema50 currentPrice).1 =
  technicalAnalysis b.
Proof.
  intros T5 T50. unfold checkTradeSignals. rewrite T5, T50. simpl.
  generalize (Qgtb currentPrice ema5 && Qgtb currentPrice ema50).
  generalize (Qltb currentPrice ema5 && Qltb currentPrice ema50).
  generalize (crossedDown (num (previousEma5 (technicalAnalysis b)))
                (num (previousEma50 (technicalAnalysis b))) ema5 ema50).
  generalize (crossedUp (num (previousEma5 (technicalAnalysis b)))
                (num (previousEma50 (technicalAnalysis b))) ema5 ema50).
  intros cu cd pb pa.
  destruct (positionReply ex) as [[[|]|]|], (lastCrossSignal b) as [[|]|] eqn:L,
    (closeResolves ex), (openResolves ex), cu, cd, pb, pa;
    simpl; rewrite ?L; reflexivity.
Qed.













End Crossover.
(** ** Arc signals after a breakout *)
Section ArcStaleness.
Import TechnicalAnalysis TradingBot.

#[local] Instance before_total (p : pattern) : Total (before p).
Proof.
  intros a b. destruct p; unfold before, Qle; lia.
Qed.





(** On the path through [handleKline] the guard is never entered: a
    pattern returned by [checkArcPattern] for the current averages has
    them on the side opposite to a breakout. *)
Lemma checkArcPattern_excludes_breakout (cfg : config) (s : state)
    (ema5 ema50 : Q) (p : pattern) :
  checkArcPattern cfg s ema5 ema50 = Some p -> ~ hasBreakout p ema5 ema50.
Proof.
  unfold checkArcPattern.
  destruct ((length (ema5History s) <? 5) || (length (ema50History s) <? 5));
    [discriminate|].
  cbv zeta.
  match goal with |- context [if ?b then _ else _] => destruct b eqn:T end.
  - apply andb_true_iff in T. destruct T as [_ T]. apply Qgtb_gt in T.
    destruct (Qltb _ (minEmaDiff cfg)); [discriminate|].
    intros [= <-]. simpl. apply Qlt_not_le in T. intros H. apply T.
    apply Qlt_le_weak. exact H.
  - match goal with |- context [if ?b then _ else _] => destruct b eqn:B end;
      [|discriminate].
    apply andb_true_iff in B. destruct B as [_ B]. apply Qltb_lt in B.
    destruct (Qltb _ (minEmaDiff cfg)); [discriminate|].
    intros [= <-]. simpl. apply Qlt_not_le in B. intros H. apply B.
    apply Qlt_le_weak. exact H.
Qed.

Lemma hasBreakout_test_false (p : pattern) (ema5 ema50 : Q) :
  ~ hasBreakout p ema5 ema50 ->
  match p with TOP => Qltb ema5 ema50 | BOTTOM => Qgtb ema5 ema50 end = false.
Proof.
  intros N. destruct p; simpl in *.
  - destruct (Qltb ema5 ema50) eqn:E; [|reflexivity].
    apply Qltb_lt in E. contradiction.
  - destruct (Qgtb ema5 ema50) eqn:E; [|reflexivity].
    apply Qgtb_gt in E. contradiction.
Qed.







End ArcStaleness.
(** ** Connection manager *)
Section Connection.
Import WebSocketManager.

Lemma forEach_emit {A : Type} (f : A -> effect) (l : list A) (m : manager) :
  forEach l (fun x => emit (f x)) m = Returns tt m (map f l).
Proof.
  induction l as [|x l IH]; [reflexivity|].
  simpl forEach. unfold bind at 1. simpl. rewrite IH. reflexivity.
Qed.

Lemma cleanup_returns (m : manager) :
  cleanup m =
  Returns tt
    (set_pongTimeout None
       (set_pingInterval None
          (set_timers (cancel (pongTimeout m) (cancel (pingInterval m) (timers m))) m)))
    [].
Proof.
  destruct m as [w [pi|] [po|] ra ir lmt subs tm nt ck]; reflexivity.
Qed.

Lemma backoffDelay_capped (cfg : config) (k : Z) :
  (backoffDelay cfg k <= 30000)%Z.
Proof. unfold backoffDelay. lia. Qed.

Lemma backoffDelay_mono (cfg : config) (k : Z) :
  (0 <= reconnectDelay cfg)%Z -> (1 <= k)%Z ->
  (backoffDelay cfg k <= backoffDelay cfg (k + 1))%Z.
Proof.
  intros Hd Hk. unfold backoffDelay.
  replace (k + 1 - 1)%Z with (Z.succ (k - 1)) by lia.
  rewrite Z.pow_succ_r by lia.
  assert (0 < 2 ^ (k - 1))%Z by (apply Z.pow_pos_nonneg; lia).
  nia.
Qed.

Lemma handleReconnect_retry (cfg : config) (m : manager) :
  isReconnecting m = false ->
  (reconnectAttempts m < maxReconnectAttempts cfg)%Z ->
  handleReconnect cfg m =
  Returns tt
    (set_nextTimer (S (nextTimer m))
       (set_timers
          (<[nextTimer m :=
               ReconnectTimer (backoffDelay cfg (reconnectAttempts m + 1))]>
             (timers m))
          (set_reconnectAttempts (reconnectAttempts m + 1)
             (set_isReconnecting true m))))
    [Log info].
Proof.
  intros Hr Ha. unfold handleReconnect, bind at 1. simpl. rewrite Hr.
  unfold bind at 1. simpl.
  apply Z.ltb_lt in Ha. rewrite Ha. reflexivity.
Qed.

(** C4, as amended: when [handleReconnect] runs with no reconnect in
    progress and the attempt counter has reached [maxReconnectAttempts],
    it registers no timer and changes no field, so no further retry is
    scheduled; it logs an error and then terminates the process itself
    with exit code 1. *)
Theorem C4_handleReconnect_exhausted (cfg : config) (m : manager) :
  isReconnecting m = false ->
  (maxReconnectAttempts cfg <= reconnectAttempts m)%Z ->
  handleReconnect cfg m = Returns tt m [Log error; ProcessExit 1].
Proof.
  intros Hr Ha. unfold handleReconnect, bind at 1. simpl. rewrite Hr.
  unfold bind at 1. simpl.
  apply Z.ltb_ge in Ha. rewrite Ha.
  destruct m; simpl in *; subst; reflexivity.
Qed.

(** The amended statement on [exhausted], with a maximum of 5. *)
Lemma C4_handleReconnect_exhausted_witness :
  handleReconnect default_config exhausted =
  Returns tt exhausted [Log error; ProcessExit 1].
Proof.
  apply (C4_handleReconnect_exhausted default_config exhausted).
  - reflexivity.
  - simpl. lia.
Defined.

(** C4, as stated, fails on [exhausted]: with 6 attempts counted against
    a maximum of 5, the manager exits the process.  It fails as well on a
    fresh manager that allows no reconnect attempt: the first [connect()]
    whose fetch rejects exits the process. *)
Lemma C4_counterexample :
  (maxReconnectAttempts default_config < reconnectAttempts exhausted)%Z /\
  ProcessExit 1 ∈ trace (handleReconnect default_config exhausted) /\
  trace (connect no_retry_config None (init 0)) =
    [GetHistoricalKlines 100; Log error; Log error; ProcessExit 1].
Proof.
  split; [reflexivity|]. split; [vm_compute; set_solver | reflexivity].
Qed.

(** C7: the delay of attempt [k >= 1] is
    [min (reconnectDelay * 2^(k-1)) 30000], never above the cap of 30000
    and, for a non-negative base delay, never below the delay of the
    attempt before; [handleReconnect] arms its timer with the delay of
    the attempt it has just counted; and [handleOpen] sets the attempt
    counter to 0. *)
Theorem C7_backoff (cfg : config) :
  (0 <= reconnectDelay cfg)%Z ->
  (forall k, (1 <= k)%Z ->
     backoffDelay cfg k = Z.min (reconnectDelay cfg * 2 ^ (k - 1)) 30000 /\
     (backoffDelay cfg k <= 30000)%Z /\
     (backoffDelay cfg k <= backoffDelay cfg (k + 1))%Z) /\
  (forall m,
     isReconnecting m = false ->
     (0 <= reconnectAttempts m < maxReconnectAttempts cfg)%Z ->
     let r := handleReconnect cfg m in
     reconnectAttempts (final r) = (reconnectAttempts m + 1)%Z /\
     timers (final r) =
       <[nextTimer m :=
           ReconnectTimer (backoffDelay cfg (reconnectAttempts m + 1))]>
         (timers m)) /\
  (forall m, reconnectAttempts (final (handleOpen m)) = 0%Z /\
             reconnectAttempts (final (dispatch cfg on_open m)) = 0%Z).
Proof.
  intros Hd. split; [|split].
  - intros k Hk. split; [reflexivity|].
    split; [apply backoffDelay_capped | apply backoffDelay_mono; assumption].
  - intros m Hr [_ Ha] r. subst r.
    rewrite handleReconnect_retry by assumption. split; reflexivity.
  - intros [[rs|] pi po ra ir lmt [|c subs] tm nt ck]; split; reflexivity.
Qed.

(** The statement with the base delay of 1000 ms. *)
Lemma C7_backoff_witness :
  (forall k, (1 <= k)%Z ->
     backoffDelay default_config k =
       Z.min (reconnectDelay default_config * 2 ^ (k - 1)) 30000 /\
     (backoffDelay default_config k <= 30000)%Z /\
     (backoffDelay default_config k <= backoffDelay default_config (k + 1))%Z) /\
  (forall m,
     isReconnecting m = false ->
     (0 <= reconnectAttempts m < maxReconnectAttempts default_config)%Z ->
     let r := handleReconnect default_config m in
     reconnectAttempts (final r) = (reconnectAttempts m + 1)%Z /\
     timers (final r) =
       <[nextTimer m :=
           ReconnectTimer (backoffDelay default_config (reconnectAttempts m + 1))]>
         (timers m)) /\
  (forall m, reconnectAttempts (final (handleOpen m)) = 0%Z /\
             reconnectAttempts (final (dispatch default_config on_open m)) = 0%Z).
Proof.
  apply (C7_backoff default_config). simpl. lia.
Defined.

(** Unfolds the methods of the manager on a manager given field by
    field. *)
Ltac mstep :=
  cbv beta iota zeta delta
    [bind ret get modify emit throw try_catch the_ws Date_now setTimer
     clearTimer ws_close ws_terminate ws_send cleanup handlePong handlePing
     resubscribe handleOpen handleMessage setupHeartbeat
     setupConnectionMonitor handleReconnect handleClose handleError connect
     subscribe unsubscribe close pingCallback pongTimeoutCallback
     monitorCallback fire dispatch transport elapse];
  cbn.

Lemma forEach_emit_unfolded {A : Type} (f : A -> effect) (l : list A) (m : manager) :
  forEach l (fun x m => Returns tt m [f x]) m = Returns tt m (map f l).
Proof. exact (forEach_emit f l m). Qed.

Lemma connect_resolved (cfg : config) (ks : list kline) (m : manager) :
  connect cfg (Some ks) m =
  Returns tt
    (set_nextTimer (S (S (nextTimer m)))
       (set_timers
          (<[S (nextTimer m) := MonitorTimer 30000]>
             (<[nextTimer m := PingTimer (pingIntervalMs cfg)]>
                (cancel (pongTimeout m) (cancel (pingInterval m) (timers m)))))
          (set_pingInterval (Some (nextTimer m))
             (set_pongTimeout None (set_ws (Some CONNECTING) m)))))
    (connectTrace ks).
Proof.
  destruct m as [w [pi|] [po|] ra ir lmt subs tm nt ck];
    mstep; rewrite forEach_emit_unfolded; reflexivity.
Qed.

Lemma Set_add_elem (x : string) (l : list string) : x ∈ Set_add x l.
Proof.
  unfold Set_add. case_bool_decide; [assumption|].
  apply elem_of_app. right. apply list_elem_of_singleton. reflexivity.
Qed.

(** C6, as amended: [subscribe] on an open socket sends the SUBSCRIBE
    frame at once and adds the channel to the set; on a socket that is
    not open it sends nothing and does NOT retain the channel; and the
    open event replays the whole retained set, when it is not empty, as
    one batched SUBSCRIBE frame, leaving the set as it was. *)
Theorem C6_subscribe_and_replay :
  (forall m channel,
     ws m = Some OPEN ->
     subscribe channel m =
       Returns tt
         (set_subscriptions (Set_add channel (subscriptions m)) m)
         [WsSend (SUBSCRIBE [channel] (clock m)); Log info] /\
     channel ∈ Set_add channel (subscriptions m)) /\
  (forall m channel rs,
     ws m = Some rs -> rs <> OPEN ->
     subscribe channel m = Returns tt m []) /\
  (forall cfg m rs,
     ws m = Some rs -> subscriptions m <> [] ->
     let r := dispatch cfg on_open m in
     trace r =
       [Log info; WsSend (SUBSCRIBE (subscriptions m) (clock m)); Log info] /\
     subscriptions (final r) = subscriptions m /\
     ws (final r) = Some OPEN).
Proof.
  split; [|split].
  - intros [w pi po ra ir lmt subs tm nt ck] channel H. simpl in H. subst w.
    split; [reflexivity | apply Set_add_elem].
  - intros [w pi po ra ir lmt subs tm nt ck] channel rs H N. simpl in H.
    subst w. destruct rs; try reflexivity. contradiction.
  - intros cfg [w pi po ra ir lmt subs tm nt ck] rs H N. simpl in H, N.
    subst w. destruct subs as [|c subs]; [contradiction|].
    repeat split.
Qed.

(** The amended statement on an open socket, on a connecting socket, and
    on the open event with two channels retained. *)
Lemma C6_subscribe_and_replay_witness :
  subscribe "a" (with_socket OPEN []) =
    Returns tt (with_socket OPEN ["a"%string])
      [WsSend (SUBSCRIBE ["a"%string] 0); Log info] /\
  subscribe "a" (with_socket CONNECTING []) =
    Returns tt (with_socket CONNECTING []) [] /\
  trace (dispatch default_config on_open
           (with_socket CONNECTING ["a"; "b"]%string)) =
    [Log info; WsSend (SUBSCRIBE ["a"; "b"]%string 0); Log info].
Proof.
  destruct C6_subscribe_and_replay as (A & B & C).
  split; [|split].
  - apply (A (with_socket OPEN []) "a"%string). reflexivity.
  - apply (B (with_socket CONNECTING []) "a"%string CONNECTING);
      [reflexivity | discriminate].
  - apply (C default_config (with_socket CONNECTING ["a"; "b"]%string)
             CONNECTING); [reflexivity | discriminate].
Defined.

(** C6, as stated, fails between [connect()] and the open event, while
    the socket is still connecting: [subscribe] leaves the set empty, and
    the open event that follows replays nothing. *)
Lemma C6_counterexample :
  let r := (connect default_config (Some []) >> subscribe "a" >>
            dispatch default_config on_open) (init 0) in
  returned r = true /\
  ~ ("a"%string ∈ subscriptions (final r)) /\
  trace r = [GetHistoricalKlines 100; NewWebSocket; Log info; Log info].
Proof.
  split; [reflexivity|]. split; [|reflexivity].
  vm_compute. intros H. inversion H.
Qed.

Lemma deliveries_app (t1 t2 : list effect) :
  deliveries (t1 ++ t2) = deliveries t1 ++ deliveries t2.
Proof. unfold deliveries. apply omap_app. Qed.

Lemma deliveries_OnMessage (ks : list kline) :
  deliveries (map (fun k => OnMessage (formattedKline k)) ks) =
  map formattedKline ks.
Proof.
  induction ks as [|k ks IH]; [reflexivity|].
  simpl. unfold deliveries in *. simpl. rewrite IH. reflexivity.
Qed.

Lemma deliveries_connectTrace (ks : list kline) :
  deliveries (connectTrace ks) = map formattedKline (removelast ks).
Proof.
  unfold connectTrace.
  change (deliveries (GetHistoricalKlines 100 :: ?t)) with (deliveries t).
  rewrite deliveries_app, deliveries_OnMessage. simpl. apply app_nil_r.
Qed.


Lemma bind_Returns {A B : Type} (c : M A) (k : A -> M B)
    (m m1 : manager) (a : A) (t1 : list effect) :
  c m = Returns a m1 t1 ->
  bind c k m =
  match k a m1 with
  | Returns b m2 t2 => Returns b m2 (t1 ++ t2)
  | Throws m2 t2 => Throws m2 (t1 ++ t2)
  end.
Proof. intros H. unfold bind. rewrite H. reflexivity. Qed.

Lemma close_returns (m : manager) (rs : readyState) :
  ws m = Some rs ->
  close m =
  Returns tt
    (set_ws None
       (set_pongTimeout None
          (set_pingInterval None
             (set_timers
                (cancel (pongTimeout m) (cancel (pingInterval m) (timers m)))
                m))))
    [WsClose; Log info].
Proof.
  destruct m as [w [pi|] [po|] ra ir lmt subs tm nt ck]; simpl;
    intros ->; reflexivity.
Qed.

Lemma monitor_throws_on_null (cfg : config) (m : manager) (id : nat)
    (every ms : Z) (reply : option (list kline)) :
  ws m = None ->
  timers m !! id = Some (MonitorTimer every) ->
  (120000 < clock m + ms - lastMessageTime m)%Z ->
  returned ((elapse ms >> fire cfg id reply) m) = false.
Proof.
  intros Hw Ht Hc. apply Z.ltb_lt in Hc.
  destruct m as [w pi po ra ir lmt subs tm nt ck]. simpl in Hw, Ht, Hc.
  subst w. mstep. rewrite Ht. mstep. rewrite Hc. reflexivity.
Qed.

Lemma closed_run_returns (cfg : config) (ks : list kline) (m : manager) :
  exists m2,
    closed_run cfg ks m = Returns tt m2 (connectTrace ks ++ [WsClose; Log info]) /\
    ws m2 = None /\ pingInterval m2 = None /\ pongTimeout m2 = None /\
    clock m2 = clock m /\ lastMessageTime m2 = lastMessageTime m /\
    timers m2 !! S (nextTimer m) = Some (MonitorTimer 30000) /\
    isReconnecting m2 = isReconnecting m /\
    reconnectAttempts m2 = reconnectAttempts m /\
    nextTimer m2 = S (S (nextTimer m)).
Proof.
  unfold closed_run.
  rewrite (bind_Returns _ _ _ _ _ _ (connect_resolved cfg ks m)).
  erewrite close_returns by (destruct m; reflexivity).
  eexists. split; [reflexivity|].
  destruct m as [w pi po ra ir lmt subs tm nt ck]; simpl.
  repeat split. rewrite lookup_delete_ne by lia. apply lookup_insert_eq.
Qed.


(** C5 (the code departs from the claim): after [connect()] and
    [close()], whatever the manager held before, the ping and pong
    handles are cleared and the socket is dropped, but the interval
    armed by [setupConnectionMonitor] is still registered; once more
    than 120000 ms have passed since the last message its callback runs
    and throws on the null socket. *)
Theorem C5_close_leaves_monitor (cfg : config) (ks : list kline) (m : manager) :
  let r := closed_run cfg ks m in
  returned r = true /\
  ws (final r) = None /\
  pingInterval (final r) = None /\
  pongTimeout (final r) = None /\
  timers (final r) !! S (nextTimer m) = Some (MonitorTimer 30000) /\
  (forall ms reply,
     (120000 < clock m + ms - lastMessageTime m)%Z ->
     returned ((elapse ms >> fire cfg (S (nextTimer m)) reply) (final r))
     = false).
Proof.
  destruct (closed_run_returns cfg ks m)
    as (m2 & E & W & P & Q & C & T & L & _).
  intros r. subst r. rewrite E. simpl.
  repeat (split; [assumption || reflexivity|]).
  intros ms reply H.
  apply (monitor_throws_on_null cfg m2 _ 30000 ms reply W L).
  rewrite C, T. exact H.
Qed.


Lemma dispatch_open_returns (cfg : config) (m : manager) (rs : readyState) :
  ws m = Some rs ->
  exists tr,
    dispatch cfg on_open m =
      Returns tt
        (set_lastMessageTime (clock m)
           (set_isReconnecting false
              (set_reconnectAttempts 0 (set_ws (Some OPEN) m))))
        tr /\
    deliveries tr = [].
Proof.
  destruct m as [w pi po ra ir lmt [|c subs] tm nt ck]; simpl;
    intros ->; eexists; split; reflexivity.
Qed.

Lemma dispatch_close_returns (cfg : config) (m : manager) :
  isReconnecting m = false ->
  (reconnectAttempts m < maxReconnectAttempts cfg)%Z ->
  exists m3,
    dispatch cfg on_close m = Returns tt m3 [Log warn; Log info] /\
    timers m3 =
      <[nextTimer m :=
          ReconnectTimer (backoffDelay cfg (reconnectAttempts m + 1))]>
        (cancel (pongTimeout m) (cancel (pingInterval m) (timers m))).
Proof.
  intros Hr Ha. apply Z.ltb_lt in Ha.
  destruct m as [[rs|] [pi|] [po|] ra ir lmt subs tm nt ck];
    simpl in Hr, Ha; subst ir; mstep; rewrite Ha; eexists;
    split; reflexivity.
Qed.

Lemma fire_reconnect (cfg : config) (ks : list kline) (m : manager)
    (id : nat) (d : Z) :
  timers m !! id = Some (ReconnectTimer d) ->
  trace (fire cfg id (Some ks) m) = connectTrace ks.
Proof.
  intros H. unfold fire, bind at 1. simpl. rewrite H.
  unfold bind at 1. simpl. rewrite connect_resolved. reflexivity.
Qed.

(** [close()] removes no handler: when the transport then emits its close
    event, [handleClose] arms a reconnect, whose expiry runs [connect()]
    again. *)
Lemma close_event_after_close (cfg : config) (ks : list kline) (m : manager) :
  isReconnecting m = false ->
  (reconnectAttempts m < maxReconnectAttempts cfg)%Z ->
  exists m3,
    (closed_run cfg ks >> dispatch cfg on_close) m =
      Returns tt m3
        ((connectTrace ks ++ [WsClose; Log info]) ++ [Log warn; Log info]) /\
    timers m3 !! S (S (nextTimer m)) =
      Some (ReconnectTimer (backoffDelay cfg (reconnectAttempts m + 1))).
Proof.
  intros Hr Ha.
  destruct (closed_run_returns cfg ks m)
    as (m2 & E & _ & _ & _ & _ & _ & _ & R2 & A2 & N2).
  rewrite (bind_Returns _ _ _ _ _ _ E).
  destruct (dispatch_close_returns cfg m2) as (m3 & E3 & T3);
    [congruence | rewrite A2; exact Ha |].
  rewrite E3. exists m3. split; [reflexivity|].
  rewrite T3, N2, A2. apply lookup_insert_eq.
Qed.

Lemma drop_run_returns (cfg : config) (ks : list kline) (m : manager) :
  (0 < maxReconnectAttempts cfg)%Z ->
  exists m3 tr,
    drop_run cfg ks m = Returns tt m3 tr /\
    deliveries tr = map formattedKline (removelast ks) /\
    timers m3 !! S (S (nextTimer m)) =
      Some (ReconnectTimer (backoffDelay cfg 1)).
Proof.
  intros Hmax. unfold drop_run.
  rewrite (bind_Returns _ _ _ _ _ _ (connect_resolved cfg ks m)).
  match goal with |- context [bind _ _ ?m1] => set (s1 := m1) end.
  destruct (dispatch_open_returns cfg s1 CONNECTING) as (tr2 & E2 & D2);
    [destruct m; reflexivity|].
  rewrite (bind_Returns _ _ _ _ _ _ E2).
  match goal with |- context [dispatch cfg on_close ?m2] => set (s2 := m2) end.
  destruct (dispatch_close_returns cfg s2) as (m3 & E3 & T3);
    [destruct m; reflexivity | destruct m; simpl; exact Hmax |].
  rewrite E3. eexists; eexists. split; [reflexivity|]. split.
  - rewrite !deliveries_app, deliveries_connectTrace, D2. simpl.
    rewrite !app_nil_r. reflexivity.
  - rewrite T3. subst s2 s1. destruct m; simpl. apply lookup_insert_eq.
Qed.

(** C10: every resolved [connect()], whatever the manager's state, first
    fetches 100 rows and hands every row but the last to [onMessage], in
    the order of the rows, and only then creates the socket.  Each event
    handed over is a closed candle ([e] is "kline", [x] is true) that carries
    its row's open time, close time, open, high, low, close and volume.
    The [connect()] resumed by an expired reconnect delay does the same;
    so a session that connects, opens, drops and reconnects delivers the
    closed rows of the first fetch followed by those of the second. *)
Theorem C10_connect_redelivers_history (cfg : config)
    (ks1 ks2 : list kline) (m : manager) :
  (0 < maxReconnectAttempts cfg)%Z ->
  trace (connect cfg (Some ks1) m) =
    GetHistoricalKlines 100
    :: map (fun k => OnMessage (formattedKline k)) (removelast ks1)
    ++ [NewWebSocket; Log info] /\
  (forall k,
     ev_e (formattedKline k) = "kline"%string /\
     ev_x (formattedKline k) = true /\
     ev_t (formattedKline k) = kline_0 k /\
     ev_T (formattedKline k) = kline_6 k /\
     ev_o (formattedKline k) = kline_1 k /\
     ev_h (formattedKline k) = kline_2 k /\
     ev_l (formattedKline k) = kline_3 k /\
     ev_c (formattedKline k) = kline_4 k /\
     ev_v (formattedKline k) = kline_5 k) /\
  (forall id d m',
     timers m' !! id = Some (ReconnectTimer d) ->
     trace (fire cfg id (Some ks2) m') =
       GetHistoricalKlines 100
       :: map (fun k => OnMessage (formattedKline k)) (removelast ks2)
       ++ [NewWebSocket; Log info]) /\
  timers (final (drop_run cfg ks1 m)) !! S (S (nextTimer m)) =
    Some (ReconnectTimer (backoffDelay cfg 1)) /\
  deliveries (trace (reconnect_run cfg ks1 ks2 m)) =
    map formattedKline (removelast ks1) ++ map formattedKline (removelast ks2).
Proof.
  intros Hmax.
  split; [rewrite connect_resolved; reflexivity|].
  split; [intros k; repeat split; reflexivity|].
  split; [intros id d m' H; exact (fire_reconnect cfg ks2 m' id d H)|].
  destruct (drop_run_returns cfg ks1 m Hmax) as (m3 & tr & E & D & T).
  split; [rewrite E; exact T|].
  unfold reconnect_run. rewrite (bind_Returns _ _ _ _ _ _ E).
  pose proof (fire_reconnect cfg ks2 m3 _ _ T) as F.
  destruct (fire cfg (S (S (nextTimer m))) (Some ks2) m3) as [u m4 t4 | m4 t4];
    simpl in F |- *; subst t4;
    rewrite deliveries_app, D, deliveries_connectTrace; reflexivity.
Qed.

(** The statement on a fresh manager and the rows of [three_klines],
    fetched both times: the rows closing at 11 and at 12 are delivered
    in this order, and again after the reconnect; [handleKline], fed the
    deliveries, commits the two closes twice on top of the 49 prices it
    held. *)
Lemma C10_connect_redelivers_history_witness :
  deliveries (trace (reconnect_run default_config three_klines three_klines (init 0))) =
    [ KlineEvent "kline" 1 2 10 12 9 11 5 true;
      KlineEvent "kline" 2 3 11 13 10 12 6 true;
      KlineEvent "kline" 1 2 10 12 9 11 5 true;
      KlineEvent "kline" 2 3 11 13 10 12 6 true ] /\
  TechnicalAnalysis.closingPrices
    (TradingBot.technicalAnalysis
       (consume default_config warmed_bot
          (deliveries
             (trace (reconnect_run default_config three_klines
                       three_klines (init 0)))))) =
    replicate 49 1%Q ++ [11; 12; 11; 12]%Q.
Proof.
  split; [|vm_compute; reflexivity].
  apply (C10_connect_redelivers_history default_config three_klines
           three_klines (init 0)).
  reflexivity.
Defined.


(** *** The attempt counter on reachable managers *)

Lemma noExit_nil : noExit [].
Proof. intros code H. inversion H. Qed.

Lemma noExit_app (t1 t2 : list effect) :
  noExit t1 -> noExit t2 -> noExit (t1 ++ t2).
Proof.
  intros H1 H2 code H. apply elem_of_app in H.
  destruct H as [H|H]; [exact (H1 code H) | exact (H2 code H)].
Qed.

Lemma steady_ret {A : Type} (a : A) : steady (ret a).
Proof. intros m H. split; [exact H | apply noExit_nil]. Qed.

Lemma steady_throw {A : Type} : steady (@throw A).
Proof. intros m H. split; [exact H | apply noExit_nil]. Qed.

Lemma steady_get : steady get.
Proof. intros m H. split; [exact H | apply noExit_nil]. Qed.

Lemma steady_emit (e : effect) :
  (forall code, e <> ProcessExit code) -> steady (emit e).
Proof.
  intros He m H. split; [exact H|]. intros code Hc. simpl in Hc.
  apply list_elem_of_singleton in Hc. symmetry in Hc. exact (He code Hc).
Qed.

Lemma steady_bind {A B : Type} (c : M A) (k : A -> M B) :
  steady c -> (forall a, steady (k a)) -> steady (bind c k).
Proof.
  intros Hc Hk m H. destruct (Hc m H) as [I1 N1]. unfold bind.
  destruct (c m) as [a m1 t1 | m1 t1]; simpl in I1, N1 |- *;
    [|split; assumption].
  destruct (Hk a m1 I1) as [I2 N2].
  destruct (k a m1); simpl in I2, N2 |- *;
    (split; [exact I2 | apply noExit_app; assumption]).
Qed.

Lemma steady_try_catch {A : Type} (c h : M A) :
  steady c -> steady h -> steady (try_catch c h).
Proof.
  intros Hc Hh m H. destruct (Hc m H) as [I1 N1]. unfold try_catch.
  destruct (c m) as [a m1 t1 | m1 t1]; simpl in I1, N1 |- *;
    [split; assumption|].
  destruct (Hh m1 I1) as [I2 N2].
  destruct (h m1); simpl in I2, N2 |- *;
    (split; [exact I2 | apply noExit_app; assumption]).
Qed.

Lemma steady_modify (f : manager -> manager) :
  (forall m, isReconnecting (f m) = isReconnecting m /\
             reconnectAttempts (f m) = reconnectAttempts m) ->
  steady (modify f).
Proof.
  intros Hf m H. split; [|apply noExit_nil].
  unfold idleAtZero, modify. simpl. destruct (Hf m) as [-> ->]. exact H.
Qed.

Lemma steady_forEach {A : Type} (l : list A) (f : A -> M unit) :
  (forall x, steady (f x)) -> steady (forEach l f).
Proof.
  intros Hf. induction l as [|x l IH]; simpl.
  - apply steady_ret.
  - apply steady_bind; auto.
Qed.

Lemma steady_if {A : Type} (b : bool) (c1 c2 : M A) :
  steady c1 -> steady c2 -> steady (if b then c1 else c2).
Proof. destruct b; auto. Qed.

Create HintDb mgr.
#[local] Hint Resolve steady_ret steady_throw steady_get steady_bind
  steady_try_catch steady_forEach steady_if : mgr.
#[local] Hint Extern 1 (steady (emit _)) =>
  apply steady_emit; intros ?; discriminate : mgr.
#[local] Hint Extern 1 (steady (modify _)) =>
  apply steady_modify; intros [? ? ? ? ? ? ? ? ? ?]; split; reflexivity : mgr.

Lemma steady_the_ws : steady the_ws.
Proof.
  unfold the_ws. apply steady_bind; [auto with mgr|].
  intros m. destruct (ws m); auto with mgr.
Qed.
#[local] Hint Resolve steady_the_ws : mgr.

Lemma steady_Date_now : steady Date_now.
Proof. unfold Date_now. auto with mgr. Qed.

Lemma steady_setTimer (t : timer) : steady (setTimer t).
Proof. unfold setTimer. auto 10 with mgr. Qed.

Lemma steady_clearTimer (id : nat) : steady (clearTimer id).
Proof. unfold clearTimer. auto with mgr. Qed.
#[local] Hint Resolve steady_Date_now steady_setTimer steady_clearTimer : mgr.

Lemma steady_ws_close : steady ws_close.
Proof. unfold ws_close. auto 10 with mgr. Qed.

Lemma steady_ws_terminate : steady ws_terminate.
Proof. unfold ws_terminate. auto 10 with mgr. Qed.

Lemma steady_ws_send (f : frame) : steady (ws_send f).
Proof. unfold ws_send. auto 10 with mgr. Qed.
#[local] Hint Resolve steady_ws_close steady_ws_terminate steady_ws_send : mgr.

Lemma steady_cleanup : steady cleanup.
Proof.
  unfold cleanup. apply steady_bind.
  - apply steady_bind; [auto with mgr|]. intros m.
    destruct (pingInterval m); auto 10 with mgr.
  - intros _. apply steady_bind; [auto with mgr|]. intros m.
    destruct (pongTimeout m); auto 10 with mgr.
Qed.

Lemma steady_handlePong : steady handlePong.
Proof.
  unfold handlePong. apply steady_bind; [|auto with mgr].
  apply steady_bind; [auto with mgr|]. intros m.
  destruct (pongTimeout m); auto 10 with mgr.
Qed.

Lemma steady_handlePing : steady handlePing.
Proof. unfold handlePing. auto 10 with mgr. Qed.

Lemma steady_resubscribe : steady resubscribe.
Proof. unfold resubscribe. auto 10 with mgr. Qed.
#[local] Hint Resolve steady_cleanup steady_handlePong steady_handlePing
  steady_resubscribe : mgr.

Lemma steady_handleOpen : steady handleOpen.
Proof.
  intros m H. split.
  - intros _. destruct m as [[rs|] pi po ra ir lmt [|c subs] tm nt ck];
      reflexivity.
  - destruct m as [[rs|] pi po ra ir lmt [|c subs] tm nt ck];
      intros code Hc; vm_compute in Hc;
      repeat (apply elem_of_cons in Hc; destruct Hc as [Hc|Hc];
              [discriminate|]); inversion Hc.
Qed.

Lemma steady_handleMessage (data : incoming) : steady (handleMessage data).
Proof. unfold handleMessage. destruct data; auto 10 with mgr. Qed.

Lemma handleReconnect_busy (cfg : config) (m : manager) :
  isReconnecting m = true -> handleReconnect cfg m = Returns tt m [].
Proof.
  intros R. unfold handleReconnect, bind, get. rewrite R. reflexivity.
Qed.

Lemma steady_handleReconnect (cfg : config) :
  (0 < maxReconnectAttempts cfg)%Z -> steady (handleReconnect cfg).
Proof.
  intros Hmax m H. unfold idleAtZero in H.
  destruct (isReconnecting m) eqn:R.
  - rewrite handleReconnect_busy by assumption. simpl.
    split; [|apply noExit_nil]. intros R'. congruence.
  - rewrite handleReconnect_retry by (rewrite ?H; auto). simpl. split.
    + intros R'. destruct m; simpl in *; discriminate.
    + intros code Hc. apply list_elem_of_singleton in Hc. discriminate.
Qed.

Lemma steady_handleClose (cfg : config) :
  (0 < maxReconnectAttempts cfg)%Z -> steady (handleClose cfg).
Proof.
  intros Hmax. unfold handleClose.
  pose proof (steady_handleReconnect cfg Hmax). auto 10 with mgr.
Qed.

Lemma steady_handleError : steady handleError.
Proof. unfold handleError. auto 10 with mgr. Qed.

Lemma steady_connect (cfg : config) (reply : option (list kline)) :
  (0 < maxReconnectAttempts cfg)%Z -> steady (connect cfg reply).
Proof.
  intros Hmax. pose proof (steady_handleReconnect cfg Hmax).
  unfold connect, setupHeartbeat, setupConnectionMonitor.
  apply steady_try_catch; [|auto with mgr].
  apply steady_bind; [auto with mgr|]. intros _.
  apply steady_bind; [destruct reply; auto with mgr|]. intros ks.
  auto 20 with mgr.
Qed.

Lemma steady_fire (cfg : config) (id : nat) (reply : option (list kline)) :
  (0 < maxReconnectAttempts cfg)%Z -> steady (fire cfg id reply).
Proof.
  intros Hmax. pose proof (steady_connect cfg reply Hmax).
  unfold fire. apply steady_bind; [auto with mgr|]. intros m.
  destruct (timers m !! id) as [[| | |]|];
    unfold pingCallback, pongTimeoutCallback, monitorCallback;
    auto 20 with mgr.
Qed.

Lemma steady_dispatch (cfg : config) (ev : event) :
  (0 < maxReconnectAttempts cfg)%Z -> steady (dispatch cfg ev).
Proof.
  intros Hmax. pose proof (steady_handleClose cfg Hmax).
  pose proof steady_handleOpen. pose proof steady_handleError.
  pose proof steady_handleMessage.
  unfold dispatch. apply steady_bind.
  - apply steady_modify. intros [[rs|] ? ? ? ? ? ? ? ? ?]; destruct ev;
      split; reflexivity.
  - intros _. destruct ev as [|[]| | | |]; auto with mgr.
Qed.

Lemma steady_exec (cfg : config) (c : command) :
  (0 < maxReconnectAttempts cfg)%Z -> steady (exec cfg c).
Proof.
  intros Hmax. destruct c; simpl.
  - apply steady_connect; assumption.
  - apply steady_dispatch; assumption.
  - apply steady_fire; assumption.
  - unfold subscribe. auto 20 with mgr.
  - unfold unsubscribe. auto 20 with mgr.
  - unfold close. apply steady_bind; [auto with mgr|]. intros _.
    apply steady_bind; [|auto with mgr].
    apply steady_bind; [auto with mgr|]. intros m.
    destruct (ws m); auto 10 with mgr.
  - unfold elapse. auto with mgr.
Qed.

(** With at least one reconnect attempt allowed, the attempt counter of a
    reachable manager is zero whenever no reconnect is in progress. *)
Lemma reachable_idleAtZero (cfg : config) (m : manager) :
  (0 < maxReconnectAttempts cfg)%Z -> reachable cfg m -> idleAtZero m.
Proof.
  intros Hmax R. induction R as [now | m c R IH].
  - intros _. reflexivity.
  - exact (proj1 (steady_exec cfg c Hmax m IH)).
Qed.

(** Hence the exhausted branch of [handleReconnect] is never taken: no
    command run on a reachable manager exits the process. *)
Lemma reachable_noExit (cfg : config) (m : manager) (c : command) :
  (0 < maxReconnectAttempts cfg)%Z -> reachable cfg m ->
  noExit (trace (exec cfg c m)).
Proof.
  intros Hmax R.
  exact (proj2 (steady_exec cfg c Hmax m (reachable_idleAtZero cfg m Hmax R))).
Qed.

(** A reconnect that fails stalls the manager: with a reconnect in
    progress, neither a rejected fetch nor a close event arms a timer. *)
Lemma reconnect_stalls (cfg : config) (m : manager) :
  isReconnecting m = true ->
  timers (final (connect cfg None m)) = timers m /\
  timers (final (handleReconnect cfg m)) = timers m.
Proof.
  intros R. destruct m as [w pi po ra ir lmt subs tm nt ck].
  simpl in R. subst ir. split; reflexivity.
Qed.
End Connection.

(** * Further properties of the code *)

(** ** TechnicalAnalysis: windows and histories *)
Section Windows.
Import TechnicalAnalysis.

Lemma slice_last_length {A : Type} (n : nat) (l : list A) :
  length (slice_last n l) = Nat.min n (length l).
Proof. unfold slice_last. rewrite length_drop. lia. Qed.

Lemma push_capped_slice (cap : nat) (l : list Q) (x : Q) :
  length l <= cap -> push_capped cap l x = slice_last cap (l ++ [x]).
Proof.
  intros H. unfold push_capped, push, shift, slice_last.
  rewrite length_app. simpl.
  destruct (cap <? length l + 1) eqn:E.
  - apply Nat.ltb_lt in E. replace (length l + 1 - cap) with 1 by lia.
    destruct l; reflexivity.
  - apply Nat.ltb_ge in E. replace (length l + 1 - cap) with 0 by lia.
    reflexivity.
Qed.

Lemma slice_last_app_slice {A : Type} (n : nat) (l1 l2 : list A) :
  slice_last n (slice_last n l1 ++ l2) = slice_last n (l1 ++ l2).
Proof.
  unfold slice_last.
  rewrite <- (drop_app_le l1 l2 (length l1 - n)) by lia.
  rewrite drop_drop. f_equal.
  rewrite length_drop, !length_app. lia.
Qed.

Lemma feed_closingPrices (cfg : config) (prices : list Q) :
  forall s,
    length (closingPrices s) <= maxClosingPrices cfg ->
    closingPrices (feed cfg s prices) =
    slice_last (maxClosingPrices cfg) (closingPrices s ++ prices).
Proof.
  induction prices as [|x prices IH]; intros s H.
  - simpl. rewrite app_nil_r. unfold slice_last.
    replace (length (closingPrices s) - maxClosingPrices cfg) with 0 by lia.
    reflexivity.
  - change (feed cfg s (x :: prices)) with (feed cfg (addPrice cfg s x None) prices).
    rewrite IH.
    + simpl closingPrices. rewrite push_capped_slice by assumption.
      rewrite slice_last_app_slice, <- app_assoc. reflexivity.
    + simpl closingPrices. rewrite push_capped_slice by assumption.
      rewrite slice_last_length. lia.
Qed.

(** X1: [addPrice] keeps a sliding window.  From a state whose closing
    prices fit the configured maximum, feeding further prices leaves
    exactly the last [maxClosingPrices] of the old and new prices, in
    order; the window never grows past the maximum, and a feed without
    volumes leaves the histories alone. *)
Theorem addPrice_window (cfg : config) (s : state) (prices : list Q) :
  length (closingPrices s) <= maxClosingPrices cfg ->
  closingPrices (feed cfg s prices) =
    slice_last (maxClosingPrices cfg) (closingPrices s ++ prices) /\
  length (closingPrices (feed cfg s prices)) <= maxClosingPrices cfg /\
  ema5History (feed cfg s prices) = ema5History s /\
  ema50History (feed cfg s prices) = ema50History s /\
  volumeHistory (feed cfg s prices) = volumeHistory s.
Proof.
  intros H. split; [apply feed_closingPrices; assumption|].
  split; [rewrite feed_closingPrices by assumption;
          rewrite slice_last_length; lia|].
  clear H. revert s. induction prices as [|x prices IH]; intros s;
    [repeat split|].
  change (feed cfg s (x :: prices)) with (feed cfg (addPrice cfg s x None) prices).
  destruct (IH (addPrice cfg s x None)) as (E5 & E50 & EV).
  rewrite E5, E50, EV. repeat split.
Qed.

(** X1 on a window of 3 fed with five prices. *)
Lemma addPrice_window_witness :
  let cfg := Config 5 50 3 20 1 1 1 5 1000 30000 5000 in
  closingPrices (feed cfg init [1; 2; 3; 4; 5]%Q) = [3; 4; 5]%Q.
Proof.
  intros cfg. apply (addPrice_window cfg init [1; 2; 3; 4; 5]%Q).
  simpl. lia.
Defined.

Lemma set_last_snoc (l : list Q) (y x : Q) : set_last (l ++ [y]) x = l ++ [x].
Proof.
  unfold set_last. rewrite length_app. simpl.
  replace (length l + 1 - 1) with (length l + 0) by lia.
  rewrite insert_app_r. reflexivity.
Qed.

Lemma set_last_length (l : list Q) (x : Q) : length (set_last l x) = length l.
Proof. unfold set_last. apply length_insert. Qed.

Lemma set_last_take (l : list Q) (x : Q) :
  l <> [] -> set_last l x = take (length l - 1) l ++ [x].
Proof.
  intros H. destruct l as [|a l] using rev_ind; [contradiction|].
  rewrite set_last_snoc, length_app. simpl.
  replace (length l + 1 - 1) with (length l) by lia.
  rewrite take_app_length. reflexivity.
Qed.

Lemma set_last_twice (l : list Q) (x y : Q) :
  set_last (set_last l x) y = set_last l y.
Proof.
  destruct l as [|a l] using rev_ind; [reflexivity|].
  rewrite !set_last_snoc. reflexivity.
Qed.

(** X2: [updateLastEma] overwrites in place.  It never changes the length
    of either history; when both are non-empty it replaces exactly their
    last entries and keeps every other field; when either is empty it
    changes nothing; and a second call replaces the effect of the first,
    so repeated ticks of one candle do not accumulate. *)
Theorem updateLastEma_overwrites (s : state) (a5 a50 b5 b50 : Q) :
  let s' := updateLastEma s a5 a50 in
  length (ema5History s') = length (ema5History s) /\
  length (ema50History s') = length (ema50History s) /\
  closingPrices s' = closingPrices s /\
  previousEma5 s' = previousEma5 s /\
  previousEma50 s' = previousEma50 s /\
  (ema5History s <> [] -> ema50History s <> [] ->
     ema5History s' = take (length (ema5History s) - 1) (ema5History s) ++ [a5] /\
     ema50History s' = take (length (ema50History s) - 1) (ema50History s) ++ [a50]) /\
  (ema5History s = [] \/ ema50History s = [] -> s' = s) /\
  updateLastEma s' b5 b50 = updateLastEma s b5 b50.
Proof.
  intros s'. subst s'. unfold updateLastEma.
  destruct (ema5History s) as [|x5 h5] eqn:E5.
  { simpl. rewrite E5. simpl.
    repeat split; try reflexivity; auto; contradiction. }
  destruct (ema50History s) as [|x50 h50] eqn:E50.
  { simpl. rewrite E5, E50. simpl.
    repeat split; try reflexivity; auto; contradiction. }
  simpl "<?". simpl andb. cbv iota. simpl.
  rewrite !set_last_length. simpl.
  repeat split; try reflexivity.
  - apply (set_last_take (x5 :: h5)). discriminate.
  - apply (set_last_take (x50 :: h50)). discriminate.
  - intros [H|H]; discriminate H.
  - rewrite (set_last_twice (x5 :: h5)), (set_last_twice (x50 :: h50)).
    reflexivity.
Qed.

Lemma ta_reachable_lockstep (cfg : config) (s : state) :
  ta_reachable cfg s ->
  length (ema5History s) = length (ema50History s) /\
  (previousEma5 s = None <-> previousEma50 s = None) /\
  (is_Some (previousEma5 s) <-> ema5History s <> []).
Proof.
  assert (I : length (ema5History init) = length (ema50History init) /\
              (previousEma5 init = None <-> previousEma50 init = None) /\
              (is_Some (previousEma5 init) <-> ema5History init <> [])).
  { split; [reflexivity|]. split; [simpl; tauto|].
    split; [intros [x Hx]; discriminate | intros H; contradiction]. }
  induction 1 as [|s p v R IH|s e5 e50 R IH|s e5 e50 R IH|s R IH];
    [exact I | exact IH | | | exact I].
  - destruct IH as (L & _ & _). simpl.
    rewrite !push_twice_shift_length, L.
    split; [reflexivity|]. split; [split; discriminate|].
    split; [|intros _; eauto].
    intros _ E. apply (f_equal length) in E.
    rewrite push_twice_shift_length in E. simpl in E.
    destruct (maxEma5History cfg <? length (ema5History s) + 2) in E; lia.
  - destruct IH as (L & P & N). unfold updateLastEma.
    destruct ((0 <? length (ema5History s)) && (0 <? length (ema50History s)))
      eqn:B; [|split; [exact L | split; [exact P | exact N]]].
    simpl. rewrite !set_last_length.
    split; [exact L|]. split; [exact P|].
    rewrite N. apply andb_true_iff in B. destruct B as [B _].
    apply Nat.ltb_lt in B. split; intros H E.
    + apply (f_equal length) in E. rewrite set_last_length in E.
      simpl in E. lia.
    + rewrite E in B. simpl in B. lia.
Qed.

(** X3: the two EMA histories move in lockstep.  On every state a
    [TechnicalAnalysis] object reaches through its own methods, the
    histories have the same length, the two previous averages are set or
    unset together, and they are set exactly when the histories are
    non-empty; so the two length tests of [checkArcPattern] agree. *)
Theorem histories_lockstep (cfg : config) (s : state) (c5 c50 : Q) :
  ta_reachable cfg s ->
  length (ema5History s) = length (ema50History s) /\
  (previousEma5 s = None <-> previousEma50 s = None) /\
  (is_Some (previousEma5 s) <-> ema5History s <> []) /\
  (length (ema5History s) < 5 -> checkArcPattern cfg s c5 c50 = None).
Proof.
  intros R. destruct (ta_reachable_lockstep cfg s R) as (L & P & N).
  repeat split; try tauto; try (apply N); try (apply P).
  intros H. unfold checkArcPattern.
  apply Nat.ltb_lt in H. rewrite H. reflexivity.
Qed.

(** X3 on the state after three candles. *)
Lemma histories_lockstep_witness :
  length (ema5History (arc_state 3)) = length (ema50History (arc_state 3)).
Proof.
  apply (histories_lockstep default_config (arc_state 3) 1 3).
  unfold arc_state, candle. repeat constructor.
Defined.

End Windows.

(** ** TradingBot: the kline handler *)
Section KlineHandler.
Import TechnicalAnalysis TradingBot.

Lemma handleKline_cold (cfg : config) (b : bot) (exS exA : exchange) (m : message) :
  length (closingPrices (technicalAnalysis b)) + 1 < ema50Period cfg ->
  handleKline cfg b exS exA m = (b, []).
Proof.
  intros H. unfold handleKline. case_bool_decide; [reflexivity|].
  unfold calculateEMAs. rewrite length_app. simpl length.
  apply Nat.ltb_lt in H. rewrite H. reflexivity.
Qed.

Lemma handleAll_cold (cfg : config) (b : bot)
    (stream : list (exchange * exchange * message)) :
  length (closingPrices (technicalAnalysis b)) + 1 < ema50Period cfg ->
  handleAll cfg b stream = (b, []).
Proof.
  intros H. unfold handleAll.
  induction stream as [|[[exS exA] m] stream IH] using rev_ind; [reflexivity|].
  rewrite foldl_app, IH. simpl. rewrite handleKline_cold by assumption.
  reflexivity.
Qed.

Lemma feed_length_le (cfg : config) (prices : list Q) :
  forall s,
    length (closingPrices (feed cfg s prices)) <=
    length (closingPrices s) + length prices.
Proof.
  induction prices as [|x prices IH]; intros s; [simpl; lia|].
  change (feed cfg s (x :: prices)) with (feed cfg (addPrice cfg s x None) prices).
  specialize (IH (addPrice cfg s x None)). simpl in IH |- *.
  assert (length (push_capped (maxClosingPrices cfg) (closingPrices s) x)
          <= length (closingPrices s) + 1).
  { unfold push_capped, push, shift.
    destruct (_ <? _); [destruct (closingPrices s); simpl|];
      rewrite ?length_app; simpl; lia. }
  lia.
Qed.

(** X4: too little history leaves the bot inert for good.  When
    [initializeHistoricalData] receives fewer closing prices than the
    EMA50 period minus one, it seeds no average; and from then on
    [handleKline] returns before committing anything, so whatever the
    stream delivers, closed candles included, the bot stays exactly as it
    is and makes no call. *)
Theorem handleKline_inert_before_warmup (cfg : config) (closes : list Q)
    (b : bot) (stream : list (exchange * exchange * message)) :
  Orders.initializeHistoricalData cfg TradingBot.init (Some closes) = Some b ->
  length closes + 1 < ema50Period cfg ->
  previousEma5 (technicalAnalysis b) = None /\
  ema5History (technicalAnalysis b) = [] /\
  handleAll cfg b stream = (b, []).
Proof.
  intros I H. unfold Orders.initializeHistoricalData in I.
  destruct (last closes) as [lastPrice|]; [|discriminate].
  fold (feed cfg (technicalAnalysis TradingBot.init) closes) in I.
  pose proof (feed_length_le cfg closes (technicalAnalysis TradingBot.init)) as L.
  change (length (closingPrices (technicalAnalysis TradingBot.init))) with 0 in L.
  set (t := feed cfg (technicalAnalysis TradingBot.init) closes) in *.
  assert (C : calculateEMAs cfg t lastPrice = (None, None)).
  { unfold calculateEMAs. rewrite length_app. simpl length.
    replace (length (closingPrices t) + 1 <? ema50Period cfg) with true
      by (symmetry; apply Nat.ltb_lt; lia).
    reflexivity. }
  rewrite C in I. simpl in I. injection I as <-.
  assert (E : ema5History t = [] /\ previousEma5 t = None).
  { subst t. clear.
    assert (G : forall s, ema5History (feed cfg s closes) = ema5History s /\
                          previousEma5 (feed cfg s closes) = previousEma5 s).
    { induction closes as [|x closes IH]; intros s; [split; reflexivity|].
      change (feed cfg s (x :: closes))
        with (feed cfg (addPrice cfg s x None) closes).
      destruct (IH (addPrice cfg s x None)) as [-> ->]. split; reflexivity. }
    apply (G (technicalAnalysis TradingBot.init)). }
  destruct E as [E5 EP]. simpl. split; [exact EP|]. split; [exact E5|].
  apply handleAll_cold. simpl. lia.
Qed.

(** X4 on ten historical prices and a stream of two messages, with the
    periods 5 and 50 of the repository. *)
Lemma handleKline_inert_before_warmup_witness :
  let b := set_ta TradingBot.init (feed repo_config TechnicalAnalysis.init (replicate 10 1%Q)) in
  handleAll repo_config b
    [ (reports None, reports None, Message "kline" 2 true);
      (reports None, reports None, Message "kline" 3 false) ] = (b, []).
Proof.
  intros b.
  apply (handleKline_inert_before_warmup repo_config (replicate 10 1%Q) b).
  - reflexivity.
  - simpl. lia.
Defined.




End KlineHandler.
(** ** TradingBot: what a tick asks of the exchange *)
Section TickCalls.
Import TechnicalAnalysis TradingBot.

Lemma checkTradeSignals_histories (b : bot) (ex : exchange)
    (ema5 ema50 currentPrice : Q) :
  let r := checkTradeSignals b ex ema5 ema50 currentPrice in
  ema5History (technicalAnalysis r.1) = ema5History (technicalAnalysis b) /\
  ema50History (technicalAnalysis r.1) = ema50History (technicalAnalysis b) /\
  lastArcPattern r.1 = lastArcPattern b.
Proof.
  unfold checkTradeSignals.
  destruct (negb (truthy (previousEma5 (technicalAnalysis b))) ||
            negb (truthy (previousEma50 (technicalAnalysis b))));
    [repeat split|].
  generalize (Qgtb currentPrice ema5 && Qgtb currentPrice ema50).
  generalize (Qltb currentPrice ema5 && Qltb currentPrice ema50).
  generalize (crossedDown (num (previousEma5 (technicalAnalysis b)))
                (num (previousEma50 (technicalAnalysis b))) ema5 ema50).
  generalize (crossedUp (num (previousEma5 (technicalAnalysis b)))
                (num (previousEma50 (technicalAnalysis b))) ema5 ema50).
  intros cu cd pb pa.
  destruct (positionReply ex) as [[[|]|]|], (lastCrossSignal b) as [[|]|] eqn:L,
    (closeResolves ex), (openResolves ex), cu, cd, pb, pa;
    simpl; rewrite ?L; repeat split.
Qed.

(** X6: the reversal exit of [checkTradeSignals].  A tick closes the
    position exactly when both stored previous averages are truthy and
    the exchange reports a short while the price is strictly above both
    current averages, or a long while it is strictly below both.  The
    close is at the current price and is the only order of the tick;
    when it resolves the stored crossover signal is cleared, when it
    rejects the signal is kept; the crossover price is left alone. *)
Theorem checkTradeSignals_reversal_close (b : bot) (ex : exchange)
    (ema5 ema50 currentPrice q : Q) :
  let r := checkTradeSignals b ex ema5 ema50 currentPrice in
  (ClosePosition q ∈ r.2 <->
   q = currentPrice /\
   truthy (previousEma5 (technicalAnalysis b)) = true /\
   truthy (previousEma50 (technicalAnalysis b)) = true /\
   ((positionReply ex = Some (Some short) /\
     (ema5 < currentPrice)%Q /\ (ema50 < currentPrice)%Q) \/
    (positionReply ex = Some (Some long) /\
     (currentPrice < ema5)%Q /\ (currentPrice < ema50)%Q))) /\
  (ClosePosition q ∈ r.2 ->
   r.2 = [GetCurrentPosition; ClosePosition currentPrice] /\
   lastCrossSignal r.1 =
     (if closeResolves ex then None else lastCrossSignal b) /\
   crossPrice r.1 = crossPrice b).
Proof.
  intros r. subst r. unfold checkTradeSignals.
  rewrite <- (Qgtb_gt currentPrice ema5), <- (Qgtb_gt currentPrice ema50),
    <- (Qltb_lt currentPrice ema5), <- (Qltb_lt currentPrice ema50),
    <- !andb_true_iff.
  destruct (truthy (previousEma5 (technicalAnalysis b))); simpl;
    [|split; [split; [intros H; inversion H | intros (_ & ? & _); discriminate]
             | intros H; inversion H]].
  destruct (truthy (previousEma50 (technicalAnalysis b))); simpl;
    [|split; [split; [intros H; inversion H | intros (_ & _ & ? & _); discriminate]
             | intros H; inversion H]].
  generalize (Qgtb currentPrice ema5 && Qgtb currentPrice ema50).
  generalize (Qltb currentPrice ema5 && Qltb currentPrice ema50).
  generalize (crossedDown (num (previousEma5 (technicalAnalysis b)))
                (num (previousEma50 (technicalAnalysis b))) ema5 ema50).
  generalize (crossedUp (num (previousEma5 (technicalAnalysis b)))
                (num (previousEma50 (technicalAnalysis b))) ema5 ema50).
  intros cu cd pb pa.
  destruct (positionReply ex) as [[[|]|]|], (closeResolves ex),
    (openResolves ex), cu, cd, pb, pa;
    simpl; repeat case_bool_decide; simpl;
    rewrite ?elem_of_cons, ?elem_of_nil; intuition congruence.
Qed.

(** X7: when a tick asks for the position.  [checkTradeSignals] fetches
    the position exactly when both stored previous averages are truthy
    and the price is strictly beyond both current averages on one side,
    or the averages cross; the fetch comes before any order of the tick.
    When the fetch rejects, at most that one call is made and the
    crossover memory is kept.  While a stored previous average is falsy
    the tick makes no call and stores the current pair as the previous
    one. *)
Theorem checkTradeSignals_position_query (b : bot) (ex : exchange)
    (ema5 ema50 currentPrice : Q) :
  let p5 := num (previousEma5 (technicalAnalysis b)) in
  let p50 := num (previousEma50 (technicalAnalysis b)) in
  let r := checkTradeSignals b ex ema5 ema50 currentPrice in
  (GetCurrentPosition ∈ r.2 <->
   truthy (previousEma5 (technicalAnalysis b)) = true /\
   truthy (previousEma50 (technicalAnalysis b)) = true /\
   (((ema5 < currentPrice)%Q /\ (ema50 < currentPrice)%Q) \/
    ((currentPrice < ema5)%Q /\ (currentPrice < ema50)%Q) \/
    crossing DOWN_CROSS p5 p50 ema5 ema50 \/
    crossing UP_CROSS p5 p50 ema5 ema50)) /\
  (r.2 = [] \/ head r.2 = Some GetCurrentPosition) /\
  (positionReply ex = None ->
   length r.2 <= 1 /\
   lastCrossSignal r.1 = lastCrossSignal b /\ crossPrice r.1 = crossPrice b) /\
  (truthy (previousEma5 (technicalAnalysis b)) = false \/
   truthy (previousEma50 (technicalAnalysis b)) = false ->
   r.2 = [] /\
   previousEma5 (technicalAnalysis r.1) = Some ema5 /\
   previousEma50 (technicalAnalysis r.1) = Some ema50).
Proof.
  intros p5 p50 r. subst r. unfold checkTradeSignals. fold p5 p50.
  rewrite <- (Qgtb_gt currentPrice ema5), <- (Qgtb_gt currentPrice ema50),
    <- (Qltb_lt currentPrice ema5), <- (Qltb_lt currentPrice ema50),
    <- !andb_true_iff, <- crossedDown_iff, <- crossedUp_iff.
  destruct (truthy (previousEma5 (technicalAnalysis b))); simpl;
    [|rewrite elem_of_nil; intuition (auto; discriminate)].
  destruct (truthy (previousEma50 (technicalAnalysis b))); simpl;
    [|rewrite elem_of_nil; intuition (auto; discriminate)].
  generalize (Qgtb currentPrice ema5 && Qgtb currentPrice ema50).
  generalize (Qltb currentPrice ema5 && Qltb currentPrice ema50).
  generalize (crossedDown p5 p50 ema5 ema50).
  generalize (crossedUp p5 p50 ema5 ema50).
  intros cu cd pb pa.
  destruct (positionReply ex) as [[[|]|]|], (closeResolves ex),
    (openResolves ex), cu, cd, pb, pa;
    simpl; repeat case_bool_decide; simpl;
    rewrite ?elem_of_cons, ?elem_of_nil;
    intuition (auto; try congruence; try lia).
Qed.

Lemma handleArcPattern_fresh (cfg : config) (b : bot) (ex : exchange)
    (p : pattern) (currentPrice ema5 ema50 : Q) :
  ~ hasBreakout p ema5 ema50 ->
  Some p <> lastArcPattern b ->
  handleArcPattern cfg b ex p currentPrice ema5 ema50 =
  match p with
  | TOP => reversePosition ex long short currentPrice
  | BOTTOM => reversePosition ex short long currentPrice
  end.
Proof.
  intros N F. unfold handleArcPattern.
  rewrite (hasBreakout_test_false p ema5 ema50 N). simpl.
  rewrite bool_decide_true by exact F. reflexivity.
Qed.

(** X8: a fresh arc pattern turns the bot around.  When the averages have
    not flipped past the pattern and the pattern differs from the one
    remembered, [handleArcPattern] fetches the position, closes it
    exactly when it is the one the pattern argues against (a long at a
    top, a short at a bottom), and opens the opposite position exactly
    when none was held or the held one was closed successfully; a
    position already facing the new way is left as it is. *)
Theorem handleArcPattern_reverses (cfg : config) (b : bot) (ex : exchange)
    (p : pattern) (currentPrice ema5 ema50 q : Q) (d : side) :
  ~ hasBreakout p ema5 ema50 ->
  Some p <> lastArcPattern b ->
  let held := match p with TOP => long | BOTTOM => short end in
  let target := match p with TOP => short | BOTTOM => long end in
  let calls := handleArcPattern cfg b ex p currentPrice ema5 ema50 in
  head calls = Some GetCurrentPosition /\
  (ClosePosition q ∈ calls <->
   q = currentPrice /\ positionReply ex = Some (Some held)) /\
  (OpenPosition d q ∈ calls <->
   d = target /\ q = currentPrice /\
   (positionReply ex = Some None \/
    (positionReply ex = Some (Some held) /\ closeResolves ex = true))).
Proof.
  intros N F held target calls. subst calls.
  rewrite (handleArcPattern_fresh cfg b ex p currentPrice ema5 ema50 N F).
  subst held target. unfold reversePosition.
  destruct p, (positionReply ex) as [[[|]|]|], (closeResolves ex); simpl;
    rewrite ?elem_of_cons, ?elem_of_nil; intuition congruence.
Qed.

(** X8 on a top seen while the exchange reports a long: fetch, close,
    open short. *)
Lemma handleArcPattern_reverses_witness :
  head (handleArcPattern default_config TradingBot.init
          (reports (Some long)) TOP 2 2 1) = Some GetCurrentPosition /\
  (ClosePosition 2 ∈ handleArcPattern default_config TradingBot.init
                       (reports (Some long)) TOP 2 2 1 <->
   2%Q = 2%Q /\ positionReply (reports (Some long)) = Some (Some long)) /\
  (OpenPosition short 2 ∈ handleArcPattern default_config TradingBot.init
                            (reports (Some long)) TOP 2 2 1 <->
   short = short /\ 2%Q = 2%Q /\
   (positionReply (reports (Some long)) = Some None \/
    (positionReply (reports (Some long)) = Some (Some long) /\
     closeResolves (reports (Some long)) = true))).
Proof.
  apply (handleArcPattern_reverses default_config TradingBot.init
           (reports (Some long)) TOP 2 2 1 2 short).
  - simpl. intros H. vm_compute in H. discriminate.
  - discriminate.
Defined.

Lemma checkArcPattern_ext (cfg : config) (s s' : state) (ema5 ema50 : Q) :
  ema5History s = ema5History s' ->
  ema50History s = ema50History s' ->
  checkArcPattern cfg s ema5 ema50 = checkArcPattern cfg s' ema5 ema50.
Proof.
  intros E5 E50. unfold checkArcPattern. rewrite E5, E50. reflexivity.
Qed.

(** *** The run without overlap, piece by piece *)

Lemma finish_None (cfg : config) (n : nat) (b : bot) (exS exA : exchange) :
  finish cfg n b None exS exA = (b, []).
Proof. destruct n; reflexivity. Qed.

Lemma finish_S (cfg : config) (exS exA : exchange) (n : nat) (b : bot) (t : task) :
  finish cfg (S n) b (Some t) exS exA =
  (let '(b1, calls, t1) := resume cfg b t (answers exS exA t) in
   let '(b2, calls') := finish cfg n b1 t1 exS exA in
   (b2, calls ++ calls')).
Proof. reflexivity. Qed.

(** Every piece of a run leaves fewer awaits before it. *)
Lemma resume_rank (cfg : config) (b : bot) (t : task) (ex : exchange) (t1 : task) :
  (resume cfg b t ex).2 = Some t1 -> rank t1 < rank t.
Proof.
  destruct t; simpl; unfold beginArc;
    repeat (first [case_bool_decide | case_match]); simpl;
    intros [= <-]; simpl; lia.
Qed.

(** Resuming a run more often than it has awaits changes nothing. *)
Lemma finish_enough (cfg : config) (exS exA : exchange) (n : nat) :
  forall n' b t, rank t <= n -> rank t <= n' ->
  finish cfg n b (Some t) exS exA = finish cfg n' b (Some t) exS exA.
Proof.
  induction n as [|n IH]; intros n' b t H H'.
  - destruct t; simpl in H; lia.
  - destruct n' as [|n']; [destruct t; simpl in H'; lia|].
    rewrite !finish_S.
    pose proof (resume_rank cfg b t (answers exS exA t)) as R.
    destruct (resume cfg b t (answers exS exA t)) as [[b1 calls] [t1|]].
    + specialize (R t1 eq_refl). simpl in R.
      rewrite (IH n' b1 t1) by lia. reflexivity.
    + rewrite !finish_None. reflexivity.
Qed.

(** From the return of [checkTradeSignals] on, a run that is not
    overlapped does what [handleKline] does after that call. *)
Lemma arc_phase (cfg : config) (b : bot) (exS exA : exchange)
    (e5 e50 price : Q) :
  let r := finish cfg 5 b (Some (SignalsDone e5 e50 price)) exS exA in
  (r.1, r.2.*2) =
  match checkArcPattern cfg (technicalAnalysis b) e5 e50 with
  | Some arcPattern =>
    if bool_decide (Some arcPattern <> lastArcPattern b) then
      (set_lastArcPattern b (Some arcPattern),
       handleArcPattern cfg b exA arcPattern price e5 e50)
    else (b, [])
  | None => (b, [])
  end.
Proof.
  simpl.
  destruct (checkArcPattern cfg (technicalAnalysis b) e5 e50) as [p|];
    [|reflexivity].
  case_bool_decide as F; [|reflexivity].
  unfold beginArc, handleArcPattern, reversePosition.
  rewrite (bool_decide_true _ F).
  generalize (match p with
              | TOP => Qltb e5 e50
              | BOTTOM => Qgtb e5 e50
              end && breakoutRejects cfg b p price).
  intros g.
  destruct g, p; simpl; try reflexivity;
    destruct (positionReply exA) as [[[|]|]|]; simpl; try reflexivity;
    destruct (closeResolves exA); reflexivity.
Qed.

Opaque finish.

(** Up to the return of [checkTradeSignals], a run that is not
    overlapped does what [checkTradeSignals] does. *)
Lemma signals_phase (cfg : config) (b : bot) (exS exA : exchange)
    (e5 e50 price : Q) :
  let s := beginSignals b e5 e50 price in
  let a := checkTradeSignals b exS e5 e50 price in
  let f := finish cfg 7 s.1.1 s.2 exS exA in
  let r := finish cfg 5 a.1 (Some (SignalsDone e5 e50 price)) exS exA in
  f.1 = r.1 /\ (s.1.2 ++ f.2).*2 = a.2 ++ r.2.*2.
Proof.
  unfold beginSignals, checkTradeSignals.
  destruct (negb (truthy (previousEma5 (technicalAnalysis b))) ||
            negb (truthy (previousEma50 (technicalAnalysis b)))).
  { simpl. rewrite (finish_enough cfg exS exA 7 5) by (simpl; lia).
    split; reflexivity. }
  set (p5 := num (previousEma5 (technicalAnalysis b))).
  set (p50 := num (previousEma50 (technicalAnalysis b))).
  destruct (Qgtb price e5 && Qgtb price e50
            || Qltb price e5 && Qltb price e50
            || (crossedDown p5 p50 e5 e50 || crossedUp p5 p50 e5 e50)).
  2: { simpl. rewrite (finish_enough cfg exS exA 7 5) by (simpl; lia).
       split; reflexivity. }
  cbn [fst snd]. rewrite finish_S. cbn [resume answers].
  generalize (Qgtb price e5 && Qgtb price e50).
  generalize (Qltb price e5 && Qltb price e50).
  generalize (crossedDown p5 p50 e5 e50).
  generalize (crossedUp p5 p50 e5 e50).
  intros cu cd pb pa.
  destruct (positionReply exS) as [[[|]|]|]; simpl;
    repeat match goal with
           | |- context [if ?c then _ else _] => is_var c; destruct c; simpl
           end;
    repeat first
      [ rewrite (finish_S cfg exS exA 5 _ (SignalsClose _ _ _));
        simpl; destruct (closeResolves exS); simpl
      | rewrite (finish_S cfg exS exA 5 _ (SignalsOpen _ _ _ _));
        simpl; destruct (openResolves exS); simpl
      | case_bool_decide; simpl ];
    rewrite ?(finish_enough cfg exS exA 6 5) by (simpl; lia);
    match goal with
    | |- context [finish cfg 5 ?x ?y exS exA] =>
      destruct (finish cfg 5 x y exS exA) as [b2 c2]
    end; simpl; split; reflexivity.
Qed.

Transparent finish.

(** [handleKline] is the run of [arrive] and [resume] during whose awaits
    no other run is resumed. *)
Lemma handleKline_uninterrupted (cfg : config) (b : bot) (exS exA : exchange)
    (m : message) :
  handleKline cfg b exS exA m =
  ((uninterrupted cfg b exS exA m).1, (uninterrupted cfg b exS exA m).2.*2).
Proof.
  unfold handleKline, uninterrupted, arrive.
  case_bool_decide; [reflexivity|].
  destruct (calculateEMAs cfg (technicalAnalysis b) (msg_close m)) as [o5 o50].
  destruct (negb (truthy o5) || negb (truthy o50)); [reflexivity|].
  destruct (msg_closed m); [reflexivity|].
  set (b1 := set_ta b (updateLastEma (technicalAnalysis b) (num o5) (num o50))).
  pose proof (signals_phase cfg b1 exS exA (num o5) (num o50) (msg_close m)) as S.
  pose proof (arc_phase cfg (checkTradeSignals b1 exS (num o5) (num o50) (msg_close m)).1
                exS exA (num o5) (num o50) (msg_close m)) as A.
  cbv zeta in S, A.
  destruct (beginSignals b1 (num o5) (num o50) (msg_close m)) as [[bs cs] ts].
  destruct (checkTradeSignals b1 exS (num o5) (num o50) (msg_close m)) as [b2 calls].
  cbn [fst snd] in S, A |- *.
  destruct (finish cfg 7 bs ts exS exA) as [bf cf].
  cbn [fst snd] in S |- *. destruct S as [S1 S2]. rewrite S1, S2.
  destruct (finish cfg 5 b2 (Some (SignalsDone (num o5) (num o50) (msg_close m)))
              exS exA) as [br cr].
  cbn [fst snd] in A |- *.
  destruct (checkArcPattern cfg (technicalAnalysis b2) (num o5) (num o50)) as [p|].
  - case_bool_decide; injection A as -> ->; rewrite ?app_nil_r; reflexivity.
  - injection A as -> ->. rewrite app_nil_r. reflexivity.
Qed.

(** What [handleKline] does on a tick with defined averages when no other
    run is resumed during its awaits. *)
Lemma handleKline_alone (cfg : config) (b : bot) (exS exA : exchange)
    (m : message) (e5 e50 : Q) :
  msg_e m = "kline"%string ->
  msg_closed m = false ->
  calculateEMAs cfg (technicalAnalysis b) (msg_close m) = (Some e5, Some e50) ->
  truthy (Some e5) = true -> truthy (Some e50) = true ->
  let t1 := updateLastEma (technicalAnalysis b) e5 e50 in
  let crossCalls := (checkTradeSignals (set_ta b t1) exS e5 e50 (msg_close m)).2 in
  let r := handleKline cfg b exS exA m in
  match checkArcPattern cfg t1 e5 e50 with
  | Some p =>
    lastArcPattern r.1 = Some p /\
    r.2 = crossCalls ++
          (if bool_decide (Some p <> lastArcPattern b) then
             match p with
             | TOP => reversePosition exA long short (msg_close m)
             | BOTTOM => reversePosition exA short long (msg_close m)
             end
           else [])
  | None => lastArcPattern r.1 = lastArcPattern b /\ r.2 = crossCalls
  end.
Proof.
  intros He Hx Hc T5 T50 t1 crossCalls r. subst r crossCalls.
  unfold handleKline.
  rewrite He, Hx, Hc. simpl bool_decide. cbv iota. rewrite T5, T50.
  simpl negb. simpl orb. cbv iota. simpl num. fold t1.
  pose proof (checkTradeSignals_histories (set_ta b t1) exS e5 e50 (msg_close m))
    as (H5 & H50 & HL).
  destruct (checkTradeSignals (set_ta b t1) exS e5 e50 (msg_close m))
    as [b2 calls].
  simpl in H5, H50, HL. simpl.
  rewrite (checkArcPattern_ext cfg (technicalAnalysis b2) t1 e5 e50 H5 H50).
  destruct (checkArcPattern cfg t1 e5 e50) as [p|] eqn:A.
  - rewrite HL. case_bool_decide as F; simpl.
    + split; [reflexivity|]. f_equal.
      apply handleArcPattern_fresh.
      * exact (checkArcPattern_excludes_breakout cfg t1 e5 e50 p A).
      * rewrite HL. exact F.
    + split; [|symmetry; apply app_nil_r].
      rewrite HL. symmetry. exact F.
  - split; [exact HL | reflexivity].
Qed.

(** X9: the arc memory of [handleKline].  When [checkTradeSignals] has
    returned, the run looks for an arc in the histories and compares it
    with [lastArcPattern], both as they are at that moment: a pattern
    that differs from the remembered one makes [handleArcPattern] ask
    for the position (its breakout guard is never entered on this path),
    the remembered pattern and no pattern end the run and write nothing.
    A run that waits in or for [handleArcPattern] on a pattern starts
    arc calls only and leaves the bot as it is until the call has
    returned; then it stores that pattern in [lastArcPattern], whatever
    the exchange answered, and ends.  In a run during whose awaits no
    other run is resumed, the state read is the one the tick left on
    arrival: the arc calls follow the crossover calls, are decided by
    the pattern found once the tick's pair has overwritten the last
    history entry, and reverse the position when that pattern differs
    from the one remembered when the tick arrived; a tick without a
    pattern keeps the memory. *)
Theorem handleKline_arc_memory (cfg : config) :
  (forall b e5 e50 price ex,
     resume cfg b (SignalsDone e5 e50 price) ex =
     match checkArcPattern cfg (technicalAnalysis b) e5 e50 with
     | Some p =>
       if bool_decide (Some p <> lastArcPattern b)
       then (b, [(Arc, GetCurrentPosition)], Some (ArcPosition p price))
       else (b, [], None)
     | None => (b, [], None)
     end) /\
  (forall b p t ex,
     handling p t ->
     let r := resume cfg b t ex in
     (forall c, c ∈ r.1.2 -> c.1 = Arc) /\
     match r.2 with
     | Some t' => r.1.1 = b /\ handling p t' /\ rank t' < rank t
     | None => t = ArcDone p /\ r.1.1 = set_lastArcPattern b (Some p)
     end) /\
  (forall b exS exA m e5 e50,
     msg_e m = "kline"%string ->
     msg_closed m = false ->
     calculateEMAs cfg (technicalAnalysis b) (msg_close m) = (Some e5, Some e50) ->
     truthy (Some e5) = true -> truthy (Some e50) = true ->
     let t1 := updateLastEma (technicalAnalysis b) e5 e50 in
     let crossCalls :=
       (checkTradeSignals (set_ta b t1) exS e5 e50 (msg_close m)).2 in
     let r := uninterrupted cfg b exS exA m in
     match checkArcPattern cfg t1 e5 e50 with
     | Some p =>
       lastArcPattern r.1 = Some p /\
       r.2.*2 = crossCalls ++
                (if bool_decide (Some p <> lastArcPattern b) then
                   match p with
                   | TOP => reversePosition exA long short (msg_close m)
                   | BOTTOM => reversePosition exA short long (msg_close m)
                   end
                 else [])
     | None => lastArcPattern r.1 = lastArcPattern b /\ r.2.*2 = crossCalls
     end).
Proof.
  split; [|split].
  - intros b e5 e50 price ex. simpl.
    destruct (checkArcPattern cfg (technicalAnalysis b) e5 e50) as [p|] eqn:A;
      [|reflexivity].
    case_bool_decide as F; [|reflexivity].
    unfold beginArc.
    rewrite (hasBreakout_test_false p e5 e50
               (checkArcPattern_excludes_breakout cfg _ e5 e50 p A)).
    simpl. rewrite (bool_decide_true _ F). reflexivity.
  - intros b p t ex H.
    destruct t as [| | | |p' price|p' pos price|p'|p']; simpl in H;
      try contradiction; subst p'; simpl.
    1: destruct (positionReply ex) as [pos|]; [repeat case_bool_decide|].
    5: destruct (closeResolves ex && bool_decide (pos <> Some (turnsTo p))).
    all: simpl;
      (split; [intros c Hc; rewrite ?elem_of_cons, ?elem_of_nil in Hc;
               intuition (subst; reflexivity)|]);
      repeat split; simpl; lia.
  - intros b exS exA m e5 e50 He Hx Hc T5 T50.
    pose proof (handleKline_alone cfg b exS exA m e5 e50 He Hx Hc T5 T50) as H.
    rewrite handleKline_uninterrupted in H. exact H.
Qed.

(** X9 on [arc_bot]: the tick at price 2 completes a top; the exchange
    reports a long, which is closed and reversed, and the top is
    remembered. *)
Lemma handleKline_arc_memory_witness :
  let r := uninterrupted quick_config arc_bot (reports None)
             (reports (Some long)) (Message "kline" 2 false) in
  lastArcPattern r.1 = Some TOP /\
  r.2.*2 = [GetCurrentPosition; ClosePosition 2; OpenPosition short 2].
Proof.
  exact (proj2 (proj2 (handleKline_arc_memory quick_config)) arc_bot
           (reports None) (reports (Some long)) (Message "kline" 2 false)
           (8 # 4)%Q (3 # 2)%Q eq_refl eq_refl eq_refl eq_refl eq_refl).
Defined.

End TickCalls.
(** ** TradingBot: order sizing and the order sequence

    The statements hold for every rounding [fl] of the arithmetic, hence
    for the binary64 rounding of the runtime; the witnesses evaluate the
    code under [JS.binary64]. *)
Section OrderCode.
Import BinanceApi Orders.





(** X11: the order of the requests in [openPosition].  The requests made
    are an initial part of: account, leverage (5 in test mode), exchange
    rules, one order, one signal; so no order goes out before the
    leverage is set and the rules are read, and at most one order is
    placed.  The promise resolves exactly when the signal was sent,
    which takes an accepted order; every failure on the way rejects
    without a retry. *)
Theorem openPosition_sequence (fl : JS.rounding) (tc : trading)
    (testMode : bool) (ex : openReplies) (direction : TradingBot.side)
    (currentPrice : Q) :
  let r := openPosition fl tc testMode ex direction currentPrice in
  (exists order text,
     requests r `prefix_of`
       [GetAccountInfo; SetLeverage (if testMode then 5%Q else leverage tc);
        GetExchangeInfo; order; SendSignal text]) /\
  (resolved r = true <-> exists text, SendSignal text ∈ requests r) /\
  (resolved r = true ->
   open_orderOk ex = true /\
   exists side quantity, PlaceOrder side quantity false ∈ requests r).
Proof.
  intros r. subst r. unfold openPosition.
  set (dummyOrder := PlaceOrder BUY JS.NaN false).
  set (dummyText := Opened direction currentPrice JS.NaN).
  assert (N : forall l : list request,
            (forall text, SendSignal text ∉ l) ->
            (false = true <-> exists text, SendSignal text ∈ l) /\
            (false = true -> open_orderOk ex = true /\
               exists side quantity, PlaceOrder side quantity false ∈ l)).
  { intros l H. split; [split; [discriminate | intros [text T]; destruct (H text T)]
                       | discriminate]. }
  destruct (getAccountInfo (open_account ex)) as [accountInfo|].
  2:{ split; [exists dummyOrder, dummyText; eexists; reflexivity|].
      apply N. intros text. simpl. rewrite !elem_of_cons, elem_of_nil.
      intuition discriminate. }
  destruct (open_leverageOk ex); simpl negb; cbv iota.
  2:{ split; [exists dummyOrder, dummyText; eexists; reflexivity|].
      apply N. intros text. simpl. rewrite !elem_of_cons, elem_of_nil.
      intuition discriminate. }
  cbv zeta.
  destruct (open_exchangeInfo ex) as [symbols|].
  2:{ split; [exists dummyOrder, dummyText; eexists; reflexivity|].
      apply N. intros text. simpl. rewrite !elem_of_cons, elem_of_nil.
      intuition discriminate. }
  destruct (List.find _ symbols) as [symbolInfo|].
  2:{ split; [exists dummyOrder, dummyText; eexists; reflexivity|].
      apply N. intros text. simpl. rewrite !elem_of_cons, elem_of_nil.
      intuition discriminate. }
  destruct (List.find _ (filters symbolInfo)) as [lotSizeFilter|].
  2:{ split; [exists dummyOrder, dummyText; eexists; reflexivity|].
      apply N. intros text. simpl. rewrite !elem_of_cons, elem_of_nil.
      intuition discriminate. }
  destruct (JS.lt _ _).
  { split; [exists dummyOrder, dummyText; eexists; reflexivity|].
    apply N. intros text. simpl. rewrite !elem_of_cons, elem_of_nil.
    intuition discriminate. }
  destruct (open_orderOk ex); simpl.
  - split; [do 2 eexists; eexists; reflexivity|].
    split; [split; [intros _; eexists; do 4 apply list_elem_of_further;
                    apply list_elem_of_here | reflexivity]|].
    intros _. split; [reflexivity|]. do 2 eexists.
    do 3 apply list_elem_of_further. apply list_elem_of_here.
  - split; [eexists _, dummyText; eexists; reflexivity|].
    apply N. intros text. rewrite !elem_of_cons, elem_of_nil.
    intuition discriminate.
Qed.




Lemma heldPosition_type (p : positionEntry) :
  JS.prop (heldPosition p) "type" =
  JS.Str (if Qgtb (positionAmt p) 0 then "long" else "short").
Proof.
  unfold JS.prop, heldPosition, JS.object. rewrite lookup_insert_eq.
  reflexivity.
Qed.


Lemma heldPosition_initialMargin (p : positionEntry) :
  JS.prop (heldPosition p) "initialMargin" = JS.Undefined.
Proof.
  unfold JS.prop, heldPosition, JS.object.
  rewrite !lookup_insert_ne by done. rewrite lookup_singleton_ne by done.
  reflexivity.
Qed.

(** The object [getCurrentPosition] resolves to is the flat one or the
    one built from an entry of the symbol with a non-zero amount. *)
Lemma getCurrentPosition_cases (reply : option accountData) (sym : string)
    (position : JS.object) :
  getCurrentPosition reply sym = Some position ->
  position = flatPosition \/
  exists accountInfo entry,
    getAccountInfo reply = Some accountInfo /\
    List.find (fun p => String.eqb (entry_symbol p) sym)
      (info_positions accountInfo) = Some entry /\
    ~ (positionAmt entry == 0)%Q /\
    position = heldPosition entry.
Proof.
  unfold getCurrentPosition.
  destruct (getAccountInfo reply) as [accountInfo|]; [|discriminate].
  destruct (List.find _ (info_positions accountInfo)) as [entry|] eqn:F.
  - destruct (Qeq_bool (positionAmt entry) 0) eqn:Z.
    + intros [= <-]. left. reflexivity.
    + intros [= <-]. right. exists accountInfo, entry.
      repeat split; auto. intros H. apply Qeq_bool_iff in H. congruence.
  - intros [= <-]. left. reflexivity.
Qed.




(** X14: [closePosition] can reject after the position is closed.  When
    the closing order is accepted and the account request that follows
    it fails, the promise rejects although the order was placed and the
    signal sent; the account request is the last thing it did. *)
Theorem closePosition_rejects_after_close (fl : JS.rounding) (tc : trading)
    (ex : closeReplies) (currentPrice : Q) (side : orderSide)
    (quantity : JS.number) (reduceOnly : bool) :
  PlaceOrder side quantity reduceOnly ∈
    requests (closePosition fl tc ex currentPrice) ->
  close_orderOk ex = true ->
  getAccountInfo (close_accountAfter ex) = None ->
  let r := closePosition fl tc ex currentPrice in
  resolved r = false /\
  (exists text, SendSignal text ∈ requests r) /\
  last (requests r) = Some GetAccountInfo.
Proof.
  intros H K A r. subst r. revert H. unfold closePosition.
  destruct (getCurrentPosition (close_account ex) (symbol tc)) as [position|];
    [|simpl; rewrite !elem_of_cons, elem_of_nil; intuition discriminate].
  destruct (negb (JS.truthy (JS.prop position "type")));
    [simpl; rewrite !elem_of_cons, elem_of_nil; intuition discriminate|].
  cbv zeta.
  destruct (close_exchangeInfo ex) as [symbols|];
    [|simpl; rewrite !elem_of_cons, elem_of_nil; intuition discriminate].
  destruct (List.find _ symbols) as [symbolInfo|];
    [|simpl; rewrite !elem_of_cons, elem_of_nil; intuition discriminate].
  destruct (List.find _ (filters symbolInfo)) as [lotSizeFilter|];
    [|simpl; rewrite !elem_of_cons, elem_of_nil; intuition discriminate].
  destruct (JS.lt _ _);
    [simpl; rewrite !elem_of_cons, elem_of_nil; intuition discriminate|].
  rewrite K, A. intros _. simpl.
  split; [reflexivity|]. split; [|reflexivity].
  eexists. do 3 apply list_elem_of_further. apply list_elem_of_here.
Qed.

(** X14 under binary64 on [long_entry] with the account request failing
    after the order. *)
Lemma closePosition_rejects_after_close_witness :
  resolved (closePosition JS.binary64 repo_trading (close_ok None) 51000) =
  false.
Proof.
  apply (closePosition_rejects_after_close JS.binary64 repo_trading
           (close_ok None) 51000 SELL (JS.binary64 (1004 # 1000)%Q) true).
  - vm_compute. do 2 apply list_elem_of_further. apply list_elem_of_here.
  - reflexivity.
  - reflexivity.
Defined.

(** X15: [checkPositionStatus] never closes a position.  The object
    [getCurrentPosition] resolves to has no [initialMargin] property,
    so the profit percentage is [NaN] for every held position and both
    the stop-loss and the take-profit comparison are false: whatever the
    exchange answers and however large the loss, the method makes no
    request beyond the position and the price, never returns through a
    close, and every status it reports carries [NaN]. *)
Theorem checkPositionStatus_never_closes (fl : JS.rounding) (tc : trading)
    (account : option accountData) (latestPrice : option Q)
    (ex : closeReplies) :
  let r := checkPositionStatus fl tc account latestPrice ex in
  r.2 `prefix_of` [GetCurrentPosition; GetLatestPrice] /\
  r.1 <> Some ClosedIt /\
  (forall pnlPercent, r.1 = Some (Report pnlPercent) -> pnlPercent = JS.NaN).
Proof.
  intros r. subst r. unfold checkPositionStatus.
  destruct (getCurrentPosition account (symbol tc)) as [position|] eqn:G.
  2:{ simpl. split; [eexists; reflexivity|]. split; [discriminate|].
      discriminate. }
  destruct latestPrice as [currentPrice|].
  2:{ simpl. split; [exists []; reflexivity|]. split; discriminate. }
  cbv zeta.
  destruct (getCurrentPosition_cases _ _ _ G)
    as [->|(accountInfo & entry & _ & _ & _ & ->)].
  { change (JS.prop flatPosition "type") with JS.Null. simpl.
    split; [exists []; reflexivity|]. split; discriminate. }
  rewrite heldPosition_type, heldPosition_initialMargin.
  replace (JS.truthy (JS.Str (if Qgtb (positionAmt entry) 0
                              then "long" else "short")%string))
    with true by (destruct (Qgtb (positionAmt entry) 0); reflexivity).
  simpl negb. cbv iota.
  assert (N : forall a, JS.mul fl (JS.div fl a (JS.toNumber JS.Undefined))
                          (JS.Finite 100) = JS.NaN).
  { intros [q| | |]; reflexivity. }
  assert (L : forall a, JS.le JS.NaN a = false) by reflexivity.
  assert (G' : forall a, JS.ge JS.NaN a = false)
    by (intros [q| | |]; reflexivity).
  rewrite N, L, G'. simpl.
  split; [exists []; reflexivity|]. split; [discriminate|].
  intros pnlPercent [= <-]. reflexivity.
Qed.

End OrderCode.

(** ** WebSocketManager: invariants of a session *)
Section Respect.
Import WebSocketManager.
Variable cfg : config.
Variable I : manager -> Prop.
Variable ok : effect -> Prop.
Hypothesis I_calm : forall f m, calm f -> I m -> I (f m).
Hypothesis ok_Log : forall l, ok (Log l).
Hypothesis ok_WsSend : forall f, ok (WsSend f).
Hypothesis ok_WsClose : ok WsClose.
Hypothesis ok_WsTerminate : ok WsTerminate.
Hypothesis ok_WsPing : ok WsPing.
Hypothesis ok_WsPong : ok WsPong.
Hypothesis ok_OnMessage : forall msg, ok (OnMessage msg).

Lemma respects_ret {A : Type} (a : A) : respects I ok (ret a).
Proof. intros m H. split; [exact H | constructor]. Qed.

Lemma respects_throw {A : Type} : respects I ok (@throw A).
Proof. intros m H. split; [exact H | constructor]. Qed.

Lemma respects_get : respects I ok get.
Proof. intros m H. split; [exact H | constructor]. Qed.

Lemma respects_emit (e : effect) : ok e -> respects I ok (emit e).
Proof. intros He m H. split; [exact H | repeat constructor; exact He]. Qed.

Lemma respects_modify (f : manager -> manager) :
  calm f -> respects I ok (modify f).
Proof. intros Hf m H. split; [exact (I_calm f m Hf H) | constructor]. Qed.

Lemma respects_bind {A B : Type} (c : M A) (k : A -> M B) :
  respects I ok c -> (forall a, respects I ok (k a)) ->
  respects I ok (bind c k).
Proof.
  intros Hc Hk m H. destruct (Hc m H) as [I1 N1]. unfold bind.
  destruct (c m) as [a m1 t1 | m1 t1]; simpl in I1, N1 |- *;
    [|split; assumption].
  destruct (Hk a m1 I1) as [I2 N2].
  destruct (k a m1); simpl in I2, N2 |- *;
    (split; [exact I2 | apply Forall_app; split; assumption]).
Qed.

Lemma respects_try_catch {A : Type} (c h : M A) :
  respects I ok c -> respects I ok h -> respects I ok (try_catch c h).
Proof.
  intros Hc Hh m H. destruct (Hc m H) as [I1 N1]. unfold try_catch.
  destruct (c m) as [a m1 t1 | m1 t1]; simpl in I1, N1 |- *;
    [split; assumption|].
  destruct (Hh m1 I1) as [I2 N2].
  destruct (h m1); simpl in I2, N2 |- *;
    (split; [exact I2 | apply Forall_app; split; assumption]).
Qed.

Lemma respects_forEach {A : Type} (l : list A) (f : A -> M unit) :
  (forall x, respects I ok (f x)) -> respects I ok (forEach l f).
Proof.
  intros Hf. induction l as [|x l IH]; simpl.
  - apply respects_ret.
  - apply respects_bind; auto.
Qed.

Lemma respects_if {A : Type} (b : bool) (c1 c2 : M A) :
  respects I ok c1 -> respects I ok c2 ->
  respects I ok (if b then c1 else c2).
Proof. destruct b; auto. Qed.

Lemma calm_insert (id : nat) (t : timer) :
  (forall d, t <> ReconnectTimer d) ->
  calm (fun m => set_nextTimer (S id) (set_timers (<[id := t]> (timers m)) m)).
Proof.
  intros Ht [w pi po ra ir lmt subs tm nt ck]. simpl.
  split; [reflexivity|]. split; [reflexivity|]. intros id' d H.
  destruct (decide (id' = id)) as [->|N].
  - rewrite lookup_insert_eq in H. injection H as H. destruct (Ht d H).
  - rewrite lookup_insert_ne in H by auto. exact H.
Qed.

Lemma calm_delete (id : nat) :
  calm (fun m => set_timers (delete id (timers m)) m).
Proof.
  intros [w pi po ra ir lmt subs tm nt ck]. simpl.
  split; [reflexivity|]. split; [reflexivity|]. intros id' d H.
  apply lookup_delete_Some in H. exact (proj2 H).
Qed.

Lemma calm_transport (ev : event) : calm (transport ev).
Proof.
  intros [[rs|] pi po ra ir lmt subs tm nt ck]; destruct ev; simpl;
    repeat split; auto.
Qed.

Create HintDb rsp.
#[local] Hint Resolve respects_ret respects_throw respects_get respects_bind
  respects_try_catch respects_forEach respects_if : rsp.
#[local] Hint Resolve ok_Log ok_WsSend ok_WsClose ok_WsTerminate ok_WsPing
  ok_WsPong ok_OnMessage : rsp.
#[local] Hint Extern 1 (respects _ _ (emit _)) =>
  apply respects_emit; auto with rsp : rsp.
#[local] Hint Extern 1 (respects _ _ (modify _)) =>
  apply respects_modify; intros [? ? ? ? ? ? ? ? ? ?]; simpl;
  repeat split; auto : rsp.

Lemma respects_the_ws : respects I ok the_ws.
Proof.
  unfold the_ws. apply respects_bind; [auto with rsp|].
  intros m. destruct (ws m); auto with rsp.
Qed.

Lemma respects_Date_now : respects I ok Date_now.
Proof. unfold Date_now. auto with rsp. Qed.

Lemma respects_setTimer (t : timer) :
  (forall d, t <> ReconnectTimer d) -> respects I ok (setTimer t).
Proof.
  intros Ht. unfold setTimer. apply respects_bind; [auto with rsp|].
  intros m. apply respects_bind; [|auto with rsp].
  apply respects_modify. apply calm_insert. exact Ht.
Qed.

Lemma respects_clearTimer (id : nat) : respects I ok (clearTimer id).
Proof. unfold clearTimer. apply respects_modify. apply calm_delete. Qed.
#[local] Hint Resolve respects_the_ws respects_Date_now respects_clearTimer
  : rsp.
#[local] Hint Extern 1 (respects _ _ (setTimer _)) =>
  apply respects_setTimer; intros ?; discriminate : rsp.

Lemma respects_ws_close : respects I ok ws_close.
Proof. unfold ws_close. auto 10 with rsp. Qed.

Lemma respects_ws_terminate : respects I ok ws_terminate.
Proof. unfold ws_terminate. auto 10 with rsp. Qed.

Lemma respects_ws_send (f : frame) : respects I ok (ws_send f).
Proof. unfold ws_send. auto 10 with rsp. Qed.
#[local] Hint Resolve respects_ws_close respects_ws_terminate
  respects_ws_send : rsp.

Lemma respects_cleanup : respects I ok cleanup.
Proof.
  unfold cleanup. apply respects_bind.
  - apply respects_bind; [auto with rsp|]. intros m.
    destruct (pingInterval m); auto 10 with rsp.
  - intros _. apply respects_bind; [auto with rsp|]. intros m.
    destruct (pongTimeout m); auto 10 with rsp.
Qed.

Lemma respects_handlePong : respects I ok handlePong.
Proof.
  unfold handlePong. apply respects_bind; [|auto with rsp].
  apply respects_bind; [auto with rsp|]. intros m.
  destruct (pongTimeout m); auto 10 with rsp.
Qed.

Lemma respects_handlePing : respects I ok handlePing.
Proof. unfold handlePing. auto 10 with rsp. Qed.

Lemma respects_resubscribe : respects I ok resubscribe.
Proof. unfold resubscribe. auto 10 with rsp. Qed.
#[local] Hint Resolve respects_cleanup respects_handlePong
  respects_handlePing respects_resubscribe : rsp.

Lemma respects_handleMessage (data : incoming) :
  respects I ok (handleMessage data).
Proof. unfold handleMessage. destruct data; auto 10 with rsp. Qed.

Lemma respects_handleError : respects I ok handleError.
Proof. unfold handleError. auto 10 with rsp. Qed.

Lemma respects_handleClose :
  respects I ok (handleReconnect cfg) -> respects I ok (handleClose cfg).
Proof. intros H. unfold handleClose. auto 10 with rsp. Qed.

Lemma respects_connect (reply : option (list kline)) :
  ok (GetHistoricalKlines 100) -> ok NewWebSocket ->
  respects I ok (handleReconnect cfg) ->
  respects I ok (connect cfg reply).
Proof.
  intros H1 H2 H.
  unfold connect, setupHeartbeat, setupConnectionMonitor.
  apply respects_try_catch; [|auto with rsp].
  apply respects_bind; [auto with rsp|]. intros _.
  apply respects_bind; [destruct reply; auto with rsp|]. intros ks.
  auto 20 with rsp.
Qed.

Lemma respects_subscribe (channel : string) :
  respects I ok (subscribe channel).
Proof. unfold subscribe. auto 20 with rsp. Qed.

Lemma respects_unsubscribe (channel : string) :
  respects I ok (unsubscribe channel).
Proof. unfold unsubscribe. auto 20 with rsp. Qed.

Lemma respects_close : respects I ok close.
Proof.
  unfold close. apply respects_bind; [auto with rsp|]. intros _.
  apply respects_bind; [|auto with rsp].
  apply respects_bind; [auto with rsp|]. intros m.
  destruct (ws m); auto 10 with rsp.
Qed.

Lemma respects_elapse (ms : Z) : respects I ok (elapse ms).
Proof. unfold elapse. auto with rsp. Qed.

Lemma bind_get {A : Type} (k : manager -> M A) (m : manager) :
  bind get k m = k m m.
Proof. unfold bind, get. destruct (k m m); reflexivity. Qed.

(** The callbacks of the timers other than the reconnect timer. *)
Lemma respects_fire_other (id : nat) (reply : option (list kline)) (m : manager) :
  I m ->
  (forall d, timers m !! id <> Some (ReconnectTimer d)) ->
  I (final (fire cfg id reply m)) /\ Forall ok (trace (fire cfg id reply m)).
Proof.
  intros Im N. unfold fire. rewrite bind_get.
  destruct (timers m !! id) as [[every|after|every|after]|] eqn:T.
  - revert m Im N T. unfold pingCallback.
    assert (H : respects I ok
                  (let* rs := the_ws in
                   if bool_decide (rs = OPEN) then
                     emit WsPing >> emit (Log debug) >>
                     let* id := setTimer (PongTimer (pongTimeoutMs cfg)) in
                     modify (set_pongTimeout (Some id))
                   else ret tt)) by auto 20 with rsp.
    intros m Im _ _. exact (H m Im).
  - assert (H : respects I ok (clearTimer id >> pongTimeoutCallback))
      by (unfold pongTimeoutCallback; auto 20 with rsp).
    exact (H m Im).
  - assert (H : respects I ok monitorCallback)
      by (unfold monitorCallback; auto 20 with rsp).
    exact (H m Im).
  - destruct (N after eq_refl).
  - exact (respects_ret tt m Im).
Qed.

Lemma respects_fire (id : nat) (reply : option (list kline)) :
  respects I ok (connect cfg reply) ->
  respects I ok (fire cfg id reply).
Proof.
  intros H m Im.
  destruct (timers m !! id) as [[every|after|every|after]|] eqn:T;
    try (apply respects_fire_other; [exact Im | intros d; rewrite T; discriminate]).
  unfold fire. rewrite bind_get, T.
  assert (H' : respects I ok (clearTimer id >> connect cfg reply))
    by auto with rsp.
  exact (H' m Im).
Qed.

Lemma respects_dispatch (ev : event) :
  (ev = on_open -> respects I ok handleOpen) ->
  respects I ok (handleReconnect cfg) ->
  respects I ok (dispatch cfg ev).
Proof.
  intros Ho Hr. pose proof (respects_handleClose Hr).
  pose proof respects_handleError. pose proof respects_handleMessage.
  unfold dispatch. apply respects_bind.
  - apply respects_modify. apply calm_transport.
  - intros _. destruct ev as [|[]| | | |]; auto with rsp.
Qed.

End Respect.

Lemma runCommands_snoc (cfg : config) (cmds : list command) (c : command)
    (m : WebSocketManager.manager) :
  runCommands cfg (cmds ++ [c]) m =
  (WebSocketManager.final (exec cfg c (runCommands cfg cmds m).1),
   (runCommands cfg cmds m).2 ++
   WebSocketManager.trace (exec cfg c (runCommands cfg cmds m).1)).
Proof. unfold runCommands. rewrite foldl_app. reflexivity. Qed.

(** An invariant kept by each command of a session, with its effects
    within [ok], holds at the end of the session. *)
Lemma respects_session (cfg : config) (I : WebSocketManager.manager -> Prop)
    (ok : WebSocketManager.effect -> Prop) (allowed : command -> Prop) :
  (forall c, allowed c -> respects I ok (exec cfg c)) ->
  forall cmds m,
    Forall allowed cmds -> I m ->
    I (runCommands cfg cmds m).1 /\ Forall ok (runCommands cfg cmds m).2.
Proof.
  intros H cmds m. induction cmds as [|c cmds IH] using rev_ind; intros A Im.
  - split; [exact Im | constructor].
  - apply Forall_app in A. destruct A as [A Ac].
    apply Forall_cons in Ac. destruct Ac as [Ac _].
    destruct (IH A Im) as [I1 T1]. rewrite runCommands_snoc. simpl.
    destruct (H c Ac _ I1) as [I2 T2].
    split; [exact I2 | apply Forall_app; split; assumption].
Qed.

Section AttemptCounter.
Import WebSocketManager.
Variable cfg : config.
Hypothesis Hmax : (0 < maxReconnectAttempts cfg)%Z.

Lemma inStep_calm (f : manager -> manager) (m : manager) :
  calm f -> inStep cfg m -> inStep cfg (f m).
Proof.
  intros Hf [A T]. destruct (Hf m) as (R & C & S). split.
  - rewrite R, C. exact A.
  - intros id d H. exact (T id d (S id d H)).
Qed.

Lemma inStep_handleOpen :
  respects (inStep cfg) (fun e => forall code, e <> ProcessExit code)
    handleOpen.
Proof.
  intros m [A T].
  destruct m as [[rs|] pi po ra ir lmt [|c subs] tm nt ck]; simpl in *;
    (split; [split; [reflexivity | exact T]
            | repeat (constructor; [intros code; discriminate|]);
              constructor]).
Qed.

Lemma inStep_handleReconnect :
  respects (inStep cfg) (fun e => forall code, e <> ProcessExit code) (handleReconnect cfg).
Proof.
  intros m [A T]. destruct (isReconnecting m) eqn:R.
  - rewrite handleReconnect_busy by assumption. simpl.
    split; [split; [rewrite R; exact A | exact T] | constructor].
  - rewrite handleReconnect_retry by (rewrite ?A; auto). simpl. split.
    + split; [simpl; rewrite A; reflexivity|]. intros id d H. simpl in H.
      destruct (decide (id = nextTimer m)) as [->|N].
      * rewrite lookup_insert_eq in H. injection H as <-. rewrite A.
        reflexivity.
      * rewrite lookup_insert_ne in H by auto. exact (T id d H).
    + repeat constructor. intros code. discriminate.
Qed.

Lemma inStep_exec (c : command) :
  respects (inStep cfg) (fun e => forall code, e <> ProcessExit code) (exec cfg c).
Proof.
  assert (C : forall reply,
            respects (inStep cfg)
              (fun e => forall code, e <> ProcessExit code)
              (connect cfg reply)).
  { intros reply. apply respects_connect;
      try (intros; intros ?; discriminate);
      [exact inStep_calm | exact inStep_handleReconnect]. }
  destruct c; simpl.
  - apply C.
  - apply respects_dispatch; try (intros; intros ?; discriminate);
      [exact inStep_calm | intros _; exact inStep_handleOpen
      | exact inStep_handleReconnect].
  - apply respects_fire; try (intros; intros ?; discriminate);
      [exact inStep_calm | apply C].
  - apply respects_subscribe; try (intros; intros ?; discriminate).
    exact inStep_calm.
  - apply respects_unsubscribe; try (intros; intros ?; discriminate).
    exact inStep_calm.
  - apply respects_close; try (intros; intros ?; discriminate).
    exact inStep_calm.
  - apply respects_elapse. exact inStep_calm.
Qed.

End AttemptCounter.

(** Up to the exit of the process, a session is an initial part of the
    commands run without stopping. *)
Lemma session_runCommands (cfg : config) (cmds : list command)
    (m : WebSocketManager.manager) :
  exists n,
    (session cfg cmds m).1.1 = (runCommands cfg (take n cmds) m).1 /\
    ((session cfg cmds m).1.2 = (runCommands cfg (take n cmds) m).2 \/
     (session cfg cmds m).1.2 =
       (runCommands cfg (take n cmds) m).2 ++ uncaughtException).
Proof.
  assert (G : forall cmds m tr0,
            foldl (fun acc c =>
                     let r := exec cfg c acc.1 in
                     (WebSocketManager.final r,
                      acc.2 ++ WebSocketManager.trace r)) (m, tr0) cmds =
            ((runCommands cfg cmds m).1, tr0 ++ (runCommands cfg cmds m).2)).
  { clear. intros cmds. induction cmds as [|c cmds IH] using rev_ind;
      intros m tr0.
    - simpl. rewrite app_nil_r. reflexivity.
    - unfold runCommands. rewrite !foldl_app. simpl.
      fold (runCommands cfg cmds m). rewrite IH. simpl.
      rewrite app_assoc. reflexivity. }
  assert (C : forall c cmds m,
            runCommands cfg (c :: cmds) m =
            ((runCommands cfg cmds (WebSocketManager.final (exec cfg c m))).1,
             WebSocketManager.trace (exec cfg c m) ++
             (runCommands cfg cmds (WebSocketManager.final (exec cfg c m))).2)).
  { intros c cmds' m'. unfold runCommands at 1. simpl. rewrite G. reflexivity. }
  revert m. induction cmds as [|c cmds IH]; intros m.
  - exists 0. split; [reflexivity | left; reflexivity].
  - simpl session.
    destruct (existsb exits (WebSocketManager.trace (exec cfg c m))).
    { exists 1. simpl take. rewrite C. simpl. rewrite app_nil_r.
      split; [reflexivity | left; reflexivity]. }
    destruct (fromRuntime c && negb (WebSocketManager.returned (exec cfg c m))).
    { exists 1. simpl take. rewrite C. simpl. rewrite app_nil_r.
      split; [reflexivity | right; reflexivity]. }
    destruct (IH (WebSocketManager.final (exec cfg c m))) as (n & E1 & E2).
    exists (S n). simpl take. rewrite C. simpl. split; [exact E1|].
    destruct E2 as [E2|E2]; rewrite E2; [left | right];
      rewrite ?app_assoc; reflexivity.
Qed.

(** X16: the reconnect counter never passes one.  With at least one
    reconnect attempt allowed, whatever the session (public methods,
    socket events, expiring timers, time passing, in any order and with
    any replies), from the constructor on: the attempt counter is 1
    while a reconnect is in progress and 0 otherwise, and every
    reconnect timer that is registered carries the delay of a first
    attempt.  So the doubling of the delay and the exhausted branch of
    [handleReconnect] are never reached: the manager itself never exits
    the process.  The process exits only through the
    [uncaughtException] handler of [logger.js], at the first socket
    event handler or timer callback that throws, and that ends the
    session. *)
Theorem session_attempts (cfg : config) (cmds : list command) (now : Z) :
  (0 < maxReconnectAttempts cfg)%Z ->
  let s := session cfg cmds (WebSocketManager.init now) in
  WebSocketManager.reconnectAttempts s.1.1 =
    (if WebSocketManager.isReconnecting s.1.1 then 1 else 0)%Z /\
  (forall id d,
     WebSocketManager.timers s.1.1 !! id = Some (WebSocketManager.ReconnectTimer d) ->
     d = Z.min (reconnectDelay cfg) 30000) /\
  (s.2 = false -> forall code, WebSocketManager.ProcessExit code ∉ s.1.2) /\
  (s.2 = true ->
   exists tr,
     s.1.2 = tr ++ uncaughtException /\
     forall code, WebSocketManager.ProcessExit code ∉ tr).
Proof.
  intros Hmax s. subst s.
  assert (G : forall cmds m,
            inStep cfg m ->
            let s := session cfg cmds m in
            inStep cfg s.1.1 /\
            (s.2 = false -> forall code, WebSocketManager.ProcessExit code ∉ s.1.2) /\
            (s.2 = true ->
             exists tr,
               s.1.2 = tr ++ uncaughtException /\
               forall code, WebSocketManager.ProcessExit code ∉ tr)).
  { clear cmds. intros cmds. induction cmds as [|c cmds IH]; intros m Im.
    - simpl. split; [exact Im|]. split; [|discriminate].
      intros _ code H. inversion H.
    - simpl session.
      destruct (inStep_exec cfg Hmax c m Im) as [I1 T1].
      assert (N1 : forall code,
                WebSocketManager.ProcessExit code ∉
                WebSocketManager.trace (exec cfg c m)).
      { intros code H. rewrite Forall_forall in T1.
        exact (T1 _ H code eq_refl). }
      assert (X : existsb exits (WebSocketManager.trace (exec cfg c m)) = false).
      { apply not_true_is_false. intros H. apply existsb_exists in H.
        destruct H as (e & He & Hx). destruct e; try discriminate.
        apply (N1 code). apply list_elem_of_In. exact He. }
      rewrite X.
      destruct (fromRuntime c && negb (WebSocketManager.returned (exec cfg c m))).
      + simpl. split; [exact I1|]. split; [discriminate|].
        intros _. eexists. split; [reflexivity | exact N1].
      + destruct (IH _ I1) as (I2 & F & T). simpl.
        split; [exact I2|]. split.
        * intros H code Hc. apply elem_of_app in Hc.
          destruct Hc as [Hc|Hc]; [exact (N1 code Hc) | exact (F H code Hc)].
        * intros H. destruct (T H) as (tr & E & N).
          exists (WebSocketManager.trace (exec cfg c m) ++ tr).
          split; [rewrite E, app_assoc; reflexivity|].
          intros code Hc. apply elem_of_app in Hc.
          destruct Hc as [Hc|Hc]; [exact (N1 code Hc) | exact (N code Hc)]. }
  destruct (G cmds (WebSocketManager.init now)) as ([A T] & F & X).
  - split; [reflexivity|]. intros id d H. simpl in H.
    rewrite lookup_empty in H. discriminate.
  - split; [exact A|]. split; [|split; [exact F | exact X]].
    intros id d H. rewrite (T id d H).
    unfold WebSocketManager.backoffDelay. simpl. rewrite Z.mul_1_r.
    reflexivity.
Qed.

(** X16 on a session in which the fetch of the first connect rejects,
    the reconnect that follows fails too, and the socket's close event
    arrives: the counter stays at one. *)
Lemma session_attempts_witness :
  WebSocketManager.reconnectAttempts
    (session default_config
       [DoConnect None; DoFire 0 None; DoEvent WebSocketManager.on_close]
       (WebSocketManager.init 0)).1.1 = 1%Z.
Proof.
  apply (session_attempts default_config
           [DoConnect None; DoFire 0 None; DoEvent WebSocketManager.on_close] 0).
  reflexivity.
Defined.

Section Stall.
Import WebSocketManager.
Variable cfg : config.

Lemma stalled_calm (f : manager -> manager) (m : manager) :
  calm f -> stalled m -> stalled (f m).
Proof.
  intros Hf [R T]. destruct (Hf m) as (R' & _ & S). split.
  - rewrite R'. exact R.
  - intros id d H. exact (T id d (S id d H)).
Qed.

Lemma stalled_handleReconnect : respects stalled (fun e => ~ connects e) (handleReconnect cfg).
Proof.
  intros m [R T]. rewrite handleReconnect_busy by assumption. simpl.
  split; [split; assumption | constructor].
Qed.

Lemma stalled_exec (c : command) :
  passive c -> respects stalled (fun e => ~ connects e) (exec cfg c).
Proof.
  intros P. destruct c; simpl in *.
  - destruct P.
  - apply respects_dispatch; try (intros; intros C; exact C);
      [exact stalled_calm | intros ->; destruct P
      | exact stalled_handleReconnect].
  - intros m S. apply respects_fire_other; try (intros; intros C; exact C);
      [exact stalled_calm | exact S | exact (proj2 S id)].
  - apply respects_subscribe; try (intros; intros C; exact C). exact stalled_calm.
  - apply respects_unsubscribe; try (intros; intros C; exact C). exact stalled_calm.
  - apply respects_close; try (intros; intros C; exact C). exact stalled_calm.
  - apply respects_elapse. exact stalled_calm.
Qed.

End Stall.

(** X17: one failed reconnect ends all reconnecting.  Once a reconnect
    is marked as in progress and its timer is gone (the connect it ran
    rejected and [handleReconnect] returned at once), nothing but an
    explicit [connect()] or an open event of a socket gets the manager
    out: through any sequence of close and error events, messages,
    pings, timer callbacks, subscriptions, [close()] calls and waiting,
    the flag stays set, no reconnect timer is registered, and no history
    is fetched and no socket created. *)
Theorem failed_reconnect_is_final (cfg : config) (m : WebSocketManager.manager)
    (cmds : list command) :
  stalled m ->
  Forall passive cmds ->
  let r := runCommands cfg cmds m in
  stalled r.1 /\ forall e, e ∈ r.2 -> ~ connects e.
Proof.
  intros S P r. subst r.
  destruct (respects_session cfg stalled (fun e => ~ connects e) passive
              (stalled_exec cfg) cmds m P S) as [S' E].
  split; [exact S'|]. intros e H. rewrite Forall_forall in E. exact (E e H).
Qed.

(** X17 after a connect whose fetch rejects, followed by the expiry of
    the reconnect timer with the fetch rejecting again: a close event, a
    late timer and a minute of waiting change nothing. *)
Lemma failed_reconnect_is_final_witness :
  let m := (runCommands default_config [DoConnect None; DoFire 0 None]
              (WebSocketManager.init 0)).1 in
  stalled (runCommands default_config
             [DoEvent WebSocketManager.on_close; DoFire 0 None; DoElapse 60000] m).1.
Proof.
  intros m.
  apply (failed_reconnect_is_final default_config m
           [DoEvent WebSocketManager.on_close; DoFire 0 None; DoElapse 60000]).
  - split; [reflexivity|]. intros id d. vm_compute. discriminate.
  - repeat constructor.
Defined.

(** ** WebSocketManager: heartbeat, watchdog and the missing socket *)
Section Heartbeat.
Import WebSocketManager.

Ltac mrun :=
  cbv beta iota zeta delta
    [bind ret get modify emit throw try_catch the_ws Date_now setTimer
     clearTimer ws_close ws_terminate ws_send cleanup handlePong handlePing
     resubscribe handleOpen handleMessage handleError
     subscribe unsubscribe close pingCallback pongTimeoutCallback
     monitorCallback fire dispatch transport elapse];
  cbn.

(** X18: the heartbeat.  On an open socket the ping callback sends a
    ping and registers a pong timeout.  If that timeout expires, the
    socket is terminated.  If a pong arrives first, as the socket's pong
    event or as a message with a [pong] field, the timeout is cleared
    and its expiry does nothing. *)
Theorem heartbeat_pong (cfg : config) (m : manager)
    (reply : option (list kline)) :
  ws m = Some OPEN ->
  let id := nextTimer m in
  let m1 := final (pingCallback cfg m) in
  trace (pingCallback cfg m) = [WsPing; Log debug] /\
  timers m1 !! id = Some (PongTimer (pongTimeoutMs cfg)) /\
  trace (fire cfg id reply m1) = [Log warn; WsTerminate] /\
  ws (final (fire cfg id reply m1)) = Some CLOSING /\
  (forall ev,
     ev = on_pong \/ ev = on_message PongMessage ->
     let m2 := final (dispatch cfg ev m1) in
     timers m2 !! id = None /\ fire cfg id reply m2 = Returns tt m2 []).
Proof.
  destruct m as [w pi po ra ir lmt subs tm nt ck]. simpl. intros ->.
  set (m1 := Manager (Some OPEN) pi (Some nt) ra ir lmt subs
               (<[nt := PongTimer (pongTimeoutMs cfg)]> tm) (S nt) ck).
  assert (E : pingCallback cfg
                (Manager (Some OPEN) pi po ra ir lmt subs tm nt ck) =
              Returns tt m1 [WsPing; Log debug]) by reflexivity.
  rewrite E. simpl final. simpl trace.
  assert (T : timers m1 !! nt = Some (PongTimer (pongTimeoutMs cfg)))
    by apply lookup_insert_eq.
  split; [reflexivity|]. split; [exact T|].
  assert (F : fire cfg nt reply m1 =
              Returns tt
                (set_ws (Some CLOSING) (set_timers (delete nt (timers m1)) m1))
                [Log warn; WsTerminate]).
  { unfold fire. rewrite bind_get, T. reflexivity. }
  rewrite F. split; [reflexivity|]. split; [reflexivity|].
  intros ev [->| ->].
  - assert (D : dispatch cfg on_pong m1 =
                Returns tt
                  (set_pongTimeout None
                     (set_timers (delete nt (timers m1)) m1))
                  [Log debug]) by reflexivity.
    rewrite D. simpl final.
    set (m2 := set_pongTimeout None _).
    assert (T2 : timers m2 !! nt = None) by apply lookup_delete_eq.
    split; [exact T2|]. unfold fire. rewrite bind_get, T2. reflexivity.
  - assert (D : dispatch cfg (on_message PongMessage) m1 =
                Returns tt
                  (set_pongTimeout None
                     (set_timers (delete nt (timers m1))
                        (set_lastMessageTime ck m1)))
                  [Log debug]) by reflexivity.
    rewrite D. simpl final.
    set (m2 := set_pongTimeout None _).
    assert (T2 : timers m2 !! nt = None) by apply lookup_delete_eq.
    split; [exact T2|]. unfold fire. rewrite bind_get, T2. reflexivity.
Qed.

(** X18 on a fresh manager whose socket is open. *)
Lemma heartbeat_pong_witness :
  trace (pingCallback default_config (set_ws (Some OPEN) (init 0))) =
  [WsPing; Log debug].
Proof.
  apply (heartbeat_pong default_config (set_ws (Some OPEN) (init 0)) None).
  reflexivity.
Defined.

Lemma keepAlive_exec (cfg : config) (c : command) (m : manager) :
  keepAlive c ->
  ws m = Some OPEN ->
  let m' := final (exec cfg c m) in
  lastMessageTime m' = lastMessageTime m /\ ws m' = Some OPEN.
Proof.
  intros K W. destruct m as [w pi [po|] ra ir lmt subs tm nt ck].
  all: simpl in W; subst w.
  all: destruct c as [|[| [] | | | |]| | | | |]; simpl in K; try destruct K.
  all: split; reflexivity.
Qed.

(** X19: keep-alive traffic does not feed the idle watchdog.  While the
    socket is open, ping and pong events and "ping" text messages leave
    [lastMessageTime] where it was; so once more than 120000 ms have
    passed since the last data message, the watchdog callback
    terminates the socket however recently a pong arrived. *)
Theorem keepalive_does_not_feed_watchdog (cfg : config) (m : manager)
    (cmds : list command) :
  ws m = Some OPEN ->
  Forall keepAlive cmds ->
  let r := runCommands cfg cmds m in
  lastMessageTime r.1 = lastMessageTime m /\
  ws r.1 = Some OPEN /\
  ((120000 < clock r.1 - lastMessageTime m)%Z ->
   trace (monitorCallback r.1) = [Log warn; WsTerminate]).
Proof.
  intros W K r. subst r.
  assert (H : lastMessageTime (runCommands cfg cmds m).1 = lastMessageTime m /\
              ws (runCommands cfg cmds m).1 = Some OPEN).
  { induction cmds as [|c cmds IH] using rev_ind; [split; [reflexivity | exact W]|].
    apply Forall_app in K. destruct K as [K Kc].
    apply Forall_cons in Kc. destruct Kc as [Kc _].
    destruct (IH K) as [L O]. rewrite runCommands_snoc. simpl.
    destruct (keepAlive_exec cfg c _ Kc O) as [L' O'].
    split; [rewrite L'; exact L | exact O']. }
  destruct H as [L O]. split; [exact L|]. split; [exact O|].
  intros A. rewrite <- L in A. apply Z.ltb_lt in A.
  destruct (runCommands cfg cmds m).1 as [w pi po ra ir lmt subs tm nt ck].
  simpl in O, A. subst w. mrun. rewrite A. reflexivity.
Qed.

(** X19 on an open socket that sees a pong every minute for three
    minutes. *)
Lemma keepalive_does_not_feed_watchdog_witness :
  let cmds := [DoElapse 60000; DoEvent on_pong; DoElapse 60000;
               DoEvent on_pong; DoElapse 60000; DoEvent on_pong] in
  let m := set_ws (Some OPEN) (init 0) in
  lastMessageTime (runCommands default_config cmds m).1 = lastMessageTime m /\
  ws (runCommands default_config cmds m).1 = Some OPEN /\
  ((120000 < clock (runCommands default_config cmds m).1 - lastMessageTime m)%Z ->
   trace (monitorCallback (runCommands default_config cmds m).1) =
   [Log warn; WsTerminate]).
Proof.
  intros cmds m.
  apply (keepalive_does_not_feed_watchdog default_config m cmds).
  - reflexivity.
  - repeat constructor.
Defined.

(** X20: without a socket the socket methods throw.  While [this.ws] is
    [null], as it is before the first resolved [connect()] and after
    [close()], [subscribe], [unsubscribe], [handlePing] and the ping
    callback throw on [this.ws.readyState] before doing anything, and
    the error handler throws at [this.ws.close()] after its clean-up;
    [close()] itself, [handlePong] and [handleMessage] return. *)
Theorem no_socket_throws (cfg : config) (m : manager) (channel : string)
    (data : incoming) :
  ws m = None ->
  subscribe channel m = Throws m [] /\
  unsubscribe channel m = Throws m [] /\
  handlePing m = Throws m [] /\
  pingCallback cfg m = Throws m [] /\
  returned (handleError m) = false /\
  close m = Returns tt (final (cleanup m)) [Log info] /\
  returned (handlePong m) = true /\
  returned (handleMessage data m) = true.
Proof.
  destruct m as [w [pi|] [po|] ra ir lmt subs tm nt ck]; simpl; intros ->;
    destruct data; repeat split; reflexivity.
Qed.

(** X20 on the manager [close()] leaves behind. *)
Lemma no_socket_throws_witness :
  let m := final (close (set_ws (Some OPEN) (init 0))) in
  subscribe "btcusdt@kline_1h" m = Throws m [].
Proof.
  intros m.
  apply (no_socket_throws default_config m "btcusdt@kline_1h" Malformed).
  reflexivity.
Defined.

End Heartbeat.
